(** * Atlas Command voice bridge: codec, session handlers and finalizer

    A shallow embedding of [src/server.ts] and [src/voiceBridgeCallLogger.ts]
    together with the properties of the bridging engine that the
    specification states about them.

    Conventions of the embedding.
    - A JavaScript number that only ever holds an integer is a [Z]; the
      32-bit bitwise operators are written with their wrap-around.
    - A Node [Buffer] is a [list byte]; typed-array stores truncate.
    - A JavaScript string is the list of its UTF-16 code units.
    - Every event handler is a function on an explicit world state that
      appends the effects it performs (socket sends, socket closes,
      structured log events, HTTP requests) to a trace, in program order. *)

From Stdlib Require Import ZArith Lia List Bool Ascii String.
From Stdlib Require Strings.Byte.
From stdpp Require Import base option list.

Local Open Scope Z_scope.

(* ------------------------------------------------------------------ *)
(** ** JavaScript integer primitives *)

Module JS.

(** ToInt32 of an integral number. *)
Definition toInt32 (z : Z) : Z := (z + 2 ^ 31) mod 2 ^ 32 - 2 ^ 31.

(** ToInt16, the conversion applied by a store into an [Int16Array]. *)
Definition toInt16 (z : Z) : Z := (z + 2 ^ 15) mod 2 ^ 16 - 2 ^ 15.

(** [~a] *)
Definition bnot (a : Z) : Z := toInt32 (Z.lnot (toInt32 a)).

(** [a & b] *)
Definition band (a b : Z) : Z := toInt32 (Z.land (toInt32 a) (toInt32 b)).

(** [a << n]: the shift count is taken modulo 32. *)
Definition shl (a n : Z) : Z :=
  toInt32 (Z.shiftl (toInt32 a) (Z.land n 31)).

(** [a >> n]: sign-propagating right shift. *)
Definition sar (a n : Z) : Z := Z.shiftr (toInt32 a) (Z.land n 31).

(** Truthiness of a number. *)
Definition truthy (a : Z) : bool := negb (a =? 0).

End JS.

(* ------------------------------------------------------------------ *)
(** ** Buffers *)

Abbreviation byte := Byte.byte.
Abbreviation Buffer := (list Byte.byte).

Definition Z_of_byte (b : byte) : Z := Z.of_N (Byte.to_N b).

(** The byte holding [z mod 256]. *)
Definition byte_of_Z (z : Z) : byte :=
  match Byte.of_N (Z.to_N (z mod 256)) with
  | Some b => b
  | None => Byte.x00
  end.

(** [Buffer.alloc(n)]: [n] zero bytes. *)
Definition Buffer_alloc (n : nat) : Buffer := replicate n Byte.x00.

(** [buf.readInt16LE(off)]; a read past the end throws. *)
Definition readInt16LE (buf : Buffer) (off : nat) : option Z :=
  lo ← buf !! off;
  hi ← buf !! S off;
  Some (JS.toInt16 (Z_of_byte lo + 256 * Z_of_byte hi)).

(** [buf.writeInt16LE(v, off)]; a value outside the 16-bit signed range
    or a write past the end throws. *)
Definition writeInt16LE (buf : Buffer) (v : Z) (off : nat) : option Buffer :=
  if negb ((-32768 <=? v) && (v <=? 32767)) then None
  else if negb (S (S off) <=? length buf)%nat then None
  else Some (<[S off := byte_of_Z (v / 256)]> (<[off := byte_of_Z v]> buf)).

(** The bytes of an [Int16Array] seen through its underlying
    [ArrayBuffer] (little-endian host). *)
Definition int16_bytes (samples : list Z) : Buffer :=
  flat_map (fun s => [byte_of_Z s; byte_of_Z (s / 256)]) samples.

(** The 16-bit little-endian samples of a buffer, in order; a trailing
    odd byte is not a sample. *)
Fixpoint pcm_samples (buf : Buffer) : list Z :=
  match buf with
  | lo :: hi :: rest =>
      JS.toInt16 (Z_of_byte lo + 256 * Z_of_byte hi) :: pcm_samples rest
  | _ => []
  end.

(* ------------------------------------------------------------------ *)
(** ** Codec: mu-law to PCM16 and 8 kHz to 16 kHz *)

Module Codec.

(** [mulawToLinearSample] *)
Definition mulawToLinearSample (uVal : Z) : Z :=
  let uVal := JS.band (JS.bnot uVal) 255 in
  let sign := JS.band uVal 128 in
  let exponent := JS.band (JS.sar uVal 4) 7 in
  let mantissa := JS.band uVal 15 in
  let sample := JS.shl (JS.shl mantissa 3 + 132) exponent in
  let sample := sample - 132 in
  if JS.truthy sign then - sample else sample.

(** [decodeMulawToPcm16]: one [Int16Array] slot per input byte, then
    the array's bytes. *)
Definition decodeMulawToPcm16 (mulawBuf : Buffer) : Buffer :=
  let samples :=
    map (fun b => JS.toInt16 (mulawToLinearSample (Z_of_byte b))) mulawBuf in
  int16_bytes samples.

(** Body of the [for] loop of [upsample8kTo16k], run [n] more times
    from index [i]. *)
Fixpoint upsample_loop (n i : nat) (pcm8k out : Buffer) : option Buffer :=
  match n with
  | O => Some out
  | S n' =>
      sample ← readInt16LE pcm8k (2 * i);
      out1 ← writeInt16LE out sample (2 * (2 * i));
      out2 ← writeInt16LE out1 sample (2 * (2 * i + 1));
      upsample_loop n' (S i) pcm8k out2
  end.

(** [upsample8kTo16k].  [inputSamples = length / 2] is not rounded, so
    the loop runs while [2 * i < length]: that is [ceil (length / 2)]
    times.  The output buffer has [inputSamples * 2 * 2] bytes.  [None]
    is a thrown [RangeError]. *)
Definition upsample8kTo16k (pcm8k : Buffer) : option Buffer :=
  upsample_loop (Nat.div2 (S (length pcm8k))) 0 pcm8k
                (Buffer_alloc (2 * length pcm8k)).

(** The expansion as the specification words it: complement the byte,
    split it into a sign bit, a 3-bit exponent and a 4-bit mantissa,
    rebuild the magnitude and negate it when the sign bit is set. *)
Definition mulaw_expand_spec (u : Z) : Z :=
  let v := 255 - u in
  let sign := v / 128 in
  let exponent := (v / 16) mod 8 in
  let mantissa := v mod 16 in
  let magnitude := (mantissa * 8 + 132) * 2 ^ exponent - 132 in
  if sign =? 1 then - magnitude else magnitude.

(** Each sample twice, in order. *)
Definition duplicate_samples (ss : list Z) : list Z :=
  flat_map (fun s => [s; s]) ss.

End Codec.

(* ------------------------------------------------------------------ *)
(** ** JavaScript strings *)

(** A string is the sequence of its UTF-16 code units. *)
Abbreviation jsstring := (list N).

(** A literal of the source (ASCII text). *)
Definition lit (s : string) : jsstring :=
  map N_of_ascii (list_ascii_of_string s).

Module Str.

(** WhiteSpace and LineTerminator code points of ECMAScript, the
    characters [String.prototype.trim] removes. *)
Definition isWhiteSpace (c : N) : bool :=
  ((9 <=? c) && (c <=? 13) || (c =? 32) || (c =? 160) || (c =? 5760)
   || (8192 <=? c) && (c <=? 8202) || (c =? 8232) || (c =? 8233)
   || (c =? 8239) || (c =? 8287) || (c =? 12288) || (c =? 65279))%N.

Fixpoint trimStart (s : jsstring) : jsstring :=
  match s with
  | c :: s' => if isWhiteSpace c then trimStart s' else s
  | [] => []
  end.

Definition trimEnd (s : jsstring) : jsstring := rev (trimStart (rev s)).

(** [s.trim()] *)
Definition trim (s : jsstring) : jsstring := trimEnd (trimStart s).

(** Truthiness of a string: it is not empty. *)
Definition truthy (s : jsstring) : bool :=
  match s with [] => false | _ => true end.

(** Truthiness of [string | undefined]. *)
Definition otruthy (s : option jsstring) : bool :=
  match s with Some s => truthy s | None => false end.

(** [s || null] for [s : string | undefined]. *)
Definition or_null (s : option jsstring) : option jsstring :=
  if otruthy s then s else None.

(** [s === t] for a possibly absent [s] and a literal [t]. *)
Definition equals (s : option jsstring) (t : jsstring) : bool :=
  match s with Some s => bool_decide (s = t) | None => false end.

(** [url.replace(/\/$/, "")]: one trailing slash is removed. *)
Definition stripTrailingSlash (s : jsstring) : jsstring :=
  match rev s with
  | c :: r => if (c =? 47)%N then rev r else s
  | [] => s
  end.

End Str.

(* ------------------------------------------------------------------ *)
(** ** Configuration and process environment *)

(** Values fixed when the process starts.  The long prompt and directive
    literals of [server.ts] are not reproduced; they are fields here, as
    are the two directions of Node's base64 codec. *)
Record Config := {
  OPENAI_API_KEY : jsstring;
  OPENAI_VOICE_STYLE : jsstring;
  OPENAI_SUMMARY_MODEL : jsstring;
  SUMMARY_SYSTEM_PROMPT : jsstring;
  CALL_SYSTEM_PROMPT : jsstring;
  (* process.env *)
  SUPABASE_URL : option jsstring;
  SUPABASE_ANON_KEY : option jsstring;
  ATLAS_VOICE_INTERNAL_SECRET : option jsstring;
  VOICE_SERVER_WEBHOOK_SECRET : option jsstring;
  ATLAS_DEFAULT_ORG_ID : option jsstring;
  (* literals *)
  builtinCallPrompt : jsstring;
  builtinSummaryPrompt : jsstring;
  followupHead : jsstring;
  followupMiddle : jsstring;
  followupTail : jsstring;
  firstCallNote : jsstring;
  inboundFollowupIntro : jsstring;
  inboundFirstIntro : jsstring;
  outboundFollowupIntro : jsstring;
  outboundFirstIntro : jsstring;
  (* Buffer.from(s, "base64") and buf.toString("base64") *)
  base64Decode : jsstring -> Buffer;
  base64Encode : Buffer -> jsstring
}.

(* ------------------------------------------------------------------ *)
(** ** voiceBridgeCallLogger.ts *)

Inductive CallDirection := INBOUND | OUTBOUND.

Module CallLogger.

Record CallLogPayload := {
  callSid : option jsstring;
  orgId : option jsstring;
  prospectId : option jsstring;
  status : option jsstring;
  direction : option CallDirection;
  toNumber : option jsstring;
  fromNumber : option jsstring;
  transcript : option jsstring;
  aiSummary : option jsstring;
  startedAt : option jsstring;
  endedAt : option jsstring;
  modelUsed : option jsstring;
  recordingUrl : option jsstring;
  recordingDurationSeconds : option Z
}.

(** The JSON body of the POST; [None] is an explicit [null]. *)
Record Body := {
  twilio_call_sid : jsstring;
  org_id : option jsstring;
  prospect_id : option jsstring;
  status_ : jsstring;
  direction_ : CallDirection;
  to_number : option jsstring;
  from_number : option jsstring;
  transcript_ : option jsstring;
  ai_summary : option jsstring;
  started_at : option jsstring;
  ended_at : option jsstring;
  model : option jsstring;
  recording_url : option jsstring;
  recording_duration_seconds : option Z
}.

Record Request := {
  url : jsstring;
  authorization : jsstring;
  x_atlas_voice_secret : jsstring;
  body : Body
}.

Section WithConfig.
Variable cfg : Config.

(** [getSalesCallLogUrl]; [None] is the thrown [Error]. *)
Definition getSalesCallLogUrl : option jsstring :=
  match SUPABASE_URL cfg with
  | Some supabaseUrl =>
      if Str.truthy supabaseUrl
      then Some (Str.stripTrailingSlash supabaseUrl
                   ++ lit "/functions/v1/sales-call-log")
      else None
  | None => None
  end.

(** [getSupabaseAnonKey] *)
Definition getSupabaseAnonKey : option jsstring :=
  match SUPABASE_ANON_KEY cfg with
  | Some key => if Str.truthy key then Some key else None
  | None => None
  end.

(** [getInternalSecret]: [a ?? b ?? ""] falls through on an unset
    variable only, not on an empty one. *)
Definition getInternalSecret : option jsstring :=
  let secret :=
    match ATLAS_VOICE_INTERNAL_SECRET cfg with
    | Some a => a
    | None =>
        match VOICE_SERVER_WEBHOOK_SECRET cfg with
        | Some b => b
        | None => []
        end
    end in
  if Str.truthy secret then Some secret else None.

(** [logCallToSupabase] up to its [fetch]: the request it issues, or
    [None] when it throws before issuing one.  What follows the
    [fetch] only writes to the console and never throws. *)
Definition logCallToSupabase (payload : CallLogPayload) : option Request :=
  match callSid payload with
  | None => None
  | Some sid =>
      if negb (Str.truthy sid) then None else
      url ← getSalesCallLogUrl;
      anonKey ← getSupabaseAnonKey;
      secret ← getInternalSecret;
      Some {| url := url;
              authorization := lit "Bearer " ++ anonKey;
              x_atlas_voice_secret := secret;
              body := {|
                twilio_call_sid := sid;
                org_id := orgId payload;
                prospect_id := prospectId payload;
                status_ := default (lit "COMPLETED") (status payload);
                direction_ := default OUTBOUND (direction payload);
                to_number := toNumber payload;
                from_number := fromNumber payload;
                transcript_ := transcript payload;
                ai_summary := aiSummary payload;
                started_at := startedAt payload;
                ended_at := endedAt payload;
                model := modelUsed payload;
                recording_url := recordingUrl payload;
                recording_duration_seconds :=
                  recordingDurationSeconds payload |} |}
  end.

End WithConfig.

End CallLogger.

(* ------------------------------------------------------------------ *)
(** ** server.ts: session state, events and effects *)

Inductive CallType := FIRST | FOLLOWUP.

(** [readyState] of a [ws] socket. *)
Inductive ReadyState := CONNECTING | OPEN | CLOSING | CLOSED.

Global Instance ReadyState_eq_dec : EqDecision ReadyState.
Proof. solve_decision. Defined.

(** [TwilioStreamContext].  [openaiWs] is the index of the realtime
    socket in the world's socket table; the telephony socket is the one
    the session was created for, and its [readyState] is kept in the
    world. *)
Record TwilioStreamContext := {
  connectionId : jsstring;
  correlationId : option jsstring;
  streamSid : option jsstring;
  callSid : option jsstring;
  openaiWs : option nat;
  openaiReady : bool;
  transcript : jsstring;
  assistantBuffer : jsstring;
  humanSpeaking : bool;
  lastHumanSpeechAt : option Z;
  direction : CallDirection;
  callType : CallType;
  lastSummary : option jsstring;
  lastTranscript : option jsstring
}.

(** Messages the bridge sends on the realtime socket. *)
Inductive RealtimeOut :=
| SessionUpdate (instructions voice : jsstring)
| ResponseCreate (instructions : jsstring)
| InputAudioBufferAppend (audio : jsstring).

(** The message the bridge sends on the telephony socket:
    [{event: "media", streamSid, media: {payload}}]. *)
Record TwilioOut := { out_streamSid : jsstring; out_payload : jsstring }.

(** The chat-completion request of the summary. *)
Record SummaryRequest := {
  sr_api_key : jsstring;
  sr_model : jsstring;
  sr_system : jsstring;
  sr_user : jsstring
}.

(** What a handler does to the outside, in program order.  [Log] is a
    [logStructured] call, by event name; console output is left out. *)
Inductive Effect :=
| TwilioSend (m : TwilioOut)
| TwilioCloseCall
| OpenaiConnect (i : nat)
| OpenaiSend (i : nat) (m : RealtimeOut)
| OpenaiCloseCall (i : nat)
| Log (event : string)
| HttpSummary (r : SummaryRequest)
| HttpCallLog (r : CallLogger.Request).

(** A parsed telephony frame. *)
Record StartParams := {
  p_direction : option jsstring;
  p_call_type : option jsstring;
  p_last_summary : option jsstring;
  p_last_transcript : option jsstring
}.

Inductive TwilioMsg :=
| TwStart (streamSid callSid : option jsstring) (params : StartParams)
| TwMedia (payload : option jsstring) (now : Z)
| TwMark
| TwStop (nowIso : jsstring)
| TwUnknown
| TwMalformed.

(** A parsed realtime event. *)
Inductive RealtimeMsg :=
| SpeechStarted (now : Z)
| SpeechStopped
| AudioDelta (delta : option jsstring)
| OutputTextDelta (delta : option jsstring)
| ResponseCompleted
| InputTranscriptionCompleted (transcript : option jsstring)
| ErrorEvent
| OtherEvent
| RtMalformed.

(** How the summary request ended. *)
Inductive SummaryResult :=
| SummaryTransportError
| SummaryNotOk (status : Z) (body : option jsstring)
| SummaryBadJson
| SummaryContent (content : option jsstring).

(** A finalization suspended at an [await] on the network. *)
Inductive Pending :=
| AwaitSummary (trimmed : jsstring)
| AwaitCallLog
| Settled.

(** What the event loop delivers to the session.  [nowIso] and [now]
    are the clock readings the handler takes. *)
Inductive Event :=
| TwilioMessage (m : TwilioMsg)
| TwilioClosed
| TwilioErrored
| OpenaiOpen (i : nat)
| OpenaiMessage (i : nat) (m : RealtimeMsg)
| OpenaiClosed (i : nat)
| OpenaiErrored (i : nat)
| SummaryResponse (k : nat) (r : SummaryResult) (nowIso : jsstring)
| CallLogResponse (k : nat).

Record World := {
  ctx : TwilioStreamContext;
  twilioWs : ReadyState;
  sockets : list ReadyState;
  pending : list Pending;
  trace : list Effect
}.

Definition with_ctx (f : TwilioStreamContext -> TwilioStreamContext)
    (w : World) : World :=
  {| ctx := f (ctx w); twilioWs := twilioWs w; sockets := sockets w;
     pending := pending w; trace := trace w |}.

Definition emit (e : Effect) (w : World) : World :=
  {| ctx := ctx w; twilioWs := twilioWs w; sockets := sockets w;
     pending := pending w; trace := trace w ++ [e] |}.

Definition set_twilioWs (s : ReadyState) (w : World) : World :=
  {| ctx := ctx w; twilioWs := s; sockets := sockets w;
     pending := pending w; trace := trace w |}.

Definition set_sockets (l : list ReadyState) (w : World) : World :=
  {| ctx := ctx w; twilioWs := twilioWs w; sockets := l;
     pending := pending w; trace := trace w |}.

Definition set_pending (l : list Pending) (w : World) : World :=
  {| ctx := ctx w; twilioWs := twilioWs w; sockets := sockets w;
     pending := l; trace := trace w |}.

(** Field updates of the context. *)
Module Ctx.

Definition set_start (sSid cSid corr : option jsstring) (d : CallDirection)
    (t : CallType) (ls lt : option jsstring) (c : TwilioStreamContext) :=
  {| connectionId := connectionId c; correlationId := corr;
     streamSid := sSid; callSid := cSid;
     openaiWs := openaiWs c; openaiReady := openaiReady c;
     transcript := transcript c; assistantBuffer := assistantBuffer c;
     humanSpeaking := humanSpeaking c;
     lastHumanSpeechAt := lastHumanSpeechAt c;
     direction := d; callType := t;
     lastSummary := ls; lastTranscript := lt |}.

Definition set_openaiWs (o : option nat) (c : TwilioStreamContext) :=
  {| connectionId := connectionId c; correlationId := correlationId c;
     streamSid := streamSid c; callSid := callSid c;
     openaiWs := o; openaiReady := openaiReady c;
     transcript := transcript c; assistantBuffer := assistantBuffer c;
     humanSpeaking := humanSpeaking c;
     lastHumanSpeechAt := lastHumanSpeechAt c;
     direction := direction c; callType := callType c;
     lastSummary := lastSummary c; lastTranscript := lastTranscript c |}.

Definition set_openaiReady (b : bool) (c : TwilioStreamContext) :=
  {| connectionId := connectionId c; correlationId := correlationId c;
     streamSid := streamSid c; callSid := callSid c;
     openaiWs := openaiWs c; openaiReady := b;
     transcript := transcript c; assistantBuffer := assistantBuffer c;
     humanSpeaking := humanSpeaking c;
     lastHumanSpeechAt := lastHumanSpeechAt c;
     direction := direction c; callType := callType c;
     lastSummary := lastSummary c; lastTranscript := lastTranscript c |}.

Definition set_transcript (s : jsstring) (c : TwilioStreamContext) :=
  {| connectionId := connectionId c; correlationId := correlationId c;
     streamSid := streamSid c; callSid := callSid c;
     openaiWs := openaiWs c; openaiReady := openaiReady c;
     transcript := s; assistantBuffer := assistantBuffer c;
     humanSpeaking := humanSpeaking c;
     lastHumanSpeechAt := lastHumanSpeechAt c;
     direction := direction c; callType := callType c;
     lastSummary := lastSummary c; lastTranscript := lastTranscript c |}.

Definition set_assistantBuffer (s : jsstring) (c : TwilioStreamContext) :=
  {| connectionId := connectionId c; correlationId := correlationId c;
     streamSid := streamSid c; callSid := callSid c;
     openaiWs := openaiWs c; openaiReady := openaiReady c;
     transcript := transcript c; assistantBuffer := s;
     humanSpeaking := humanSpeaking c;
     lastHumanSpeechAt := lastHumanSpeechAt c;
     direction := direction c; callType := callType c;
     lastSummary := lastSummary c; lastTranscript := lastTranscript c |}.

Definition set_humanSpeaking (b : bool) (c : TwilioStreamContext) :=
  {| connectionId := connectionId c; correlationId := correlationId c;
     streamSid := streamSid c; callSid := callSid c;
     openaiWs := openaiWs c; openaiReady := openaiReady c;
     transcript := transcript c; assistantBuffer := assistantBuffer c;
     humanSpeaking := b;
     lastHumanSpeechAt := lastHumanSpeechAt c;
     direction := direction c; callType := callType c;
     lastSummary := lastSummary c; lastTranscript := lastTranscript c |}.

Definition set_lastHumanSpeechAt (t : option Z) (c : TwilioStreamContext) :=
  {| connectionId := connectionId c; correlationId := correlationId c;
     streamSid := streamSid c; callSid := callSid c;
     openaiWs := openaiWs c; openaiReady := openaiReady c;
     transcript := transcript c; assistantBuffer := assistantBuffer c;
     humanSpeaking := humanSpeaking c;
     lastHumanSpeechAt := t;
     direction := direction c; callType := callType c;
     lastSummary := lastSummary c; lastTranscript := lastTranscript c |}.

End Ctx.

(** The [ws] package, as far as the bridge uses it: [send] transmits on
    an open socket, throws on a connecting one and transmits nothing on
    a closing or closed one; [close] on an open socket starts the
    closing handshake. *)
Module Ws.

Definition openai_send (i : nat) (m : RealtimeOut) (w : World)
    : option World :=
  match sockets w !! i with
  | Some OPEN => Some (emit (OpenaiSend i m) w)
  | Some CONNECTING => None
  | Some _ => Some w
  | None => None
  end.

Definition openai_close (i : nat) (w : World) : World :=
  emit (OpenaiCloseCall i) (set_sockets (<[i := CLOSING]> (sockets w)) w).

Definition twilio_send (m : TwilioOut) (w : World) : option World :=
  match twilioWs w with
  | OPEN => Some (emit (TwilioSend m) w)
  | CONNECTING => None
  | _ => Some w
  end.

Definition twilio_close (w : World) : World :=
  emit TwilioCloseCall (set_twilioWs CLOSING w).

(** [readyState] once the socket has emitted ['error']. *)
Definition errored (s : ReadyState) : ReadyState :=
  match s with
  | CLOSED => CLOSED
  | _ => CLOSING
  end.

End Ws.

Module Server.

Definition newline : jsstring := [10%N].

(** [ENERGY_THRESHOLD] *)
Definition ENERGY_THRESHOLD : Z := 500.

(** The summation loop of the energy estimate in [handleTwilioMedia],
    run [n] more times from index [i]. *)
Fixpoint energy_loop (n i : nat) (pcm8k : Buffer) (sumAbs : Z) : option Z :=
  match n with
  | O => Some sumAbs
  | S n' =>
      sample ← readInt16LE pcm8k (2 * i);
      energy_loop n' (S i) pcm8k (sumAbs + Z.abs sample)
  end.

(** [avgAbs > ENERGY_THRESHOLD] where [avgAbs] is [sumAbs / sampleCount]
    for [sampleCount = length / 2 > 0], and [0] otherwise. *)
Definition loud (pcm8k : Buffer) (sumAbs : Z) : bool :=
  (0 <? Z.of_nat (length pcm8k))
  && (ENERGY_THRESHOLD * Z.of_nat (length pcm8k) <? 2 * sumAbs).

(** The update of the turn-taking state in [handleTwilioMedia]. *)
Definition vad_update (isLoud : bool) (now : Z) (c : TwilioStreamContext)
    : TwilioStreamContext :=
  if isLoud then
    Ctx.set_lastHumanSpeechAt (Some now) (Ctx.set_humanSpeaking true c)
  else if humanSpeaking c
          && match lastHumanSpeechAt c with
             | Some t => 600 <? now - t
             | None => false
             end
  then Ctx.set_humanSpeaking false c
  else c.

(** [cleanup] *)
Definition cleanup (w : World) : World :=
  let w1 :=
    match openaiWs (ctx w) with
    | Some i =>
        if bool_decide (sockets w !! i = Some OPEN)
        then Ws.openai_close i w else w
    | None => w
    end in
  let w2 :=
    with_ctx (fun c => Ctx.set_openaiReady false (Ctx.set_openaiWs None c))
             w1 in
  if bool_decide (twilioWs w2 = OPEN) then Ws.twilio_close w2 else w2.

(** The outcome of [generateSummaryFromTranscript] once its request has
    ended: the event it logs and the summary it returns. *)
Definition summary_of_result (r : SummaryResult) : string * option jsstring :=
  match r with
  | SummaryTransportError => ("summary_unexpected_error"%string, None)
  | SummaryNotOk _ (Some _) => ("summary_response_error"%string, None)
  | SummaryNotOk _ None => ("summary_unexpected_error"%string, None)
  | SummaryBadJson => ("summary_unexpected_error"%string, None)
  | SummaryContent content =>
      match content with
      | Some c =>
          if Str.truthy c && Str.truthy (Str.trim c)
          then ("summary_response_ok"%string, Some (Str.trim c))
          else ("summary_empty_content"%string, None)
      | None => ("summary_empty_content"%string, None)
      end
  end.

Section WithConfig.
Variable cfg : Config.

(** [handleTwilioStart] *)
Definition handleTwilioStart (sSid cSid : option jsstring)
    (params : StartParams) (w : World) : World :=
  let d :=
    if Str.equals (p_direction params) (lit "INBOUND")
    then INBOUND else OUTBOUND in
  let rawCallType :=
    match Str.or_null (p_call_type params) with
    | Some s => s
    | None => lit "FIRST"
    end in
  let t :=
    if bool_decide (rawCallType = lit "FOLLOWUP") then FOLLOWUP else FIRST in
  let corr :=
    match Str.or_null cSid with
    | Some s => s
    | None =>
        match Str.or_null sSid with
        | Some s => s
        | None => connectionId (ctx w)
        end
    end in
  let w :=
    with_ctx (Ctx.set_start (Str.or_null sSid) (Str.or_null cSid)
                (Some corr) d t
                (Str.or_null (p_last_summary params))
                (Str.or_null (p_last_transcript params))) w in
  let w := emit (Log "twilio_start_event") w in
  let w := emit (Log "openai_realtime_connecting") w in
  let i := length (sockets w) in
  let w := emit (OpenaiConnect i) (set_sockets (sockets w ++ [CONNECTING]) w) in
  with_ctx (Ctx.set_openaiWs (Some i)) w.

(** The instructions of the [session.update] message. *)
Definition fullInstructions (c : TwilioStreamContext) : jsstring :=
  let baseInstructions :=
    if Str.truthy (CALL_SYSTEM_PROMPT cfg)
       && (0 <? length (Str.trim (CALL_SYSTEM_PROMPT cfg)))%nat
    then CALL_SYSTEM_PROMPT cfg
    else Str.trim (builtinCallPrompt cfg) in
  let followupContext :=
    match callType c with
    | FOLLOWUP =>
        Str.trim
          (followupHead cfg
           ++ default (lit "(No prior AI summary was provided.)")
                      (lastSummary c)
           ++ followupMiddle cfg
           ++ default (lit "(No prior transcript snippet was provided.)")
                      (lastTranscript c)
           ++ followupTail cfg)
    | FIRST => Str.trim (firstCallNote cfg)
    end in
  Str.trim (Str.trim baseInstructions ++ newline ++ newline
            ++ followupContext).

(** The instructions of the initial [response.create] message. *)
Definition initialDirective (c : TwilioStreamContext) : jsstring :=
  let inboundIntro :=
    match callType c with
    | FOLLOWUP => inboundFollowupIntro cfg
    | FIRST => inboundFirstIntro cfg
    end in
  let outboundIntro :=
    match callType c with
    | FOLLOWUP => outboundFollowupIntro cfg
    | FIRST => outboundFirstIntro cfg
    end in
  match direction c with
  | INBOUND => inboundIntro
  | OUTBOUND => outboundIntro
  end.

(** The ['open'] listener of the realtime socket [i].  The listener
    has no handler for an exception of [send]; it stops there. *)
Definition onOpenaiOpen (i : nat) (w : World) : World :=
  let w := emit (Log "openai_realtime_connected") w in
  let w := with_ctx (Ctx.set_openaiReady true) w in
  match Ws.openai_send i
          (SessionUpdate (fullInstructions (ctx w)) (OPENAI_VOICE_STYLE cfg))
          w with
  | None => w
  | Some w =>
      let w := emit (Log "openai_session_update_sent") w in
      match Ws.openai_send i (ResponseCreate (initialDirective (ctx w))) w with
      | None => w
      | Some w => emit (Log "openai_initial_response_create_sent") w
      end
  end.

(** The ['message'] listener of a realtime socket. *)
Definition onOpenaiMessage (m : RealtimeMsg) (w : World) : World :=
  match m with
  | RtMalformed => emit (Log "openai_message_handler_error") w
  | SpeechStarted now =>
      let w :=
        with_ctx (fun c => Ctx.set_lastHumanSpeechAt (Some now)
                             (Ctx.set_humanSpeaking true c)) w in
      emit (Log "openai_vad_speech_started") w
  | SpeechStopped =>
      let w := with_ctx (Ctx.set_humanSpeaking false) w in
      emit (Log "openai_vad_speech_stopped") w
  | AudioDelta delta =>
      match delta with
      | None => w
      | Some deltaBase64 =>
          if negb (Str.truthy deltaBase64) then w
          else if humanSpeaking (ctx w) then
            emit (Log "bridge_dropped_outbound_audio_human_speaking") w
          else
            match streamSid (ctx w) with
            | Some sid =>
                if bool_decide (twilioWs w = OPEN) && Str.truthy sid then
                  match Ws.twilio_send
                          {| out_streamSid := sid;
                             out_payload := deltaBase64 |} w with
                  | Some w => emit (Log "bridge_outbound_audio_to_twilio") w
                  | None => emit (Log "openai_message_handler_error") w
                  end
                else w
            | None => w
            end
      end
  | OutputTextDelta delta =>
      match delta with
      | Some d =>
          if Str.truthy d
          then with_ctx (fun c => Ctx.set_assistantBuffer
                                    (assistantBuffer c ++ d) c) w
          else w
      | None => w
      end
  | ResponseCompleted =>
      let w :=
        if (0 <? length (Str.trim (assistantBuffer (ctx w))))%nat then
          with_ctx (fun c =>
            Ctx.set_assistantBuffer []
              (Ctx.set_transcript
                 (transcript c ++ newline ++ lit "Dipsy: "
                  ++ Str.trim (assistantBuffer c) ++ newline) c)) w
        else w in
      emit (Log "openai_response_completed") w
  | InputTranscriptionCompleted callerText =>
      match callerText with
      | Some t =>
          if Str.truthy t && (0 <? length (Str.trim t))%nat then
            let w :=
              with_ctx (fun c =>
                Ctx.set_transcript
                  (transcript c ++ newline ++ lit "Caller: "
                   ++ Str.trim t ++ newline) c) w in
            emit (Log "openai_caller_transcript") w
          else w
      | None => w
      end
  | ErrorEvent => emit (Log "openai_error_event") w
  | OtherEvent => w
  end.

(** The ['close'] listener of a realtime socket. *)
Definition onOpenaiClose (w : World) : World :=
  let w := emit (Log "openai_ws_closed") w in
  with_ctx (fun c => Ctx.set_openaiWs None (Ctx.set_openaiReady false c)) w.

(** The ['error'] listener of a realtime socket. *)
Definition onOpenaiError (w : World) : World :=
  let w := emit (Log "openai_ws_error") w in
  with_ctx (Ctx.set_openaiReady false) w.

(** The [catch] block of [handleTwilioMedia]. *)
Definition media_error (w : World) : World :=
  emit (Log "bridge_twilio_media_error") w.

(** [handleTwilioMedia] *)
Definition handleTwilioMedia (payload : option jsstring) (now : Z)
    (w : World) : World :=
  match payload with
  | None => w
  | Some payloadBase64 =>
      if negb (Str.truthy payloadBase64) then w else
      match openaiWs (ctx w) with
      | None => w
      | Some i =>
          if negb (openaiReady (ctx w)) then w else
          let mulawBuf := base64Decode cfg payloadBase64 in
          let pcm8k := Codec.decodeMulawToPcm16 mulawBuf in
          match energy_loop (Nat.div2 (S (length pcm8k))) 0 pcm8k 0 with
          | None => media_error w
          | Some sumAbs =>
              let w := with_ctx (vad_update (loud pcm8k sumAbs) now) w in
              match Codec.upsample8kTo16k pcm8k with
              | None => media_error w
              | Some pcm16k =>
                  let pcm16Base64 := base64Encode cfg pcm16k in
                  match Ws.openai_send i
                          (InputAudioBufferAppend pcm16Base64) w with
                  | Some w => w
                  | None => media_error w
                  end
              end
          end
      end
  end.

(** The request body of [generateSummaryFromTranscript]; the fixed
    [max_tokens] and [temperature] are left out. *)
Definition summaryRequest (transcript : jsstring) : SummaryRequest :=
  {| sr_api_key := OPENAI_API_KEY cfg;
     sr_model := OPENAI_SUMMARY_MODEL cfg;
     sr_system :=
       if Str.truthy (SUMMARY_SYSTEM_PROMPT cfg)
       then SUMMARY_SYSTEM_PROMPT cfg
       else Str.trim (builtinSummaryPrompt cfg);
     sr_user :=
       Str.trim
         (newline
          ++ lit "Here is the full call transcript between Dipsy (the AI agent) and the prospect:"
          ++ newline ++ newline ++ transcript ++ newline) |}.

(** An [async] function either returns within the current turn of
    the event loop or is suspended at an [await] on the network. *)
Inductive Progress :=
| Returned (w : World)
| Suspended (w : World).

Definition add_pending (p : Pending) (w : World) : World :=
  set_pending (pending w ++ [p]) w.

Definition settle (k : nat) (w : World) : World :=
  set_pending (<[k := Settled]> (pending w)) w.

(** The argument of [logCallToSupabase] in [saveTranscriptAndSummary];
    the context is read when the call is made. *)
Definition callLogPayload (trimmed : jsstring) (summary : option jsstring)
    (nowIso : jsstring) (c : TwilioStreamContext)
    : CallLogger.CallLogPayload :=
  {| CallLogger.callSid := callSid c;
     CallLogger.orgId := ATLAS_DEFAULT_ORG_ID cfg;
     CallLogger.prospectId := None;
     CallLogger.status := None;
     CallLogger.direction := Some (direction c);
     CallLogger.toNumber := None;
     CallLogger.fromNumber := None;
     CallLogger.transcript := Some trimmed;
     CallLogger.aiSummary := summary;
     CallLogger.startedAt := None;
     CallLogger.endedAt := Some nowIso;
     CallLogger.modelUsed := Some (OPENAI_SUMMARY_MODEL cfg);
     CallLogger.recordingUrl := None;
     CallLogger.recordingDurationSeconds := None |}.

(** [saveTranscriptAndSummary] from [await logCallToSupabase(...)] on.
    An exception of [logCallToSupabase] is caught by the enclosing
    [catch]. *)
Definition saveTail (trimmed : jsstring) (summary : option jsstring)
    (nowIso : jsstring) (w : World) : Progress :=
  match CallLogger.logCallToSupabase cfg
          (callLogPayload trimmed summary nowIso (ctx w)) with
  | Some req => Suspended (add_pending AwaitCallLog (emit (HttpCallLog req) w))
  | None => Returned (emit (Log "calllog_unexpected_error") w)
  end.

(** [generateSummaryFromTranscript] up to its [fetch]: the event it
    logs and the request it issues.  [summary_of_result] is the rest of
    it, from the answer on. *)
Definition generateSummaryFromTranscript (transcript : jsstring) (w : World)
    : World :=
  let w := emit (Log "summary_request_start") w in
  emit (HttpSummary (summaryRequest transcript)) w.

(** [saveTranscriptAndSummary] up to its first [await] on the
    network. *)
Definition saveTranscriptAndSummary (nowIso : jsstring) (w : World)
    : Progress :=
  let trimmed := Str.trim (transcript (ctx w)) in
  if negb (Str.otruthy (callSid (ctx w))) then
    Returned (emit (Log "calllog_missing_call_sid") w)
  else if negb (Str.truthy trimmed) then
    Returned (emit (Log "calllog_empty_transcript") w)
  else
    let w := emit (Log "calllog_prepare_transcript") w in
    if (40 <=? length trimmed)%nat then
      Suspended (add_pending (AwaitSummary trimmed)
                   (generateSummaryFromTranscript trimmed w))
    else
      let w := emit (Log "calllog_transcript_too_short_for_summary") w in
      saveTail trimmed None nowIso w.

(** What the ["stop"] case does once [saveTranscriptAndSummary] has
    returned: [cleanup]. *)
Definition thenCleanup (p : Progress) : World :=
  match p with
  | Returned w => cleanup w
  | Suspended w => w
  end.

(** The ["stop"] case of the telephony ['message'] listener. *)
Definition onTwilioStop (nowIso : jsstring) (w : World) : World :=
  let w := emit (Log "twilio_stop_event") w in
  thenCleanup (saveTranscriptAndSummary nowIso w).

(** A suspended finalization resumes when its summary request ends. *)
Definition resumeSummary (k : nat) (trimmed : jsstring)
    (r : SummaryResult) (nowIso : jsstring) (w : World) : World :=
  let w := settle k w in
  let w := emit (Log (fst (summary_of_result r))) w in
  thenCleanup (saveTail trimmed (snd (summary_of_result r)) nowIso w).

(** A suspended finalization resumes when its call-log request ends,
    whatever the answer. *)
Definition resumeCallLog (k : nat) (w : World) : World :=
  cleanup (settle k w).

(** The telephony ['message'] listener. *)
Definition onTwilioMessage (m : TwilioMsg) (w : World) : World :=
  match m with
  | TwStart sSid cSid params => handleTwilioStart sSid cSid params w
  | TwMedia payload now => handleTwilioMedia payload now w
  | TwMark => emit (Log "twilio_mark_event") w
  | TwStop nowIso => onTwilioStop nowIso w
  | TwUnknown => emit (Log "twilio_unknown_event") w
  | TwMalformed => emit (Log "twilio_message_handler_error") w
  end.

(** The telephony ['close'] listener. *)
Definition onTwilioClose (w : World) : World :=
  cleanup (emit (Log "twilio_ws_connection_closed") w).

(** The telephony ['error'] listener. *)
Definition onTwilioError (w : World) : World :=
  cleanup (emit (Log "twilio_ws_connection_error") w).

(** One turn of the event loop.  [None]: the event cannot occur in
    this world (a socket that was never created, a socket opening
    twice, an answer to a request that is not awaited). *)
Definition step (w : World) (e : Event) : option World :=
  match e with
  | TwilioMessage m => Some (onTwilioMessage m w)
  | TwilioClosed => Some (onTwilioClose (set_twilioWs CLOSED w))
  | TwilioErrored =>
      Some (onTwilioError (set_twilioWs (Ws.errored (twilioWs w)) w))
  | OpenaiOpen i =>
      match sockets w !! i with
      | Some CONNECTING =>
          Some (onOpenaiOpen i (set_sockets (<[i := OPEN]> (sockets w)) w))
      | _ => None
      end
  | OpenaiMessage i m =>
      match sockets w !! i with
      | Some _ => Some (onOpenaiMessage m w)
      | None => None
      end
  | OpenaiClosed i =>
      match sockets w !! i with
      | Some _ =>
          Some (onOpenaiClose (set_sockets (<[i := CLOSED]> (sockets w)) w))
      | None => None
      end
  | OpenaiErrored i =>
      match sockets w !! i with
      | Some s =>
          Some (onOpenaiError
                  (set_sockets (<[i := Ws.errored s]> (sockets w)) w))
      | None => None
      end
  | SummaryResponse k r nowIso =>
      match pending w !! k with
      | Some (AwaitSummary trimmed) => Some (resumeSummary k trimmed r nowIso w)
      | _ => None
      end
  | CallLogResponse k =>
      match pending w !! k with
      | Some AwaitCallLog => Some (resumeCallLog k w)
      | _ => None
      end
  end.

(** The session run over a sequence of events. *)
Fixpoint run (w : World) (evs : list Event) : option World :=
  match evs with
  | [] => Some w
  | e :: evs' =>
      match step w e with
      | Some w' => run w' evs'
      | None => None
      end
  end.

End WithConfig.

(** The session as the ['connection'] listener creates it. *)
Definition init (connId : jsstring) : World :=
  {| ctx := {| connectionId := connId; correlationId := None;
               streamSid := None; callSid := None;
               openaiWs := None; openaiReady := false;
               transcript := []; assistantBuffer := [];
               humanSpeaking := false; lastHumanSpeechAt := None;
               direction := OUTBOUND; callType := FIRST;
               lastSummary := None; lastTranscript := None |};
     twilioWs := OPEN; sockets := []; pending := [];
     trace := [Log "twilio_ws_connection_open"] |}.

End Server.

(* ------------------------------------------------------------------ *)
(** ** Vocabulary of the properties *)

(** The range of an [Int16Array] element. *)
Definition int16 (s : Z) : Prop := -32768 <= s <= 32767.

(** The samples [decodeMulawToPcm16] stores. *)
Definition decoded_samples (mulawBuf : Buffer) : list Z :=
  map (fun b => Codec.mulawToLinearSample (Z_of_byte b)) mulawBuf.

(** Number of effects of a trace that satisfy [p]. *)
Fixpoint count (p : Effect -> bool) (tr : list Effect) : nat :=
  match tr with
  | [] => 0
  | e :: tr' => (if p e then 1 else 0) + count p tr'
  end.

Definition is_log (name : string) (e : Effect) : bool :=
  match e with
  | Log n => String.eqb n name
  | _ => false
  end.

(** The first thing [saveTranscriptAndSummary] does, on each of its
    paths, is to log one of these three events. *)
Definition is_finalizer_entry (e : Effect) : bool :=
  is_log "calllog_missing_call_sid" e
  || is_log "calllog_empty_transcript" e
  || is_log "calllog_prepare_transcript" e.

Definition is_summary_request (e : Effect) : bool :=
  match e with HttpSummary _ => true | _ => false end.

Definition is_call_log_post (e : Effect) : bool :=
  match e with HttpCallLog _ => true | _ => false end.

Definition is_http (e : Effect) : bool :=
  is_summary_request e || is_call_log_post e.

Definition is_twilio_send (e : Effect) : bool :=
  match e with TwilioSend _ => true | _ => false end.

Definition is_stop (e : Event) : bool :=
  match e with TwilioMessage (TwStop _) => true | _ => false end.

(** Number of telephony [stop] events among [evs]. *)
Definition count_stops (evs : list Event) : nat :=
  length (List.filter is_stop evs).

Definition is_await_summary (p : Pending) : bool :=
  match p with AwaitSummary _ => true | _ => false end.

(** The messages sent on the realtime socket [i], oldest first. *)
Fixpoint sent_on (i : nat) (tr : list Effect) : list RealtimeOut :=
  match tr with
  | [] => []
  | OpenaiSend j m :: tr' =>
      if (j =? i)%nat then m :: sent_on i tr' else sent_on i tr'
  | _ :: tr' => sent_on i tr'
  end.

Definition is_append (m : RealtimeOut) : bool :=
  match m with InputAudioBufferAppend _ => true | _ => false end.

(** A realtime socket's traffic is in order: nothing yet, or the session
    configuration first, the initial directive second and audio only
    after them. *)
Definition config_first (l : list RealtimeOut) : bool :=
  match l with
  | [] => true
  | SessionUpdate _ _ :: ResponseCreate _ :: rest => forallb is_append rest
  | _ => false
  end.

(** Both configuration messages have been sent, and audio only since. *)
Definition configured (l : list RealtimeOut) : bool :=
  match l with
  | SessionUpdate _ _ :: ResponseCreate _ :: rest => forallb is_append rest
  | _ => false
  end.

(** Transcript segments and their serialization. *)
Inductive Speaker := Caller | Agent.

Definition speaker_label (s : Speaker) : jsstring :=
  match s with
  | Caller => lit "Caller: "
  | Agent => lit "Dipsy: "
  end.

Definition render_segment (seg : Speaker * jsstring) : jsstring :=
  Server.newline ++ speaker_label (fst seg) ++ snd seg ++ Server.newline.

Definition render (segs : list (Speaker * jsstring)) : jsstring :=
  concat (map render_segment segs).

(** A configuration for the examples: short stand-ins for the prompt
    texts, and a stand-in codec that takes one code unit for one byte. *)
Definition sample_cfg : Config :=
  {| OPENAI_API_KEY := lit "sk-test";
     OPENAI_VOICE_STYLE := lit "shimmer";
     OPENAI_SUMMARY_MODEL := lit "gpt-4.1-mini";
     SUMMARY_SYSTEM_PROMPT := lit "Summarize the call.";
     CALL_SYSTEM_PROMPT := lit "You are Dipsy.";
     SUPABASE_URL := Some (lit "https://example.supabase.co/");
     SUPABASE_ANON_KEY := Some (lit "anon");
     ATLAS_VOICE_INTERNAL_SECRET := Some (lit "secret");
     VOICE_SERVER_WEBHOOK_SECRET := None;
     ATLAS_DEFAULT_ORG_ID := None;
     builtinCallPrompt := lit "You are Dipsy (built in).";
     builtinSummaryPrompt := lit "You summarize a sales call.";
     followupHead := lit "Follow-up. Summary: ";
     followupMiddle := lit " Transcript: ";
     followupTail := lit " Use this context.";
     firstCallNote := lit "No previous memory.";
     inboundFollowupIntro := lit "inbound follow-up";
     inboundFirstIntro := lit "inbound first";
     outboundFollowupIntro := lit "outbound follow-up";
     outboundFirstIntro := lit "outbound first";
     base64Decode := map (fun c => byte_of_Z (Z.of_N c));
     base64Encode := map (fun b => Byte.to_N b) |}.

Definition sample_params : StartParams :=
  {| p_direction := Some (lit "OUTBOUND"); p_call_type := Some (lit "FIRST");
     p_last_summary := None; p_last_transcript := None |}.

(** A [start] frame with both identifiers. *)
Definition sample_start : Event :=
  TwilioMessage (TwStart (Some (lit "MZ1")) (Some (lit "CA1")) sample_params).

(** A caller line long enough for a summary. *)
Definition sample_caller_line : Event :=
  OpenaiMessage 0
    (InputTranscriptionCompleted
       (Some (lit "hello, I would like to hear more about Atlas Command"))).

(** The summary request ended without a usable summary: transport
    error, non-2xx answer, unreadable body, or absent or blank content. *)
Definition summary_failed (r : SummaryResult) : bool :=
  match r with
  | SummaryContent (Some c) => negb (Str.truthy (Str.trim c))
  | _ => true
  end.

(** A session that has seen [start], the realtime socket opening and one
    long caller line. *)
Definition sample_session : World :=
  default (Server.init (lit "conn"))
    (Server.run sample_cfg (Server.init (lit "conn"))
       [sample_start; OpenaiOpen 0; sample_caller_line]).

(** A session whose transcript is too short for a summary. *)
Definition sample_short_session : World :=
  default (Server.init (lit "conn"))
    (Server.run sample_cfg (Server.init (lit "conn"))
       [sample_start; OpenaiOpen 0;
        OpenaiMessage 0 (InputTranscriptionCompleted (Some (lit "hi")))]).

(** Effects that are no part of a finalization: anything but the three
    entry events of the finalizer and the two HTTP requests. *)
Definition quiet (e : Effect) : bool :=
  negb (is_finalizer_entry e || is_http e).

(** Number of finalizations waiting for their summary. *)
Fixpoint awaiting (l : list Pending) : nat :=
  match l with
  | [] => 0
  | p :: l' => (if is_await_summary p then 1 else 0) + awaiting l'
  end.

(** The bookkeeping of finalizations after [n] stop events. *)
Definition fin_inv (n : nat) (w : World) : Prop :=
  count is_finalizer_entry (trace w) = n
  /\ (count is_call_log_post (trace w) + awaiting (pending w) <= n)%nat
  /\ (count is_summary_request (trace w) <= n)%nat.

(** A string that does not begin with white space. *)
Definition starts_clean (s : jsstring) : Prop :=
  match s with
  | c :: _ => Str.isWhiteSpace c = false
  | [] => True
  end.

(** The text of a transcript segment is not blank. *)
Definition segment_ok (seg : Speaker * jsstring) : Prop :=
  Str.trim (snd seg) <> [].

(** The transcript is a sequence of well-formed segments. *)
Definition transcript_inv (w : World) : Prop :=
  exists segs, transcript (ctx w) = render segs /\ Forall segment_ok segs.

(** What has been sent on the realtime socket [i], by its state: nothing
    while it is connecting; both configuration messages, then audio
    only, once it is open. *)
Definition socket_ok (tr : list Effect) (i : nat) (s : ReadyState) : Prop :=
  match s with
  | CONNECTING => sent_on i tr = []
  | OPEN => configured (sent_on i tr) = true
  | CLOSING | CLOSED => config_first (sent_on i tr) = true
  end.

Definition link_inv (w : World) : Prop :=
  (forall i s, sockets w !! i = Some s -> socket_ok (trace w) i s)
  /\ (forall i, (length (sockets w) <= i)%nat -> sent_on i (trace w) = []).

(** The socket table after a turn in which at most one socket started
    closing or closed. *)
Definition degrade (l l' : list ReadyState) : Prop :=
  l' = l
  \/ exists i s s',
       l !! i = Some s /\ l' = <[i := s']> l /\ (s' = CLOSING \/ s' = CLOSED).

(** The identifiers and call metadata of a session. *)
Definition metadata (c : TwilioStreamContext) :=
  (connectionId c, correlationId c, streamSid c, callSid c,
   direction c, callType c, lastSummary c, lastTranscript c).

(** The turn-taking state of a session. *)
Definition vad_state (c : TwilioStreamContext) :=
  (humanSpeaking c, lastHumanSpeechAt c).

Definition is_start (e : Event) : bool :=
  match e with TwilioMessage (TwStart _ _ _) => true | _ => false end.

(** Number of telephony [start] events among [evs]. *)
Definition count_starts (evs : list Event) : nat :=
  length (List.filter is_start evs).

Definition is_twilio_close (e : Effect) : bool :=
  match e with TwilioCloseCall => true | _ => false end.

Definition is_openai_close (i : nat) (e : Effect) : bool :=
  match e with OpenaiCloseCall j => (j =? i)%nat | _ => false end.

Definition is_close_call (e : Effect) : bool :=
  match e with TwilioCloseCall | OpenaiCloseCall _ => true | _ => false end.

(** The correlation id is unset before the first [start]; afterwards it
    is the call id when there is one, else the stream id when there is
    one, else the connection id.  Neither id is ever an empty string. *)
Definition correlation_ok (c : TwilioStreamContext) : Prop :=
  match correlationId c with
  | None => callSid c = None /\ streamSid c = None
  | Some corr =>
      match callSid c, streamSid c with
      | Some s, _ => corr = s
      | None, Some s => corr = s
      | None, None => corr = connectionId c
      end
  end
  /\ callSid c <> Some [] /\ streamSid c <> Some [].

(** Whoever is marked as speaking has a time of last speech. *)
Definition vad_ok (c : TwilioStreamContext) : Prop :=
  humanSpeaking c = true -> lastHumanSpeechAt c <> None.

(** Sum of the absolute values of samples. *)
Definition sum_abs (ss : list Z) : Z :=
  fold_right (fun s acc => Z.abs s + acc) 0 ss.

(** [needle] occurs in [hay]. *)
Definition contains (needle hay : jsstring) : Prop :=
  exists a b, hay = a ++ needle ++ b.

(** A string that does not end with white space. *)
Definition ends_clean (s : jsstring) : Prop := starts_clean (rev s).

(** [close] has been called on a socket at most once, and not at all
    while it was connecting or is still open. *)
Definition close_ok (n : nat) (s : ReadyState) : Prop :=
  match s with
  | CONNECTING | OPEN => n = 0%nat
  | CLOSING | CLOSED => (n <= 1)%nat
  end.

Definition close_inv (w : World) : Prop :=
  close_ok (count is_twilio_close (trace w)) (twilioWs w)
  /\ (forall i s, sockets w !! i = Some s ->
                  close_ok (count (is_openai_close i) (trace w)) s)
  /\ (forall i, (length (sockets w) <= i)%nat ->
                count (is_openai_close i) (trace w) = 0%nat).


(** Traffic towards either peer: a message sent on a socket, or a new
    realtime connection. *)
Definition is_traffic (e : Effect) : bool :=
  match e with
  | TwilioSend _ | OpenaiSend _ _ | OpenaiConnect _ => true
  | _ => false
  end.

(** A session that has not seen a [start] frame yet. *)
Definition idle (w : World) : Prop :=
  sockets w = [] /\ openaiWs (ctx w) = None /\ streamSid (ctx w) = None
  /\ count is_traffic (trace w) = 0%nat.





(* ================================================================== *)
(** * Properties *)

(* ------------------------------------------------------------------ *)
(** ** Bytes and 16-bit samples *)

Lemma Z_of_byte_range (b : byte) : 0 <= Z_of_byte b < 256.
Proof.
  unfold Z_of_byte. pose proof (Byte.to_N_bounded b) as H. lia.
Qed.

Lemma Z_of_byte_of_Z (z : Z) : Z_of_byte (byte_of_Z z) = z mod 256.
Proof.
  unfold byte_of_Z, Z_of_byte.
  assert (Hr : 0 <= z mod 256 < 256) by (apply Z.mod_pos_bound; lia).
  destruct (Byte.of_N (Z.to_N (z mod 256))) as [b|] eqn:E.
  - apply Byte.to_of_N in E. rewrite E. lia.
  - apply Byte.of_N_None_iff in E. lia.
Qed.

Lemma toInt16_id (s : Z) : int16 s -> JS.toInt16 s = s.
Proof.
  unfold int16, JS.toInt16. intros H.
  rewrite Z.mod_small by lia. lia.
Qed.

Lemma toInt16_range (z : Z) : int16 (JS.toInt16 z).
Proof.
  unfold int16, JS.toInt16.
  pose proof (Z.mod_pos_bound (z + 2 ^ 15) (2 ^ 16) ltac:(lia)). lia.
Qed.

(** Two bytes written little-endian read back as the sample. *)
Lemma int16_le_roundtrip (s : Z) :
  int16 s ->
  JS.toInt16 (Z_of_byte (byte_of_Z s) + 256 * Z_of_byte (byte_of_Z (s / 256)))
  = s.
Proof.
  intros H. rewrite !Z_of_byte_of_Z.
  unfold int16 in H. unfold JS.toInt16.
  pose proof (Z.div_mod s 256 ltac:(lia)) as Hs.
  pose proof (Z.mod_pos_bound s 256 ltac:(lia)) as Hlo.
  pose proof (Z.div_mod (s / 256) 256 ltac:(lia)) as Hh.
  pose proof (Z.mod_pos_bound (s / 256) 256 ltac:(lia)) as Hhi.
  assert (Hq : -128 <= s / 256 <= 127) by lia.
  assert (Hc : s / 256 / 256 = 0 \/ s / 256 / 256 = -1) by lia.
  destruct Hc as [Hc | Hc]; rewrite Hc in Hh.
  - replace (s mod 256 + 256 * ((s / 256) mod 256) + 2 ^ 15)
      with (s + 2 ^ 15) by lia.
    rewrite Z.mod_small by lia. lia.
  - replace (s mod 256 + 256 * ((s / 256) mod 256) + 2 ^ 15)
      with (s + 2 ^ 15 + 1 * 2 ^ 16) by lia.
    rewrite Z.mod_add by lia. rewrite Z.mod_small by lia. lia.
Qed.

Lemma length_int16_bytes (ss : list Z) :
  length (int16_bytes ss) = (2 * length ss)%nat.
Proof.
  unfold int16_bytes. induction ss as [|s ss IH]; simpl in *; [reflexivity|].
  rewrite IH. lia.
Qed.

Lemma int16_bytes_app (xs ys : list Z) :
  int16_bytes (xs ++ ys) = int16_bytes xs ++ int16_bytes ys.
Proof. unfold int16_bytes. apply flat_map_app. Qed.

Lemma pcm_samples_int16_bytes (ss : list Z) :
  Forall int16 ss -> pcm_samples (int16_bytes ss) = ss.
Proof.
  induction 1 as [|s ss Hs _ IH]; [reflexivity|].
  cbn [int16_bytes flat_map app pcm_samples].
  fold (int16_bytes ss). rewrite IH, int16_le_roundtrip by assumption.
  reflexivity.
Qed.

Lemma readInt16LE_int16_bytes (pre : list Z) (s : Z) (post : list Z) :
  int16 s ->
  readInt16LE (int16_bytes (pre ++ s :: post)) (2 * length pre) = Some s.
Proof.
  intros Hs. unfold readInt16LE.
  rewrite int16_bytes_app.
  assert (Hl : (2 * length pre)%nat = length (int16_bytes pre))
    by (rewrite length_int16_bytes; reflexivity).
  rewrite Hl.
  replace (S (length (int16_bytes pre)))
    with (length (int16_bytes pre) + 1)%nat by lia.
  rewrite (lookup_app_r _ _ (length (int16_bytes pre))) by lia.
  rewrite (lookup_app_r _ _ (length (int16_bytes pre) + 1)) by lia.
  replace (length (int16_bytes pre) - length (int16_bytes pre))%nat
    with 0%nat by lia.
  replace (length (int16_bytes pre) + 1 - length (int16_bytes pre))%nat
    with 1%nat by lia.
  cbn. rewrite int16_le_roundtrip by assumption. reflexivity.
Qed.

(** Writing a sample over two bytes that follow a prefix. *)
Lemma writeInt16LE_after (pre : Buffer) (b0 b1 : byte) (post : Buffer) (s : Z) :
  int16 s ->
  writeInt16LE (pre ++ b0 :: b1 :: post) s (length pre)
  = Some (pre ++ int16_bytes [s] ++ post).
Proof.
  intros Hs. unfold writeInt16LE, int16 in *.
  replace ((-32768 <=? s) && (s <=? 32767)) with true
    by (symmetry; apply andb_true_iff; split; apply Z.leb_le; lia).
  replace (S (S (length pre)) <=? length (pre ++ b0 :: b1 :: post))%nat
    with true
    by (symmetry; apply Nat.leb_le; rewrite length_app; simpl; lia).
  cbn [negb]. f_equal.
  replace (length pre) with (length pre + 0)%nat at 2 by lia.
  rewrite insert_app_r. cbn [list_insert insert].
  replace (S (length pre)) with (length pre + 1)%nat by lia.
  rewrite insert_app_r. reflexivity.
Qed.

(* ------------------------------------------------------------------ *)
(** ** Codec *)

(** A property checked by evaluation on each of the 256 byte values
    holds of every byte value. *)
Lemma byte_values_ind (chk : Z -> bool) :
  forallb (fun n => chk (Z.of_nat n)) (seq 0 256) = true ->
  forall u, 0 <= u < 256 -> chk u = true.
Proof.
  intros Hall u Hu.
  rewrite forallb_forall in Hall.
  specialize (Hall (Z.to_nat u)).
  rewrite Z2Nat.id in Hall by lia.
  apply Hall. apply in_seq. lia.
Qed.

Lemma mulawToLinearSample_int16 (u : Z) :
  0 <= u < 256 -> int16 (Codec.mulawToLinearSample u).
Proof.
  intros Hu. unfold int16.
  pose proof (byte_values_ind
    (fun u => (-32768 <=? Codec.mulawToLinearSample u)
              && (Codec.mulawToLinearSample u <=? 32767))
    ltac:(vm_compute; reflexivity) u Hu) as H.
  cbv beta in H. apply andb_true_iff in H as [H1 H2].
  apply Z.leb_le in H1, H2. lia.
Qed.

Lemma duplicate_samples_app (xs ys : list Z) :
  Codec.duplicate_samples (xs ++ ys)
  = Codec.duplicate_samples xs ++ Codec.duplicate_samples ys.
Proof. unfold Codec.duplicate_samples. apply flat_map_app. Qed.

Lemma length_duplicate_samples (ss : list Z) :
  length (Codec.duplicate_samples ss) = (2 * length ss)%nat.
Proof.
  unfold Codec.duplicate_samples.
  induction ss as [|s ss IH]; simpl in *; [reflexivity | rewrite IH; lia].
Qed.

Lemma Forall_int16_duplicate (ss : list Z) :
  Forall int16 ss -> Forall int16 (Codec.duplicate_samples ss).
Proof.
  induction 1 as [|s ss Hs _ IH]; [constructor|].
  cbn. constructor; [assumption|]. constructor; assumption.
Qed.

(** The loop of [upsample8kTo16k] after [length pre] iterations: the
    output holds the samples seen so far, each twice, and zeros. *)
Lemma upsample_loop_spec (post pre : list Z) :
  Forall int16 (pre ++ post) ->
  Codec.upsample_loop (length post) (length pre)
    (int16_bytes (pre ++ post))
    (int16_bytes (Codec.duplicate_samples pre)
     ++ Buffer_alloc (4 * length post))
  = Some (int16_bytes (Codec.duplicate_samples (pre ++ post))).
Proof.
  revert pre. induction post as [|s post IH]; intros pre Hall.
  - cbn. rewrite !app_nil_r. reflexivity.
  - assert (Hs : int16 s).
    { apply Forall_app in Hall as [_ Hp]. apply Forall_cons in Hp as [Hs _].
      exact Hs. }
    cbn [Codec.upsample_loop length].
    rewrite readInt16LE_int16_bytes by exact Hs.
    cbn [mbind option_bind].
    set (P := int16_bytes (Codec.duplicate_samples pre)).
    assert (HP : length P = (2 * (2 * length pre))%nat).
    { unfold P. rewrite length_int16_bytes, length_duplicate_samples.
      reflexivity. }
    replace (4 * S (length post))%nat
      with (S (S (S (S (4 * length post))))) by lia.
    unfold Buffer_alloc. cbn [replicate]. fold (Buffer_alloc (4 * length post)).
    rewrite <- HP.
    rewrite (writeInt16LE_after P _ _ _ s Hs).
    cbn [mbind option_bind].
    replace (2 * (2 * length pre + 1))%nat
      with (length (P ++ int16_bytes [s])).
    2:{ rewrite length_app, HP. cbn. lia. }
    rewrite (app_assoc P (int16_bytes [s])).
    rewrite (writeInt16LE_after (P ++ int16_bytes [s]) _ _ _ s Hs).
    cbn [mbind option_bind].
    specialize (IH (pre ++ [s])).
    assert (E1 : (pre ++ [s]) ++ post = pre ++ s :: post)
      by (rewrite <- app_assoc; reflexivity).
    assert (E2 : length (pre ++ [s]) = S (length pre))
      by (rewrite length_app; cbn; lia).
    assert (E3 : int16_bytes (Codec.duplicate_samples (pre ++ [s]))
                 = (P ++ int16_bytes [s]) ++ int16_bytes [s]).
    { rewrite duplicate_samples_app, int16_bytes_app. fold P.
      rewrite <- app_assoc. reflexivity. }
    rewrite E1, E2, E3 in IH.
    rewrite <- (app_assoc (P ++ int16_bytes [s])) in IH.
    apply IH. exact Hall.
Qed.

(** [upsample8kTo16k] on the bytes of a sample array. *)
Lemma upsample8kTo16k_int16_bytes (ss : list Z) :
  Forall int16 ss ->
  Codec.upsample8kTo16k (int16_bytes ss)
  = Some (int16_bytes (Codec.duplicate_samples ss)).
Proof.
  intros Hall. unfold Codec.upsample8kTo16k.
  rewrite length_int16_bytes.
  replace (Nat.div2 (S (2 * length ss))) with (length ss).
  2:{ symmetry. rewrite Nat.div2_succ_double. reflexivity. }
  replace (2 * (2 * length ss))%nat with (4 * length ss)%nat by lia.
  exact (upsample_loop_spec ss [] Hall).
Qed.

Lemma decoded_samples_int16 (mulawBuf : Buffer) :
  Forall int16 (decoded_samples mulawBuf).
Proof.
  unfold decoded_samples. apply Forall_map, Forall_forall. intros b _.
  apply mulawToLinearSample_int16, Z_of_byte_range.
Qed.

Lemma decodeMulawToPcm16_bytes (mulawBuf : Buffer) :
  Codec.decodeMulawToPcm16 mulawBuf = int16_bytes (decoded_samples mulawBuf).
Proof.
  unfold Codec.decodeMulawToPcm16, decoded_samples. f_equal.
  apply map_ext. intros b. apply toInt16_id.
  apply mulawToLinearSample_int16, Z_of_byte_range.
Qed.

(** The decode-then-upsample pipeline of a frame. *)
Lemma decode_upsample (mulawBuf : Buffer) :
  Codec.upsample8kTo16k (Codec.decodeMulawToPcm16 mulawBuf)
  = Some (int16_bytes (Codec.duplicate_samples (decoded_samples mulawBuf))).
Proof.
  rewrite decodeMulawToPcm16_bytes.
  apply upsample8kTo16k_int16_bytes, decoded_samples_int16.
Qed.

(* ------------------------------------------------------------------ *)
(** ** The upsampler on any buffer of whole samples *)

Lemma byte_of_Z_of_byte (b : byte) : byte_of_Z (Z_of_byte b) = b.
Proof.
  unfold byte_of_Z. pose proof (Z_of_byte_range b) as Hb.
  rewrite Z.mod_small by exact Hb.
  unfold Z_of_byte. rewrite N2Z.id, Byte.of_to_N. reflexivity.
Qed.

Lemma byte_of_Z_mod (z : Z) : byte_of_Z (z mod 256) = byte_of_Z z.
Proof. unfold byte_of_Z. rewrite Z.mod_mod by lia. reflexivity. Qed.

(** The two bytes of a sample that was read from two bytes. *)
Lemma int16_bytes_of_read (lo hi : byte) :
  int16_bytes [JS.toInt16 (Z_of_byte lo + 256 * Z_of_byte hi)] = [lo; hi].
Proof.
  pose proof (Z_of_byte_range lo) as Hlo.
  pose proof (Z_of_byte_range hi) as Hhi.
  set (x := Z_of_byte lo + 256 * Z_of_byte hi).
  assert (Hx : exists k, JS.toInt16 x = x + k * 65536 /\ (k = 0 \/ k = -1)).
  { unfold JS.toInt16. change (2 ^ 16) with 65536. change (2 ^ 15) with 32768.
    destruct (Z_lt_le_dec x 32768) as [Hlt | Hge].
    - exists 0. rewrite Z.mod_small by (unfold x in *; lia). lia.
    - exists (-1).
      replace (x + 32768) with (x - 32768 + 1 * 65536) by lia.
      rewrite Z.mod_add by lia.
      rewrite Z.mod_small by (unfold x in *; lia). lia. }
  destruct Hx as (k & Hk & Hk01). cbn [int16_bytes flat_map app].
  rewrite Hk. f_equal; [|f_equal].
  - rewrite <- byte_of_Z_mod.
    replace (x + k * 65536) with (Z_of_byte lo + (Z_of_byte hi + k * 256) * 256)
      by (unfold x; lia).
    rewrite Z.mod_add by lia. rewrite Z.mod_small by exact Hlo.
    apply byte_of_Z_of_byte.
  - rewrite <- byte_of_Z_mod.
    replace (x + k * 65536) with (Z_of_byte lo + (Z_of_byte hi + k * 256) * 256)
      by (unfold x; lia).
    rewrite Z.div_add by lia. rewrite Z.div_small by exact Hlo.
    rewrite Z.add_0_l. rewrite Z.mod_add by lia.
    rewrite Z.mod_small by exact Hhi.
    apply byte_of_Z_of_byte.
Qed.

Lemma pcm_samples_spec (n : nat) (buf : Buffer) :
  length buf = (2 * n)%nat ->
  int16_bytes (pcm_samples buf) = buf /\ Forall int16 (pcm_samples buf)
  /\ length (pcm_samples buf) = n.
Proof.
  revert buf. induction n as [|n IH]; intros buf Hlen.
  - destruct buf; [|discriminate Hlen]. cbn. auto.
  - destruct buf as [|lo [|hi rest]]; try (cbn in Hlen; lia).
    cbn [pcm_samples]. destruct (IH rest) as (Hb & Hf & Hl).
    { cbn in Hlen. lia. }
    split; [|split].
    + change (int16_bytes (?s :: ?ss)) with (int16_bytes [s] ++ int16_bytes ss).
      rewrite int16_bytes_of_read, Hb. reflexivity.
    + constructor; [apply toInt16_range | exact Hf].
    + cbn [length]. rewrite Hl. reflexivity.
Qed.

(** On a buffer of [n] whole samples [upsample8kTo16k] returns twice the
    bytes: each sample twice, in order. *)
Lemma upsample8kTo16k_even (n : nat) (pcm8k : Buffer) :
  length pcm8k = (2 * n)%nat ->
  exists out,
    Codec.upsample8kTo16k pcm8k = Some out
    /\ length out = (2 * length pcm8k)%nat
    /\ pcm_samples out = Codec.duplicate_samples (pcm_samples pcm8k).
Proof.
  intros Hlen. destruct (pcm_samples_spec n pcm8k Hlen) as (Hb & Hf & Hl).
  exists (int16_bytes (Codec.duplicate_samples (pcm_samples pcm8k))).
  split; [|split].
  - rewrite <- Hb at 1. apply upsample8kTo16k_int16_bytes, Hf.
  - rewrite length_int16_bytes, length_duplicate_samples, Hl, Hlen. lia.
  - apply pcm_samples_int16_bytes, Forall_int16_duplicate, Hf.
Qed.

(** C5.  For every input byte [u] the decoder computes the G.711
    expansion the specification describes: complement the byte, take the
    sign bit, the 3-bit exponent and the 4-bit mantissa, rebuild
    [((mantissa << 3) + 0x84) << exponent - 0x84] and negate it when the
    sign bit is set.  The boundary bytes [0xFF] and [0x7F] both decode to
    the linear sample [0]. *)
Theorem mulawToLinearSample_g711 (u : Z) :
  0 <= u < 256 ->
  Codec.mulawToLinearSample u = Codec.mulaw_expand_spec u
  /\ Codec.mulawToLinearSample 255 = 0
  /\ Codec.mulawToLinearSample 127 = 0.
Proof.
  intros Hu. split; [|split; reflexivity].
  apply Z.eqb_eq.
  exact (byte_values_ind
           (fun u => Codec.mulawToLinearSample u =? Codec.mulaw_expand_spec u)
           ltac:(vm_compute; reflexivity) u Hu).
Qed.

Lemma mulawToLinearSample_g711_witness :
  Codec.mulawToLinearSample 0 = Codec.mulaw_expand_spec 0
  /\ Codec.mulawToLinearSample 255 = 0
  /\ Codec.mulawToLinearSample 127 = 0.
Proof. apply (mulawToLinearSample_g711 0). lia. Defined.

Example mulaw_0x00 : Codec.mulawToLinearSample 0 = -32124.
Proof. reflexivity. Qed.

Example mulaw_0x80 : Codec.mulawToLinearSample 128 = 32124.
Proof. reflexivity. Qed.

Example upsample_odd_length_throws :
  Codec.upsample8kTo16k [Byte.x01; Byte.x02; Byte.x03] = None.
Proof. reflexivity. Qed.

(* ------------------------------------------------------------------ *)
(** ** Audio ingress *)

Lemma energy_loop_int16_bytes (post pre : list Z) (acc : Z) :
  Forall int16 (pre ++ post) ->
  exists sumAbs,
    Server.energy_loop (length post) (length pre)
      (int16_bytes (pre ++ post)) acc = Some sumAbs.
Proof.
  revert pre acc. induction post as [|s post IH]; intros pre acc Hall.
  - exists acc. reflexivity.
  - assert (Hs : int16 s).
    { apply Forall_app in Hall as [_ Hp]. apply Forall_cons in Hp as [Hs _].
      exact Hs. }
    cbn [Server.energy_loop length].
    rewrite readInt16LE_int16_bytes by exact Hs.
    cbn [mbind option_bind].
    assert (E1 : (pre ++ [s]) ++ post = pre ++ s :: post)
      by (rewrite <- app_assoc; reflexivity).
    assert (E2 : length (pre ++ [s]) = S (length pre))
      by (rewrite length_app; cbn; lia).
    specialize (IH (pre ++ [s]) (acc + Z.abs s)).
    rewrite E1, E2 in IH. apply IH. exact Hall.
Qed.

Lemma energy_of_decoded (mulawBuf : Buffer) :
  let pcm8k := Codec.decodeMulawToPcm16 mulawBuf in
  exists sumAbs,
    Server.energy_loop (Nat.div2 (S (length pcm8k))) 0 pcm8k 0 = Some sumAbs.
Proof.
  cbv zeta. rewrite decodeMulawToPcm16_bytes, length_int16_bytes.
  rewrite Nat.div2_succ_double.
  apply (energy_loop_int16_bytes (decoded_samples mulawBuf) [] 0).
  apply decoded_samples_int16.
Qed.

Lemma trace_emit (e : Effect) (w : World) : trace (emit e w) = trace w ++ [e].
Proof. reflexivity. Qed.

Lemma trace_with_ctx f (w : World) : trace (with_ctx f w) = trace w.
Proof. reflexivity. Qed.

(** What [handleTwilioMedia] adds to the trace: nothing, the error
    event, or the one [input_audio_buffer.append] with the base64 of the
    upsampled frame. *)
Lemma handleTwilioMedia_trace (cfg : Config) (payload : option jsstring)
    (now : Z) (w : World) :
  exists delta,
    trace (Server.handleTwilioMedia cfg payload now w) = trace w ++ delta
    /\ (delta = []
        \/ delta = [Log "bridge_twilio_media_error"]
        \/ exists i p,
             payload = Some p
             /\ openaiWs (ctx w) = Some i
             /\ openaiReady (ctx w) = true
             /\ sockets w !! i = Some OPEN
             /\ delta =
                [OpenaiSend i
                   (InputAudioBufferAppend
                      (base64Encode cfg
                         (int16_bytes
                            (Codec.duplicate_samples
                               (decoded_samples (base64Decode cfg p))))))]).
Proof.
  unfold Server.handleTwilioMedia.
  destruct payload as [p|]; [|exists []; rewrite app_nil_r; auto].
  destruct (Str.truthy p); cbn [negb]; [|exists []; rewrite app_nil_r; auto].
  destruct (openaiWs (ctx w)) as [i|] eqn:Ews;
    [|exists []; rewrite app_nil_r; auto].
  destruct (openaiReady (ctx w)) eqn:Erdy; cbn [negb];
    [|exists []; rewrite app_nil_r; auto].
  destruct (energy_of_decoded (base64Decode cfg p)) as [sumAbs Hen].
  cbv zeta in Hen. rewrite Hen. rewrite decode_upsample.
  unfold Ws.openai_send. cbn [sockets with_ctx].
  destruct (sockets w !! i) as [[| | |]|] eqn:Es.
  - exists [Log "bridge_twilio_media_error"]. split; [reflexivity|auto].
  - eexists. split; [reflexivity|]. right. right. exists i, p. auto.
  - exists []. rewrite app_nil_r. auto.
  - exists []. rewrite app_nil_r. auto.
  - exists [Log "bridge_twilio_media_error"]. split; [reflexivity|auto].
Qed.

(** C4.  For every media frame, the PCM produced by the mu-law decode
    followed by the 8 kHz to 16 kHz upsampling has exactly four times the
    bytes of the decoded mu-law input and holds each input sample exactly
    twice, in order; and whatever the media handler forwards to the
    realtime peer is the base64 of that PCM. *)
Theorem forwarded_frame_is_fourfold (cfg : Config) (payloadBase64 : jsstring)
    (now : Z) (w : World) :
  let mulawBuf := base64Decode cfg payloadBase64 in
  exists pcm16k delta,
    Codec.upsample8kTo16k (Codec.decodeMulawToPcm16 mulawBuf) = Some pcm16k
    /\ length pcm16k = (4 * length mulawBuf)%nat
    /\ pcm_samples pcm16k
       = Codec.duplicate_samples
           (pcm_samples (Codec.decodeMulawToPcm16 mulawBuf))
    /\ trace (Server.handleTwilioMedia cfg (Some payloadBase64) now w)
       = trace w ++ delta
    /\ forall i m,
         In (OpenaiSend i m) delta ->
         m = InputAudioBufferAppend (base64Encode cfg pcm16k).
Proof.
  cbv zeta.
  set (mulawBuf := base64Decode cfg payloadBase64).
  destruct (handleTwilioMedia_trace cfg (Some payloadBase64) now w)
    as (delta & Htr & Hd).
  exists (int16_bytes (Codec.duplicate_samples (decoded_samples mulawBuf))),
         delta.
  split; [apply decode_upsample|].
  split.
  { rewrite length_int16_bytes, length_duplicate_samples.
    unfold decoded_samples. rewrite length_map. lia. }
  split.
  { rewrite decodeMulawToPcm16_bytes.
    rewrite !pcm_samples_int16_bytes; [reflexivity| |].
    - apply decoded_samples_int16.
    - apply Forall_int16_duplicate, decoded_samples_int16. }
  split; [exact Htr|].
  intros i m Hin.
  destruct Hd as [-> | [-> | (j & p & Hp & _ & _ & _ & ->)]].
  - destruct Hin.
  - destruct Hin as [Hin | []]. discriminate Hin.
  - destruct Hin as [Hin | []]. injection Hp as <-.
    injection Hin as _ <-. reflexivity.
Qed.

(* ------------------------------------------------------------------ *)
(** ** Audio egress: the barge-in gate *)

Ltac nothing_sent :=
  exists []; rewrite app_nil_r;
  split; [reflexivity|]; split; [reflexivity|];
  split; [intros ? [] | intros _; reflexivity].

(** C10.  For every [response.audio.delta] event processed while
    [humanSpeaking] is false, a frame is sent to telephony only if the
    telephony socket is open and the stream id is set (and then it
    carries that stream id and the event's payload); when the payload is
    absent or empty, the socket is not open, or the stream id is not
    set, the handler returns the world it was given: nothing is sent,
    nothing is logged and the session state is unchanged. *)
Theorem audio_delta_guards (w : World) (delta : option jsstring) :
  humanSpeaking (ctx w) = false ->
  let w' := Server.onOpenaiMessage (AudioDelta delta) w in
  exists eff,
    trace w' = trace w ++ eff
    /\ ctx w' = ctx w
    /\ (forall m, In (TwilioSend m) eff ->
          twilioWs w = OPEN
          /\ streamSid (ctx w) = Some (out_streamSid m)
          /\ delta = Some (out_payload m))
    /\ (Str.otruthy delta = false
        \/ twilioWs w <> OPEN
        \/ Str.otruthy (streamSid (ctx w)) = false ->
        w' = w).
Proof.
  intros Hh. cbv zeta. unfold Server.onOpenaiMessage.
  destruct delta as [d|]; [|nothing_sent].
  destruct (Str.truthy d) eqn:Ed; cbn [negb]; [|nothing_sent].
  rewrite Hh.
  destruct (streamSid (ctx w)) as [sid|] eqn:Es; [|nothing_sent].
  destruct (bool_decide (twilioWs w = OPEN)) eqn:Eo; [|nothing_sent].
  apply bool_decide_eq_true in Eo.
  destruct (Str.truthy sid) eqn:Et; cbn [andb]; [|nothing_sent].
  unfold Ws.twilio_send. rewrite Eo.
  eexists. split; [cbn; rewrite <- app_assoc; reflexivity|].
  split; [reflexivity|]. split.
  - intros m [Hm | [Hm | []]]; [|discriminate Hm].
    injection Hm as <-. auto.
  - cbn [Str.otruthy]. rewrite Ed, Et. intros [H | [H | H]];
      [discriminate H | contradiction | discriminate H].
Qed.

Lemma audio_delta_guards_witness :
  exists eff,
    trace (Server.onOpenaiMessage (AudioDelta (Some (lit "AAAA")))
             (Server.init (lit "conn")))
    = trace (Server.init (lit "conn")) ++ eff
    /\ ctx (Server.onOpenaiMessage (AudioDelta (Some (lit "AAAA")))
              (Server.init (lit "conn")))
       = ctx (Server.init (lit "conn"))
    /\ (forall m, In (TwilioSend m) eff ->
          twilioWs (Server.init (lit "conn")) = OPEN
          /\ streamSid (ctx (Server.init (lit "conn"))) = Some (out_streamSid m)
          /\ Some (lit "AAAA") = Some (out_payload m))
    /\ (Str.otruthy (Some (lit "AAAA")) = false
        \/ twilioWs (Server.init (lit "conn")) <> OPEN
        \/ Str.otruthy (streamSid (ctx (Server.init (lit "conn")))) = false ->
        Server.onOpenaiMessage (AudioDelta (Some (lit "AAAA")))
          (Server.init (lit "conn"))
        = Server.init (lit "conn")).
Proof.
  apply (audio_delta_guards (Server.init (lit "conn")) (Some (lit "AAAA"))).
  reflexivity.
Defined.

(** C3, as the code has it.  While [humanSpeaking] is true a
    [response.audio.delta] event sends nothing to telephony, and logs the
    structured drop event when it carries a payload.  While
    [humanSpeaking] is false, a payload is forwarded unmodified, as one
    outbound media frame with the session's stream id, when the telephony
    socket is open and the stream id is set. *)
Theorem barge_in_gate (w : World) (delta : option jsstring) :
  let w' := Server.onOpenaiMessage (AudioDelta delta) w in
  (humanSpeaking (ctx w) = true ->
     count is_twilio_send (trace w') = count is_twilio_send (trace w)
     /\ (Str.otruthy delta = true ->
         w' = emit (Log "bridge_dropped_outbound_audio_human_speaking") w)
     /\ (Str.otruthy delta = false -> w' = w))
  /\ (humanSpeaking (ctx w) = false ->
      forall deltaBase64 sid,
        delta = Some deltaBase64 -> Str.truthy deltaBase64 = true ->
        twilioWs w = OPEN ->
        streamSid (ctx w) = Some sid -> Str.truthy sid = true ->
        w' = emit (Log "bridge_outbound_audio_to_twilio")
               (emit (TwilioSend {| out_streamSid := sid;
                                    out_payload := deltaBase64 |}) w)).
Proof.
  cbv zeta. unfold Server.onOpenaiMessage. split.
  - intros Hh. destruct delta as [d|]; cbn [Str.otruthy].
    + destruct (Str.truthy d); cbn [negb]; rewrite ?Hh.
      * split; [|split; [reflexivity | discriminate]].
        cbn [emit trace]. clear. induction (trace w) as [|e tr IH];
          [reflexivity | cbn; rewrite IH; reflexivity].
      * split; [reflexivity|]. split; [discriminate | reflexivity].
    + split; [reflexivity|]. split; [discriminate | reflexivity].
  - intros Hh d sid -> Hd Ho Hs Hsid.
    rewrite Hd, Hh, Hs, Hsid. cbn [negb].
    rewrite bool_decide_eq_true_2 by exact Ho. cbn [andb].
    unfold Ws.twilio_send. rewrite Ho. reflexivity.
Qed.

(** Two sessions on which the gate does less than "drop and log, else
    forward": a payload that arrives after the telephony socket has
    closed is not forwarded, and an event without a payload that arrives
    while the caller speaks is dropped without the drop event. *)
Lemma barge_in_gate_counterexample :
  ~ (forall (cfg : Config) (evs : list Event) (w : World)
            (deltaBase64 : jsstring),
       Server.run cfg (Server.init (lit "conn")) evs = Some w ->
       humanSpeaking (ctx w) = false ->
       Str.truthy deltaBase64 = true ->
       count is_twilio_send
         (trace (Server.onOpenaiMessage (AudioDelta (Some deltaBase64)) w))
       = S (count is_twilio_send (trace w)))
  /\ ~ (forall (cfg : Config) (evs : list Event) (w : World)
               (delta : option jsstring),
          Server.run cfg (Server.init (lit "conn")) evs = Some w ->
          humanSpeaking (ctx w) = true ->
          count (is_log "bridge_dropped_outbound_audio_human_speaking")
            (trace (Server.onOpenaiMessage (AudioDelta delta) w))
          = S (count (is_log "bridge_dropped_outbound_audio_human_speaking")
                 (trace w))).
Proof.
  split; intros H.
  - assert (Hrun : exists w,
      Server.run sample_cfg (Server.init (lit "conn"))
        [sample_start; OpenaiOpen 0; TwilioClosed] = Some w
      /\ humanSpeaking (ctx w) = false
      /\ count is_twilio_send
           (trace (Server.onOpenaiMessage (AudioDelta (Some (lit "AAAA"))) w))
         = 0%nat
      /\ count is_twilio_send (trace w) = 0%nat)
      by (vm_compute; eexists; repeat split; reflexivity).
    destruct Hrun as (w & Hrun & Hh & H1 & H0).
    specialize (H sample_cfg _ w (lit "AAAA") Hrun Hh eq_refl). lia.
  - assert (Hrun : exists w,
      Server.run sample_cfg (Server.init (lit "conn"))
        [sample_start; OpenaiOpen 0; OpenaiMessage 0 (SpeechStarted 0)]
      = Some w
      /\ humanSpeaking (ctx w) = true
      /\ count (is_log "bridge_dropped_outbound_audio_human_speaking")
           (trace (Server.onOpenaiMessage (AudioDelta None) w))
         = 0%nat
      /\ count (is_log "bridge_dropped_outbound_audio_human_speaking")
           (trace w) = 0%nat)
      by (vm_compute; eexists; repeat split; reflexivity).
    destruct Hrun as (w & Hrun & Hh & H1 & H0).
    specialize (H sample_cfg _ w None Hrun Hh). lia.
Qed.

Lemma barge_in_gate_witness :
  Server.onOpenaiMessage (AudioDelta (Some (lit "AAAA")))
    (with_ctx (Ctx.set_start (Some (lit "MZ1")) (Some (lit "CA1")) None
                 OUTBOUND FIRST None None)
       (Server.init (lit "conn")))
  = emit (Log "bridge_outbound_audio_to_twilio")
      (emit (TwilioSend {| out_streamSid := lit "MZ1";
                           out_payload := lit "AAAA" |})
         (with_ctx (Ctx.set_start (Some (lit "MZ1")) (Some (lit "CA1")) None
                      OUTBOUND FIRST None None)
            (Server.init (lit "conn")))).
Proof.
  apply (proj2 (barge_in_gate
                  (with_ctx (Ctx.set_start (Some (lit "MZ1"))
                               (Some (lit "CA1")) None OUTBOUND FIRST None None)
                     (Server.init (lit "conn")))
                  (Some (lit "AAAA")))
           eq_refl (lit "AAAA") (lit "MZ1") eq_refl eq_refl eq_refl eq_refl
           eq_refl).
Defined.

(* ------------------------------------------------------------------ *)
(** ** Counting effects, and what [cleanup] does *)

Lemma count_app (p : Effect -> bool) (a b : list Effect) :
  count p (a ++ b) = (count p a + count p b)%nat.
Proof.
  induction a as [|e a IH]; [reflexivity|]. cbn. rewrite IH. lia.
Qed.

Lemma count_emit (p : Effect -> bool) (e : Effect) (w : World) :
  count p (trace (emit e w))
  = (count p (trace w) + if p e then 1 else 0)%nat.
Proof. cbn. rewrite count_app. cbn. lia. Qed.

Lemma cleanup_pending (w : World) : pending (Server.cleanup w) = pending w.
Proof.
  unfold Server.cleanup, Ws.openai_close, Ws.twilio_close.
  repeat case_match; reflexivity.
Qed.

Lemma count_cleanup (p : Effect -> bool) (w : World) :
  p TwilioCloseCall = false ->
  (forall i, p (OpenaiCloseCall i) = false) ->
  count p (trace (Server.cleanup w)) = count p (trace w).
Proof.
  intros Ht Ho. unfold Server.cleanup, Ws.openai_close, Ws.twilio_close.
  repeat case_match; cbn; rewrite ?count_app; cbn; rewrite ?Ht, ?Ho; lia.
Qed.

Lemma cleanup_ctx (w : World) :
  ctx (Server.cleanup w)
  = Ctx.set_openaiReady false (Ctx.set_openaiWs None (ctx w)).
Proof.
  unfold Server.cleanup, Ws.openai_close, Ws.twilio_close.
  repeat case_match; reflexivity.
Qed.

Lemma cleanup_twilio_not_open (w : World) : twilioWs (Server.cleanup w) <> OPEN.
Proof.
  unfold Server.cleanup, Ws.openai_close, Ws.twilio_close.
  repeat case_match; cbn in *; try discriminate;
    match goal with
    | H : bool_decide _ = false |- _ => apply bool_decide_eq_false in H; exact H
    end.
Qed.






(* ------------------------------------------------------------------ *)
(** ** The finalizer *)

Lemma truthy_false_nil (s : jsstring) : Str.truthy s = false <-> s = [].
Proof. destruct s; cbn; split; congruence. Qed.

Lemma count_thenCleanup_saveTail (p : Effect -> bool) (cfg : Config)
    (t : jsstring) (s : option jsstring) (now : jsstring) (w : World) :
  p TwilioCloseCall = false ->
  (forall i, p (OpenaiCloseCall i) = false) ->
  (forall n, p (Log n) = false) ->
  (forall r, p (HttpCallLog r) = false) ->
  count p (trace (Server.thenCleanup (Server.saveTail cfg t s now w)))
  = count p (trace w).
Proof.
  intros Ht Ho Hl Hc. unfold Server.saveTail.
  destruct (CallLogger.logCallToSupabase cfg _) as [req|]; cbn [Server.thenCleanup].
  - cbn. rewrite count_app. cbn. rewrite Hc. lia.
  - rewrite count_cleanup by assumption. rewrite count_emit, Hl. lia.
Qed.




Lemma summary_failed_null (r : SummaryResult) :
  summary_failed r = true -> snd (Server.summary_of_result r) = None.
Proof.
  destruct r as [ | st [b|] | | [c|]]; cbn; try reflexivity.
  intros H. apply negb_true_iff in H. rewrite H, andb_false_r. reflexivity.
Qed.

(** C6.  During finalization (call id set, trimmed transcript not
    empty): below 40 characters no summary request is issued and the
    call-log step runs at once with a null summary; from 40 characters on
    the summary request is issued and the finalization waits for it; when
    that request fails in any way (transport error, non-2xx answer,
    unreadable body, absent or blank content) the finalization resumes
    with the same call-log step and a null summary; and that step, with a
    null summary, posts the call log with [ai_summary] null whenever the
    logger can build its request. *)
Theorem summary_threshold_and_failure (cfg : Config) (w : World)
    (nowIso : jsstring) :
  Str.otruthy (callSid (ctx w)) = true ->
  Str.trim (transcript (ctx w)) <> [] ->
  let trimmed := Str.trim (transcript (ctx w)) in
  let w0 := emit (Log "calllog_prepare_transcript")
              (emit (Log "twilio_stop_event") w) in
  ((length trimmed < 40)%nat ->
     Server.onTwilioStop cfg nowIso w
     = Server.thenCleanup
         (Server.saveTail cfg trimmed None nowIso
            (emit (Log "calllog_transcript_too_short_for_summary") w0))
     /\ count is_summary_request (trace (Server.onTwilioStop cfg nowIso w))
        = count is_summary_request (trace w))
  /\ ((40 <= length trimmed)%nat ->
      Server.onTwilioStop cfg nowIso w
      = Server.add_pending (AwaitSummary trimmed)
          (emit (HttpSummary (Server.summaryRequest cfg trimmed))
             (emit (Log "summary_request_start") w0)))
  /\ (forall (w2 : World) (k : nat) (t : jsstring) (r : SummaryResult)
             (now2 : jsstring),
        pending w2 !! k = Some (AwaitSummary t) ->
        summary_failed r = true ->
        Server.step cfg w2 (SummaryResponse k r now2)
        = Some (Server.thenCleanup
                  (Server.saveTail cfg t None now2
                     (emit (Log (fst (Server.summary_of_result r)))
                        (Server.settle k w2)))))
  /\ (forall (w2 : World) (t now2 : jsstring) (req : CallLogger.Request),
        CallLogger.logCallToSupabase cfg
          (Server.callLogPayload cfg t None now2 (ctx w2)) = Some req ->
        Server.saveTail cfg t None now2 w2
        = Server.Suspended
            (Server.add_pending AwaitCallLog (emit (HttpCallLog req) w2))
        /\ CallLogger.ai_summary (CallLogger.body req) = None
        /\ CallLogger.transcript_ (CallLogger.body req) = Some t).
Proof.
  intros Hsid Htr. cbv zeta.
  assert (Htruthy : Str.truthy (Str.trim (transcript (ctx w))) = true).
  { destruct (Str.truthy _) eqn:E; [reflexivity|].
    apply truthy_false_nil in E. contradiction. }
  assert (Hstop : forall b, (40 <=? length (Str.trim (transcript (ctx w))))%nat = b ->
    Server.onTwilioStop cfg nowIso w
    = if b then
        Server.add_pending (AwaitSummary (Str.trim (transcript (ctx w))))
          (emit (HttpSummary
                   (Server.summaryRequest cfg (Str.trim (transcript (ctx w)))))
             (emit (Log "summary_request_start")
                (emit (Log "calllog_prepare_transcript")
                   (emit (Log "twilio_stop_event") w))))
      else
        Server.thenCleanup
          (Server.saveTail cfg (Str.trim (transcript (ctx w))) None nowIso
             (emit (Log "calllog_transcript_too_short_for_summary")
                (emit (Log "calllog_prepare_transcript")
                   (emit (Log "twilio_stop_event") w))))).
  { intros b Hb. unfold Server.onTwilioStop, Server.saveTranscriptAndSummary,
      Server.generateSummaryFromTranscript.
    cbn [ctx emit]. rewrite Hsid, Htruthy. cbn [negb].
    rewrite Hb. destruct b; reflexivity. }
  split; [|split; [|split]].
  - intros Hlt. rewrite (Hstop false) by (apply Nat.leb_gt; exact Hlt).
    split; [reflexivity|].
    rewrite count_thenCleanup_saveTail by (intros; reflexivity).
    rewrite !count_emit. cbn. lia.
  - intros Hge. rewrite (Hstop true) by (apply Nat.leb_le; exact Hge).
    reflexivity.
  - intros w2 k t r now2 Hk Hr. cbn [Server.step]. rewrite Hk.
    unfold Server.resumeSummary. rewrite (summary_failed_null r Hr).
    reflexivity.
  - intros w2 t now2 req Hreq. unfold Server.saveTail. rewrite Hreq.
    split; [reflexivity|].
    unfold CallLogger.logCallToSupabase in Hreq.
    cbn [Server.callLogPayload CallLogger.callSid] in Hreq.
    destruct (callSid (ctx w2)) as [sid|]; [|discriminate Hreq].
    destruct (Str.truthy sid); cbn [negb] in Hreq; [|discriminate Hreq].
    destruct (CallLogger.getSalesCallLogUrl cfg); [|discriminate Hreq].
    destruct (CallLogger.getSupabaseAnonKey cfg); [|discriminate Hreq].
    destruct (CallLogger.getInternalSecret cfg); [|discriminate Hreq].
    cbn in Hreq. injection Hreq as <-. split; reflexivity.
Qed.

Lemma summary_threshold_and_failure_witness :
  Str.otruthy (callSid (ctx sample_session)) = true
  /\ (40 <= length (Str.trim (transcript (ctx sample_session))))%nat
  /\ Server.onTwilioStop sample_cfg (lit "2025-01-01T00:00:00.000Z")
       sample_session
     = Server.add_pending
         (AwaitSummary (Str.trim (transcript (ctx sample_session))))
         (emit (HttpSummary
                  (Server.summaryRequest sample_cfg
                     (Str.trim (transcript (ctx sample_session)))))
            (emit (Log "summary_request_start")
               (emit (Log "calllog_prepare_transcript")
                  (emit (Log "twilio_stop_event") sample_session)))).
Proof.
  split; [reflexivity|].
  assert (Hlen : (40 <= length (Str.trim (transcript (ctx sample_session))))%nat)
    by (vm_compute; lia).
  split; [exact Hlen|].
  apply (proj1 (proj2 (summary_threshold_and_failure sample_cfg sample_session
                         (lit "2025-01-01T00:00:00.000Z") eq_refl
                         ltac:(vm_compute; discriminate)))).
  exact Hlen.
Defined.

(* ------------------------------------------------------------------ *)
(** ** Handlers that take no part in a finalization *)

Section Quiet.
Variable p : Effect -> bool.
Hypothesis Hq : forall e, quiet e = true -> p e = false.

Ltac quiet_counts :=
  cbn [trace emit with_ctx set_sockets set_twilioWs set_pending];
  rewrite ?count_app; cbn [count];
  rewrite ?Hq by reflexivity; lia.

Lemma quiet_cleanup (w : World) :
  count p (trace (Server.cleanup w)) = count p (trace w).
Proof. apply count_cleanup; intros; apply Hq; reflexivity. Qed.

Lemma quiet_handleTwilioStart sSid cSid params (w : World) :
  count p (trace (Server.handleTwilioStart sSid cSid params w))
  = count p (trace w).
Proof. unfold Server.handleTwilioStart. quiet_counts. Qed.

Lemma quiet_handleTwilioMedia (cfg : Config) payload now (w : World) :
  count p (trace (Server.handleTwilioMedia cfg payload now w))
  = count p (trace w).
Proof.
  destruct (handleTwilioMedia_trace cfg payload now w)
    as (delta & -> & [-> | [-> | (i & q & _ & _ & _ & _ & ->)]]);
    rewrite count_app; cbn [count]; rewrite ?Hq by reflexivity; lia.
Qed.

Lemma quiet_onOpenaiOpen (cfg : Config) (i : nat) (w : World) :
  count p (trace (Server.onOpenaiOpen cfg i w)) = count p (trace w).
Proof.
  unfold Server.onOpenaiOpen, Ws.openai_send.
  repeat case_match; simplify_eq; quiet_counts.
Qed.

Lemma quiet_onOpenaiMessage (m : RealtimeMsg) (w : World) :
  count p (trace (Server.onOpenaiMessage m w)) = count p (trace w).
Proof.
  unfold Server.onOpenaiMessage, Ws.twilio_send.
  repeat case_match; simplify_eq; quiet_counts.
Qed.

Lemma quiet_onOpenaiClose (w : World) :
  count p (trace (Server.onOpenaiClose w)) = count p (trace w).
Proof. unfold Server.onOpenaiClose. quiet_counts. Qed.

Lemma quiet_onOpenaiError (w : World) :
  count p (trace (Server.onOpenaiError w)) = count p (trace w).
Proof. unfold Server.onOpenaiError. quiet_counts. Qed.

Lemma quiet_onTwilioClose (w : World) :
  count p (trace (Server.onTwilioClose w)) = count p (trace w).
Proof. unfold Server.onTwilioClose. rewrite quiet_cleanup. quiet_counts. Qed.

Lemma quiet_onTwilioError (w : World) :
  count p (trace (Server.onTwilioError w)) = count p (trace w).
Proof. unfold Server.onTwilioError. rewrite quiet_cleanup. quiet_counts. Qed.

End Quiet.

Lemma pending_handleTwilioMedia (cfg : Config) payload now (w : World) :
  pending (Server.handleTwilioMedia cfg payload now w) = pending w.
Proof.
  unfold Server.handleTwilioMedia, Server.media_error, Ws.openai_send.
  repeat case_match; simplify_eq; reflexivity.
Qed.

Lemma pending_onOpenaiOpen (cfg : Config) (i : nat) (w : World) :
  pending (Server.onOpenaiOpen cfg i w) = pending w.
Proof.
  unfold Server.onOpenaiOpen, Ws.openai_send.
  repeat case_match; simplify_eq; reflexivity.
Qed.

Lemma pending_onOpenaiMessage (m : RealtimeMsg) (w : World) :
  pending (Server.onOpenaiMessage m w) = pending w.
Proof.
  unfold Server.onOpenaiMessage, Ws.twilio_send.
  repeat case_match; simplify_eq; reflexivity.
Qed.

Lemma quiet_not_finalizer_entry e : quiet e = true -> is_finalizer_entry e = false.
Proof.
  unfold quiet. intros H. apply negb_true_iff, orb_false_iff in H. tauto.
Qed.

Lemma quiet_not_call_log_post e : quiet e = true -> is_call_log_post e = false.
Proof.
  unfold quiet, is_http. intros H.
  apply negb_true_iff, orb_false_iff in H as [_ H].
  apply orb_false_iff in H. tauto.
Qed.

Lemma quiet_not_summary_request e :
  quiet e = true -> is_summary_request e = false.
Proof.
  unfold quiet, is_http. intros H.
  apply negb_true_iff, orb_false_iff in H as [_ H].
  apply orb_false_iff in H. tauto.
Qed.

(* ------------------------------------------------------------------ *)
(** ** Finalizations and stop events *)

Lemma awaiting_app (l : list Pending) (p : Pending) :
  awaiting (l ++ [p])
  = (awaiting l + if is_await_summary p then 1 else 0)%nat.
Proof.
  induction l as [|q l IH]; cbn; [lia | rewrite IH; lia].
Qed.

Lemma awaiting_settle_summary (l : list Pending) (k : nat) (t : jsstring) :
  l !! k = Some (AwaitSummary t) ->
  awaiting l = S (awaiting (<[k := Settled]> l)).
Proof.
  revert k. induction l as [|q l IH]; intros [|k] H; try discriminate H.
  - cbn in H. injection H as ->. cbn. lia.
  - cbn in H. change (<[S k := Settled]> (q :: l)) with (q :: <[k := Settled]> l).
    cbn [awaiting]. rewrite (IH k H). lia.
Qed.

Lemma awaiting_settle_call_log (l : list Pending) (k : nat) :
  l !! k = Some AwaitCallLog ->
  awaiting (<[k := Settled]> l) = awaiting l.
Proof.
  revert k. induction l as [|q l IH]; intros [|k] H; try discriminate H.
  - cbn in H. injection H as ->. reflexivity.
  - cbn in H. change (<[S k := Settled]> (q :: l)) with (q :: <[k := Settled]> l).
    cbn [awaiting]. rewrite (IH k H). reflexivity.
Qed.

(** The call-log step issues at most one post and nothing else of a
    finalization. *)
Lemma saveTail_counts (cfg : Config) (t : jsstring) (s : option jsstring)
    (now : jsstring) (w : World) :
  let w' := Server.thenCleanup (Server.saveTail cfg t s now w) in
  count is_finalizer_entry (trace w') = count is_finalizer_entry (trace w)
  /\ count is_summary_request (trace w') = count is_summary_request (trace w)
  /\ (count is_call_log_post (trace w')
      <= count is_call_log_post (trace w) + 1)%nat
  /\ awaiting (pending w') = awaiting (pending w).
Proof.
  cbv zeta. unfold Server.saveTail.
  destruct (CallLogger.logCallToSupabase cfg _) as [req|];
    cbn [Server.thenCleanup].
  - cbn [Server.add_pending set_pending emit trace pending].
    rewrite !count_app, awaiting_app. cbn. lia.
  - rewrite !count_cleanup by (intros; reflexivity).
    rewrite cleanup_pending, !count_emit. cbn. lia.
Qed.

Lemma onTwilioStop_counts (cfg : Config) (now : jsstring) (w : World) :
  let w' := Server.onTwilioStop cfg now w in
  count is_finalizer_entry (trace w') = S (count is_finalizer_entry (trace w))
  /\ (count is_call_log_post (trace w') + awaiting (pending w')
      <= count is_call_log_post (trace w) + awaiting (pending w) + 1)%nat
  /\ (count is_summary_request (trace w')
      <= count is_summary_request (trace w) + 1)%nat.
Proof.
  cbv zeta. unfold Server.onTwilioStop, Server.saveTranscriptAndSummary,
    Server.generateSummaryFromTranscript.
  cbn [ctx emit].
  destruct (Str.otruthy (callSid (ctx w))); cbn [negb].
  2:{ cbn [Server.thenCleanup].
      rewrite !count_cleanup by (intros; reflexivity).
      rewrite cleanup_pending, !count_emit. cbn. lia. }
  destruct (Str.truthy (Str.trim (transcript (ctx w)))); cbn [negb].
  2:{ cbn [Server.thenCleanup].
      rewrite !count_cleanup by (intros; reflexivity).
      rewrite cleanup_pending, !count_emit. cbn. lia. }
  destruct (40 <=? length (Str.trim (transcript (ctx w))))%nat.
  - cbn [Server.thenCleanup Server.add_pending set_pending emit trace pending].
    rewrite !count_app, awaiting_app. cbn. lia.
  - match goal with
    | |- context [Server.saveTail cfg ?t ?s ?n ?w0] =>
        destruct (saveTail_counts cfg t s n w0) as (H1 & H2 & H3 & H4)
    end.
    cbv zeta in H1, H2, H3, H4. rewrite H1, H2, H4.
    cbn [emit trace pending] in *. rewrite !count_app in *. cbn in *. lia.
Qed.

Lemma summary_log_not_entry (r : SummaryResult) :
  is_finalizer_entry (Log (fst (Server.summary_of_result r))) = false.
Proof.
  destruct r as [ | st [b|] | | [c|]]; cbn; try reflexivity.
  destruct (Str.truthy c && Str.truthy (Str.trim c)); reflexivity.
Qed.

Lemma step_fin_inv (cfg : Config) (n : nat) (w w' : World) (e : Event) :
  fin_inv n w -> Server.step cfg w e = Some w' ->
  fin_inv (n + if is_stop e then 1 else 0) w'.
Proof.
  unfold fin_inv. intros (Hn & Hp & Hs) Hstep.
  assert (Hquiet : forall w1 : World,
            (forall p, (forall e, quiet e = true -> p e = false) ->
                       count p (trace w1) = count p (trace w)) ->
            pending w1 = pending w ->
            count is_finalizer_entry (trace w1) = (n + 0)%nat
            /\ (count is_call_log_post (trace w1) + awaiting (pending w1)
                <= n + 0)%nat
            /\ (count is_summary_request (trace w1) <= n + 0)%nat).
  { intros w1 Hc Hpend.
    rewrite (Hc _ quiet_not_finalizer_entry), (Hc _ quiet_not_call_log_post),
      (Hc _ quiet_not_summary_request), Hpend. lia. }
  destruct e as [m | | | i | i m | i | i | k r now | k]; cbn [Server.step] in Hstep.
  - injection Hstep as <-.
    destruct m as [sSid cSid params | payload now | | now | | ];
      cbn [Server.onTwilioMessage is_stop].
    + apply Hquiet; [|reflexivity].
      intros p Hq. apply quiet_handleTwilioStart; exact Hq.
    + apply Hquiet; [|apply pending_handleTwilioMedia].
      intros p Hq. apply quiet_handleTwilioMedia; exact Hq.
    + apply Hquiet; [|reflexivity].
      intros p Hq. rewrite count_emit, Hq by reflexivity. lia.
    + destruct (onTwilioStop_counts cfg now w) as (H1 & H2 & H3).
      cbv zeta in H1, H2, H3. lia.
    + apply Hquiet; [|reflexivity].
      intros p Hq. rewrite count_emit, Hq by reflexivity. lia.
    + apply Hquiet; [|reflexivity].
      intros p Hq. rewrite count_emit, Hq by reflexivity. lia.
  - injection Hstep as <-. cbn [is_stop]. apply Hquiet.
    + intros p Hq. rewrite quiet_onTwilioClose by exact Hq. reflexivity.
    + unfold Server.onTwilioClose. rewrite cleanup_pending. reflexivity.
  - injection Hstep as <-. cbn [is_stop]. apply Hquiet.
    + intros p Hq. rewrite quiet_onTwilioError by exact Hq. reflexivity.
    + unfold Server.onTwilioError. rewrite cleanup_pending. reflexivity.
  - destruct (sockets w !! i) as [[| | |]|]; try discriminate Hstep.
    injection Hstep as <-. cbn [is_stop]. apply Hquiet.
    + intros p Hq. rewrite quiet_onOpenaiOpen by exact Hq. reflexivity.
    + rewrite pending_onOpenaiOpen. reflexivity.
  - destruct (sockets w !! i); [|discriminate Hstep].
    injection Hstep as <-. cbn [is_stop]. apply Hquiet.
    + intros p Hq. apply quiet_onOpenaiMessage; exact Hq.
    + apply pending_onOpenaiMessage.
  - destruct (sockets w !! i); [|discriminate Hstep].
    injection Hstep as <-. cbn [is_stop]. apply Hquiet.
    + intros p Hq. rewrite quiet_onOpenaiClose by exact Hq. reflexivity.
    + reflexivity.
  - destruct (sockets w !! i); [|discriminate Hstep].
    injection Hstep as <-. cbn [is_stop]. apply Hquiet.
    + intros p Hq. rewrite quiet_onOpenaiError by exact Hq. reflexivity.
    + reflexivity.
  - destruct (pending w !! k) as [[t | | ]|] eqn:Hk; try discriminate Hstep.
    injection Hstep as <-. cbn [is_stop]. unfold Server.resumeSummary.
    match goal with
    | |- context [Server.saveTail cfg ?t ?s ?n ?w0] =>
        destruct (saveTail_counts cfg t s n w0) as (H1 & H2 & H3 & H4)
    end.
    cbv zeta in H1, H2, H3, H4. rewrite H1, H2, H4.
    pose proof (awaiting_settle_summary _ _ _ Hk) as Ha.
    cbn [emit Server.settle set_pending trace pending] in *.
    rewrite !count_app in *.
    cbn [count is_summary_request is_call_log_post] in *.
    rewrite summary_log_not_entry in *. lia.
  - destruct (pending w !! k) as [[t | | ]|] eqn:Hk; try discriminate Hstep.
    injection Hstep as <-. cbn [is_stop]. unfold Server.resumeCallLog.
    rewrite !count_cleanup by (intros; reflexivity).
    rewrite cleanup_pending.
    cbn [Server.settle set_pending trace pending].
    rewrite (awaiting_settle_call_log _ _ Hk). lia.
Qed.

Lemma run_fin_inv (cfg : Config) (evs : list Event) (n : nat) (w w' : World) :
  fin_inv n w -> Server.run cfg w evs = Some w' ->
  fin_inv (n + count_stops evs) w'.
Proof.
  revert n w. induction evs as [|e evs IH]; intros n w Hinv Hrun.
  - cbn in Hrun. injection Hrun as <-. unfold count_stops. cbn.
    rewrite Nat.add_0_r. exact Hinv.
  - cbn [Server.run] in Hrun.
    destruct (Server.step cfg w e) as [w1|] eqn:Hstep; [|discriminate Hrun].
    pose proof (step_fin_inv cfg n w w1 e Hinv Hstep) as Hinv1.
    specialize (IH _ _ Hinv1 Hrun).
    replace (n + count_stops (e :: evs))%nat
      with (n + (if is_stop e then 1 else 0) + count_stops evs)%nat.
    + exact IH.
    + unfold count_stops. cbn [List.filter].
      destruct (is_stop e); cbn [length]; lia.
Qed.

(** C1, as the code has it.  The session has no [finalized] flag: each
    telephony [stop] event starts the finalizer once, and no other event
    starts it (socket close and error included).  So over any sequence
    of events the finalizer has been entered as often as [stop] events
    were received, with at most one summary request and at most one
    call-log post per [stop]; a session that receives a single [stop]
    finalizes at most once. *)
Theorem finalization_once_per_stop (cfg : Config) (connId : jsstring)
    (evs : list Event) (w : World) :
  Server.run cfg (Server.init connId) evs = Some w ->
  count is_finalizer_entry (trace w) = count_stops evs
  /\ (count is_summary_request (trace w) <= count_stops evs)%nat
  /\ (count is_call_log_post (trace w) <= count_stops evs)%nat.
Proof.
  intros Hrun.
  assert (H0 : fin_inv 0 (Server.init connId)) by (repeat split; cbn; lia).
  destruct (run_fin_inv cfg evs 0 _ _ H0 Hrun) as (H1 & H2 & H3).
  cbn [Nat.add] in *. repeat split; lia.
Qed.

(** Two [stop] events on one session: the call log is posted twice. *)
Lemma finalization_once_per_stop_counterexample :
  ~ (forall (cfg : Config) (evs : list Event) (w : World),
       Server.run cfg (Server.init (lit "conn")) evs = Some w ->
       (count is_call_log_post (trace w) <= 1)%nat).
Proof.
  intros H.
  assert (Hrun : exists w,
    Server.run sample_cfg (Server.init (lit "conn"))
      [sample_start; OpenaiOpen 0;
       OpenaiMessage 0 (InputTranscriptionCompleted (Some (lit "hi")));
       TwilioMessage (TwStop (lit "2025-01-01T00:00:00.000Z"));
       TwilioMessage (TwStop (lit "2025-01-01T00:00:01.000Z"))] = Some w
    /\ count is_call_log_post (trace w) = 2%nat)
    by (vm_compute; eexists; split; reflexivity).
  destruct Hrun as (w & Hrun & Hposts).
  specialize (H _ _ _ Hrun). lia.
Qed.

Lemma finalization_once_per_stop_witness :
  count is_finalizer_entry
    (trace (Server.onTwilioStop sample_cfg (lit "2025-01-01T00:00:00.000Z")
              (Server.init (lit "conn"))))
  = 1%nat.
Proof.
  exact (proj1 (finalization_once_per_stop sample_cfg (lit "conn")
                  [TwilioMessage (TwStop (lit "2025-01-01T00:00:00.000Z"))]
                  (Server.onTwilioStop sample_cfg
                     (lit "2025-01-01T00:00:00.000Z")
                     (Server.init (lit "conn")))
                  eq_refl)).
Defined.

(* ------------------------------------------------------------------ *)
(** ** Abnormal termination *)




(* ------------------------------------------------------------------ *)
(** ** Trimming *)

Lemma trimStart_starts_clean (s : jsstring) : starts_clean (Str.trimStart s).
Proof.
  induction s as [|c s IH]; cbn; [exact I|].
  destruct (Str.isWhiteSpace c) eqn:E; [exact IH | exact E].
Qed.

Lemma trimStart_id (s : jsstring) : starts_clean s -> Str.trimStart s = s.
Proof. destruct s as [|c s]; cbn; [reflexivity | intros ->; reflexivity]. Qed.

Lemma trimStart_snoc (s : jsstring) (c : N) :
  Str.isWhiteSpace c = false ->
  Str.trimStart (s ++ [c]) = Str.trimStart s ++ [c].
Proof.
  intros Hc. induction s as [|d s IH]; cbn; [rewrite Hc; reflexivity|].
  destruct (Str.isWhiteSpace d); [exact IH | reflexivity].
Qed.

Lemma trimEnd_starts_clean (s : jsstring) :
  starts_clean s -> starts_clean (Str.trimEnd s).
Proof.
  destruct s as [|c s]; [intros _; exact I|]. cbn [starts_clean]. intros Hc.
  unfold Str.trimEnd. change (rev (c :: s)) with (rev s ++ [c]).
  rewrite trimStart_snoc by exact Hc.
  rewrite rev_app_distr. cbn. exact Hc.
Qed.

Lemma trim_idempotent (s : jsstring) : Str.trim (Str.trim s) = Str.trim s.
Proof.
  unfold Str.trim.
  rewrite (trimStart_id (Str.trimEnd (Str.trimStart s)))
    by apply trimEnd_starts_clean, trimStart_starts_clean.
  unfold Str.trimEnd. rewrite rev_involutive.
  rewrite (trimStart_id (Str.trimStart (rev (Str.trimStart s))))
    by apply trimStart_starts_clean.
  reflexivity.
Qed.

Lemma length_pos_not_nil (s : jsstring) :
  (0 <? length s)%nat = true <-> s <> [].
Proof.
  destruct s; cbn; split; congruence.
Qed.

(* ------------------------------------------------------------------ *)
(** ** The transcript *)

Lemma render_snoc (segs : list (Speaker * jsstring)) (seg : Speaker * jsstring) :
  render (segs ++ [seg]) = render segs ++ render_segment seg.
Proof.
  unfold render. rewrite map_app, concat_app. cbn. rewrite app_nil_r.
  reflexivity.
Qed.

Lemma vad_update_text (b : bool) (now : Z) (c : TwilioStreamContext) :
  transcript (Server.vad_update b now c) = transcript c
  /\ assistantBuffer (Server.vad_update b now c) = assistantBuffer c.
Proof. unfold Server.vad_update. repeat case_match; split; reflexivity. Qed.

Lemma ctx_handleTwilioMedia (cfg : Config) payload now (w : World) :
  transcript (ctx (Server.handleTwilioMedia cfg payload now w))
  = transcript (ctx w)
  /\ assistantBuffer (ctx (Server.handleTwilioMedia cfg payload now w))
     = assistantBuffer (ctx w).
Proof.
  unfold Server.handleTwilioMedia, Server.media_error, Ws.openai_send.
  repeat case_match; simplify_eq;
    cbn [ctx with_ctx emit];
    try match goal with
        | |- context [Server.vad_update ?b ?n ?c] =>
            destruct (vad_update_text b n c) as [-> ->]
        end;
    split; reflexivity.
Qed.

Lemma ctx_onOpenaiOpen (cfg : Config) (i : nat) (w : World) :
  transcript (ctx (Server.onOpenaiOpen cfg i w)) = transcript (ctx w)
  /\ assistantBuffer (ctx (Server.onOpenaiOpen cfg i w))
     = assistantBuffer (ctx w).
Proof.
  unfold Server.onOpenaiOpen, Ws.openai_send.
  repeat case_match; simplify_eq; split; reflexivity.
Qed.

Lemma ctx_thenCleanup_saveTail (cfg : Config) (t : jsstring)
    (s : option jsstring) (now : jsstring) (w : World) :
  transcript (ctx (Server.thenCleanup (Server.saveTail cfg t s now w)))
  = transcript (ctx w)
  /\ assistantBuffer (ctx (Server.thenCleanup (Server.saveTail cfg t s now w)))
     = assistantBuffer (ctx w).
Proof.
  unfold Server.saveTail.
  destruct (CallLogger.logCallToSupabase cfg _); cbn [Server.thenCleanup];
    rewrite ?cleanup_ctx; split; reflexivity.
Qed.

Lemma ctx_onTwilioStop (cfg : Config) (now : jsstring) (w : World) :
  transcript (ctx (Server.onTwilioStop cfg now w)) = transcript (ctx w)
  /\ assistantBuffer (ctx (Server.onTwilioStop cfg now w))
     = assistantBuffer (ctx w).
Proof.
  unfold Server.onTwilioStop, Server.saveTranscriptAndSummary,
    Server.generateSummaryFromTranscript.
  repeat case_match; cbn [Server.thenCleanup];
    rewrite ?cleanup_ctx;
    try (split; reflexivity).
  match goal with
  | |- context [Server.saveTail cfg ?t ?s ?n ?w0] =>
      destruct (ctx_thenCleanup_saveTail cfg t s n w0) as [-> ->]
  end.
  split; reflexivity.
Qed.

(** What one turn of the event loop does to the transcript: nothing, or
    it appends a caller line on a completed input transcription, or it
    appends the trimmed agent buffer, not blank, on a completed response
    and clears the buffer. *)
Lemma step_transcript (cfg : Config) (w w' : World) (e : Event) :
  Server.step cfg w e = Some w' ->
  transcript (ctx w') = transcript (ctx w)
  \/ (exists i t,
        e = OpenaiMessage i (InputTranscriptionCompleted (Some t))
        /\ Str.trim t <> []
        /\ transcript (ctx w')
           = transcript (ctx w) ++ render_segment (Caller, Str.trim t))
  \/ (exists i,
        e = OpenaiMessage i ResponseCompleted
        /\ Str.trim (assistantBuffer (ctx w)) <> []
        /\ transcript (ctx w')
           = transcript (ctx w)
             ++ render_segment (Agent, Str.trim (assistantBuffer (ctx w)))
        /\ assistantBuffer (ctx w') = []).
Proof.
  intros Hstep.
  destruct e as [m | | | i | i m | i | i | k r now | k]; cbn [Server.step] in Hstep.
  - injection Hstep as <-. left.
    destruct m as [sSid cSid params | payload now | | now | | ];
      cbn [Server.onTwilioMessage]; try reflexivity.
    + apply ctx_handleTwilioMedia.
    + apply ctx_onTwilioStop.
  - injection Hstep as <-. left. unfold Server.onTwilioClose.
    rewrite cleanup_ctx. reflexivity.
  - injection Hstep as <-. left. unfold Server.onTwilioError.
    rewrite cleanup_ctx. reflexivity.
  - destruct (sockets w !! i) as [[| | |]|]; try discriminate Hstep.
    injection Hstep as <-. left.
    exact (proj1 (ctx_onOpenaiOpen cfg i _)).
  - destruct (sockets w !! i); [|discriminate Hstep].
    injection Hstep as <-.
    destruct m as [now | | delta | delta | | callerText | | | ];
      cbn [Server.onOpenaiMessage].
    + left. reflexivity.
    + left. reflexivity.
    + left. unfold Ws.twilio_send. repeat case_match; simplify_eq; reflexivity.
    + left. repeat case_match; simplify_eq; reflexivity.
    + destruct (0 <? length (Str.trim (assistantBuffer (ctx w))))%nat eqn:E.
      * right. right. exists i. apply length_pos_not_nil in E.
        split; [reflexivity|]. split; [exact E|]. split; reflexivity.
      * left. reflexivity.
    + destruct callerText as [t|]; [|left; reflexivity].
      destruct (Str.truthy t); cbn [andb]; [|left; reflexivity].
      destruct (0 <? length (Str.trim t))%nat eqn:E; [|left; reflexivity].
      right. left. exists i, t. apply length_pos_not_nil in E.
      split; [reflexivity|]. split; [exact E|]. reflexivity.
    + left. reflexivity.
    + left. reflexivity.
    + left. reflexivity.
  - destruct (sockets w !! i); [|discriminate Hstep].
    injection Hstep as <-. left. reflexivity.
  - destruct (sockets w !! i); [|discriminate Hstep].
    injection Hstep as <-. left. reflexivity.
  - destruct (pending w !! k) as [[t | | ]|]; try discriminate Hstep.
    injection Hstep as <-. left. unfold Server.resumeSummary.
    match goal with
    | |- context [Server.saveTail cfg ?t ?s ?n ?w0] =>
        destruct (ctx_thenCleanup_saveTail cfg t s n w0) as [-> _]
    end.
    reflexivity.
  - destruct (pending w !! k) as [[t | | ]|]; try discriminate Hstep.
    injection Hstep as <-. left. unfold Server.resumeCallLog.
    rewrite cleanup_ctx. reflexivity.
Qed.

Lemma step_transcript_inv (cfg : Config) (w w' : World) (e : Event) :
  transcript_inv w -> Server.step cfg w e = Some w' -> transcript_inv w'.
Proof.
  intros (segs & Hr & Hok) Hstep.
  destruct (step_transcript cfg w w' e Hstep)
    as [H | [(i & t & _ & Ht & H) | (i & _ & Hb & H & _)]].
  - exists segs. rewrite H. auto.
  - exists (segs ++ [(Caller, Str.trim t)]).
    rewrite H, Hr, render_snoc. split; [reflexivity|].
    apply Forall_app. split; [exact Hok|]. constructor; [|constructor].
    unfold segment_ok. cbn [snd]. rewrite trim_idempotent. exact Ht.
  - exists (segs ++ [(Agent, Str.trim (assistantBuffer (ctx w)))]).
    rewrite H, Hr, render_snoc. split; [reflexivity|].
    apply Forall_app. split; [exact Hok|]. constructor; [|constructor].
    unfold segment_ok. cbn [snd]. rewrite trim_idempotent. exact Hb.
Qed.

Lemma run_transcript_inv (cfg : Config) (evs : list Event) (w w' : World) :
  transcript_inv w -> Server.run cfg w evs = Some w' -> transcript_inv w'.
Proof.
  revert w. induction evs as [|e evs IH]; intros w Hinv Hrun.
  - cbn in Hrun. injection Hrun as <-. exact Hinv.
  - cbn [Server.run] in Hrun.
    destruct (Server.step cfg w e) as [w1|] eqn:Hstep; [|discriminate Hrun].
    exact (IH w1 (step_transcript_inv cfg w w1 e Hinv Hstep) Hrun).
Qed.

(** C9.  The transcript never holds an agent segment whose trimmed text
    is empty.  Over any run it is a sequence of segments with non-blank
    text; a turn of the event loop changes it only by appending a caller
    line on a completed input transcription, or by appending the trimmed
    agent buffer, not blank, on a completed response, which clears the
    buffer; a text delta goes to the buffer and leaves the transcript
    alone; and a completed response on a blank buffer commits nothing. *)
Theorem agent_segments_never_blank (cfg : Config) (connId : jsstring)
    (evs : list Event) (w : World) :
  Server.run cfg (Server.init connId) evs = Some w ->
  (exists segs,
     transcript (ctx w) = render segs
     /\ forall text, In (Agent, text) segs -> Str.trim text <> [])
  /\ (forall e w',
        Server.step cfg w e = Some w' ->
        transcript (ctx w') = transcript (ctx w)
        \/ (exists i t,
              e = OpenaiMessage i (InputTranscriptionCompleted (Some t))
              /\ Str.trim t <> []
              /\ transcript (ctx w')
                 = transcript (ctx w) ++ render_segment (Caller, Str.trim t))
        \/ (exists i,
              e = OpenaiMessage i ResponseCompleted
              /\ Str.trim (assistantBuffer (ctx w)) <> []
              /\ transcript (ctx w')
                 = transcript (ctx w)
                   ++ render_segment
                        (Agent, Str.trim (assistantBuffer (ctx w)))
              /\ assistantBuffer (ctx w') = []))
  /\ (forall delta,
        transcript (ctx (Server.onOpenaiMessage (OutputTextDelta delta) w))
        = transcript (ctx w)
        /\ assistantBuffer
             (ctx (Server.onOpenaiMessage (OutputTextDelta delta) w))
           = assistantBuffer (ctx w) ++ default [] delta)
  /\ (Str.trim (assistantBuffer (ctx w)) = [] ->
      Server.onOpenaiMessage ResponseCompleted w
      = emit (Log "openai_response_completed") w).
Proof.
  intros Hrun. split; [|split; [|split]].
  - assert (H0 : transcript_inv (Server.init connId))
      by (exists []; split; [reflexivity | constructor]).
    destruct (run_transcript_inv cfg evs _ _ H0 Hrun) as (segs & Hr & Hok).
    exists segs. split; [exact Hr|]. intros text Hin.
    rewrite Forall_forall in Hok.
    apply (Hok (Agent, text)). apply list_elem_of_In. exact Hin.
  - intros e w' Hstep. exact (step_transcript cfg w w' e Hstep).
  - intros [d|]; cbn [Server.onOpenaiMessage default].
    + destruct d as [|c d]; cbn [Str.truthy].
      * rewrite app_nil_r. split; reflexivity.
      * split; reflexivity.
    + rewrite app_nil_r. split; reflexivity.
  - intros Hb. cbn [Server.onOpenaiMessage]. rewrite Hb. reflexivity.
Qed.

Lemma agent_segments_never_blank_witness :
  exists segs,
    transcript (ctx sample_session) = render segs
    /\ forall text, In (Agent, text) segs -> Str.trim text <> [].
Proof.
  exact (proj1 (agent_segments_never_blank sample_cfg (lit "conn")
                  [sample_start; OpenaiOpen 0; sample_caller_line]
                  sample_session ltac:(vm_compute; reflexivity))).
Defined.

Example happy_path_transcript :
  option_map (fun w => transcript (ctx w))
    (Server.run sample_cfg (Server.init (lit "conn"))
       [sample_start; OpenaiOpen 0;
        OpenaiMessage 0 (InputTranscriptionCompleted (Some (lit "hello there")));
        OpenaiMessage 0 (OutputTextDelta (Some (lit "Hi,")));
        OpenaiMessage 0 (OutputTextDelta (Some (lit " this is Dipsy")));
        OpenaiMessage 0 ResponseCompleted])
  = Some (render [(Caller, lit "hello there");
                  (Agent, lit "Hi, this is Dipsy")]).
Proof. vm_compute. reflexivity. Qed.

Example blank_buffer_commits_nothing :
  option_map (fun w => (transcript (ctx w), assistantBuffer (ctx w)))
    (Server.run sample_cfg (Server.init (lit "conn"))
       [sample_start; OpenaiOpen 0;
        OpenaiMessage 0 (OutputTextDelta (Some (lit "  ")));
        OpenaiMessage 0 ResponseCompleted])
  = Some ([], lit "  ").
Proof. vm_compute. reflexivity. Qed.

(* ------------------------------------------------------------------ *)
(** ** Ordering on the realtime socket *)

Lemma sent_on_app (i : nat) (a b : list Effect) :
  sent_on i (a ++ b) = sent_on i a ++ sent_on i b.
Proof.
  induction a as [|e a IH]; [reflexivity|].
  destruct e; cbn [app sent_on]; rewrite ?IH; try reflexivity.
  destruct (_ =? _)%nat; reflexivity.
Qed.

Ltac no_sends :=
  cbn [trace emit with_ctx set_sockets set_twilioWs set_pending
       Server.add_pending Server.settle];
  rewrite ?sent_on_app; cbn [sent_on]; rewrite ?app_nil_r; reflexivity.

Lemma sent_on_cleanup (i : nat) (w : World) :
  sent_on i (trace (Server.cleanup w)) = sent_on i (trace w).
Proof.
  unfold Server.cleanup, Ws.openai_close, Ws.twilio_close.
  repeat case_match; no_sends.
Qed.

Lemma sent_on_thenCleanup_saveTail (cfg : Config) (i : nat) (t : jsstring)
    (s : option jsstring) (now : jsstring) (w : World) :
  sent_on i (trace (Server.thenCleanup (Server.saveTail cfg t s now w)))
  = sent_on i (trace w).
Proof.
  unfold Server.saveTail.
  destruct (CallLogger.logCallToSupabase cfg _); cbn [Server.thenCleanup];
    rewrite ?sent_on_cleanup; no_sends.
Qed.

Lemma sent_on_onTwilioStop (cfg : Config) (i : nat) (now : jsstring)
    (w : World) :
  sent_on i (trace (Server.onTwilioStop cfg now w)) = sent_on i (trace w).
Proof.
  unfold Server.onTwilioStop, Server.saveTranscriptAndSummary,
    Server.generateSummaryFromTranscript.
  repeat case_match; cbn [Server.thenCleanup];
    rewrite ?sent_on_cleanup, ?sent_on_thenCleanup_saveTail; no_sends.
Qed.

Lemma sent_on_onOpenaiMessage (i : nat) (m : RealtimeMsg) (w : World) :
  sent_on i (trace (Server.onOpenaiMessage m w)) = sent_on i (trace w).
Proof.
  unfold Server.onOpenaiMessage, Ws.twilio_send.
  repeat case_match; simplify_eq; no_sends.
Qed.

Lemma sockets_onOpenaiMessage (m : RealtimeMsg) (w : World) :
  sockets (Server.onOpenaiMessage m w) = sockets w.
Proof.
  unfold Server.onOpenaiMessage, Ws.twilio_send.
  repeat case_match; simplify_eq; reflexivity.
Qed.

Lemma sockets_handleTwilioMedia (cfg : Config) payload now (w : World) :
  sockets (Server.handleTwilioMedia cfg payload now w) = sockets w.
Proof.
  unfold Server.handleTwilioMedia, Server.media_error, Ws.openai_send.
  repeat case_match; simplify_eq; reflexivity.
Qed.

Lemma degrade_refl (l : list ReadyState) : degrade l l.
Proof. left. reflexivity. Qed.

Lemma degrade_cleanup (w : World) :
  degrade (sockets w) (sockets (Server.cleanup w)).
Proof.
  unfold Server.cleanup.
  destruct (openaiWs (ctx w)) as [i|]; [|unfold Ws.twilio_close;
    case_match; left; reflexivity].
  destruct (bool_decide (sockets w !! i = Some OPEN)) eqn:E.
  - apply bool_decide_eq_true in E. right. exists i, OPEN, CLOSING.
    split; [exact E|]. split; [|left; reflexivity].
    unfold Ws.openai_close, Ws.twilio_close. case_match; reflexivity.
  - unfold Ws.twilio_close. case_match; left; reflexivity.
Qed.

Lemma degrade_thenCleanup_saveTail (cfg : Config) (t : jsstring)
    (s : option jsstring) (now : jsstring) (w : World) :
  degrade (sockets w)
    (sockets (Server.thenCleanup (Server.saveTail cfg t s now w))).
Proof.
  unfold Server.saveTail.
  destruct (CallLogger.logCallToSupabase cfg _); cbn [Server.thenCleanup].
  - left. reflexivity.
  - exact (degrade_cleanup (emit (Log "calllog_unexpected_error") w)).
Qed.

Lemma degrade_onTwilioStop (cfg : Config) (now : jsstring) (w : World) :
  degrade (sockets w) (sockets (Server.onTwilioStop cfg now w)).
Proof.
  unfold Server.onTwilioStop, Server.saveTranscriptAndSummary,
    Server.generateSummaryFromTranscript.
  repeat case_match; cbn [Server.thenCleanup].
  - exact (degrade_cleanup
             (emit (Log "calllog_missing_call_sid")
                (emit (Log "twilio_stop_event") w))).
  - exact (degrade_cleanup
             (emit (Log "calllog_empty_transcript")
                (emit (Log "twilio_stop_event") w))).
  - left. reflexivity.
  - match goal with
    | |- context [Server.saveTail cfg ?t ?s ?n ?w0] =>
        exact (degrade_thenCleanup_saveTail cfg t s n w0)
    end.
Qed.

Lemma configured_config_first (l : list RealtimeOut) :
  configured l = true -> config_first l = true.
Proof.
  destruct l as [|[ | | ] [|[ | | ] l]]; cbn; congruence.
Qed.

Lemma socket_ok_config_first (tr : list Effect) (i : nat) (s : ReadyState) :
  socket_ok tr i s -> config_first (sent_on i tr) = true.
Proof.
  destruct s; cbn [socket_ok]; intros H.
  - rewrite H. reflexivity.
  - apply configured_config_first, H.
  - exact H.
  - exact H.
Qed.

(** A turn that sends nothing on any realtime socket and lets at most
    one socket start closing or close keeps the invariant. *)
Lemma link_inv_degrade (w w' : World) :
  link_inv w ->
  degrade (sockets w) (sockets w') ->
  (forall j, sent_on j (trace w') = sent_on j (trace w)) ->
  link_inv w'.
Proof.
  intros [Hs Hn] Hd Hsent. split.
  - intros j s' Hj. unfold socket_ok. rewrite Hsent.
    destruct Hd as [Heq | (i & s & s1 & Hi & Heq & Hs1)].
    + rewrite Heq in Hj. exact (Hs j s' Hj).
    + rewrite Heq in Hj. destruct (decide (i = j)) as [<- | Hne].
      * rewrite list_lookup_insert_eq in Hj
          by (apply lookup_lt_is_Some; eauto).
        injection Hj as <-.
        pose proof (socket_ok_config_first _ _ _ (Hs i s Hi)) as Hc.
        destruct Hs1 as [-> | ->]; exact Hc.
      * rewrite list_lookup_insert_ne in Hj by exact Hne.
        exact (Hs j s' Hj).
  - intros j Hj. rewrite Hsent. apply Hn.
    destruct Hd as [Heq | (i & s & s1 & Hi & Heq & Hs1)];
      rewrite Heq in Hj; rewrite ?length_insert in Hj; exact Hj.
Qed.

Lemma link_inv_handleTwilioStart sSid cSid params (w : World) :
  link_inv w -> link_inv (Server.handleTwilioStart sSid cSid params w).
Proof.
  intros [Hs Hn].
  assert (Hsent : forall j,
            sent_on j (trace (Server.handleTwilioStart sSid cSid params w))
            = sent_on j (trace w))
    by (intros j; unfold Server.handleTwilioStart; no_sends).
  assert (Hsock : sockets (Server.handleTwilioStart sSid cSid params w)
                  = sockets w ++ [CONNECTING]) by reflexivity.
  split.
  - intros j s Hj. rewrite Hsock in Hj. unfold socket_ok. rewrite Hsent.
    destruct (decide (j < length (sockets w))%nat) as [Hlt | Hge].
    + rewrite lookup_app_l in Hj by exact Hlt. exact (Hs j s Hj).
    + rewrite lookup_app_r in Hj by lia.
      destruct (j - length (sockets w))%nat as [|n] eqn:E; cbn in Hj;
        [|discriminate Hj].
      injection Hj as <-. apply Hn. lia.
  - intros j Hj. rewrite Hsent. apply Hn.
    rewrite Hsock, length_app in Hj. cbn in Hj. lia.
Qed.

Lemma configured_snoc_append (l : list RealtimeOut) (a : jsstring) :
  configured l = true -> configured (l ++ [InputAudioBufferAppend a]) = true.
Proof.
  destruct l as [|[ | | ] [|[ | | ] l]]; cbn; try congruence.
  intros H. rewrite forallb_app, H. reflexivity.
Qed.

Lemma link_inv_handleTwilioMedia (cfg : Config) payload now (w : World) :
  link_inv w -> link_inv (Server.handleTwilioMedia cfg payload now w).
Proof.
  intros Hinv.
  destruct (handleTwilioMedia_trace cfg payload now w) as (delta & Htr & Hd).
  destruct Hd as [-> | [-> | (i & p & _ & _ & _ & Hopen & ->)]].
  - apply (link_inv_degrade w); [exact Hinv | |].
    + rewrite sockets_handleTwilioMedia. apply degrade_refl.
    + intros j. rewrite Htr, app_nil_r. reflexivity.
  - apply (link_inv_degrade w); [exact Hinv | |].
    + rewrite sockets_handleTwilioMedia. apply degrade_refl.
    + intros j. rewrite Htr, sent_on_app. cbn. rewrite app_nil_r.
      reflexivity.
  - destruct Hinv as [Hs Hn]. split.
    + intros j s Hj. rewrite sockets_handleTwilioMedia in Hj.
      unfold socket_ok. rewrite Htr, sent_on_app. cbn [sent_on].
      destruct (i =? j)%nat eqn:E.
      * apply Nat.eqb_eq in E. subst j. rewrite Hopen in Hj.
        injection Hj as <-. apply configured_snoc_append.
        exact (Hs i OPEN Hopen).
      * rewrite app_nil_r. exact (Hs j s Hj).
    + intros j Hj. rewrite sockets_handleTwilioMedia in Hj.
      rewrite Htr, sent_on_app. cbn [sent_on].
      destruct (i =? j)%nat eqn:E.
      * apply Nat.eqb_eq in E. subst j.
        apply lookup_lt_Some in Hopen. lia.
      * rewrite app_nil_r. apply Hn. exact Hj.
Qed.

(** The ['open'] listener on a socket that has just opened sends the
    session configuration and then the initial directive on it. *)
Lemma onOpenaiOpen_sent (cfg : Config) (i : nat) (w : World) :
  sockets w !! i = Some OPEN ->
  sockets (Server.onOpenaiOpen cfg i w) = sockets w
  /\ exists ins voice directive,
       forall j,
         sent_on j (trace (Server.onOpenaiOpen cfg i w))
         = sent_on j (trace w)
           ++ (if (i =? j)%nat
               then [SessionUpdate ins voice; ResponseCreate directive]
               else []).
Proof.
  intros Hopen. unfold Server.onOpenaiOpen, Ws.openai_send.
  cbn [sockets emit with_ctx]. rewrite Hopen. cbn [sockets emit with_ctx].
  rewrite Hopen. split; [reflexivity|].
  eexists _, _, _. intros j.
  cbn [trace emit with_ctx]. rewrite !sent_on_app. cbn [sent_on].
  destruct (i =? j)%nat; rewrite ?app_nil_r, <- ?app_assoc; reflexivity.
Qed.

Lemma link_inv_onOpenaiOpen (cfg : Config) (i : nat) (w : World) :
  link_inv w -> sockets w !! i = Some CONNECTING ->
  link_inv (Server.onOpenaiOpen cfg i
              (set_sockets (<[i := OPEN]> (sockets w)) w)).
Proof.
  intros [Hs Hn] Hi.
  assert (Hlt : (i < length (sockets w))%nat)
    by (apply lookup_lt_is_Some; eauto).
  set (w1 := set_sockets (<[i := OPEN]> (sockets w)) w).
  assert (Hopen : sockets w1 !! i = Some OPEN)
    by (cbn; apply list_lookup_insert_eq; exact Hlt).
  destruct (onOpenaiOpen_sent cfg i w1 Hopen)
    as (Hsock & ins & voice & directive & Hsent).
  split.
  - intros j s Hj. rewrite Hsock in Hj. unfold socket_ok. rewrite Hsent.
    cbn [w1 trace set_sockets sockets] in *.
    destruct (i =? j)%nat eqn:E.
    + apply Nat.eqb_eq in E. subst j. rewrite Hopen in Hj.
      injection Hj as <-.
      pose proof (Hs i CONNECTING Hi) as Hc. cbn [socket_ok] in Hc.
      rewrite Hc. reflexivity.
    + apply Nat.eqb_neq in E.
      rewrite list_lookup_insert_ne in Hj by exact E.
      rewrite app_nil_r. exact (Hs j s Hj).
  - intros j Hj. rewrite Hsock in Hj. rewrite Hsent.
    cbn [w1 trace set_sockets sockets] in *.
    rewrite length_insert in Hj.
    destruct (i =? j)%nat eqn:E.
    + apply Nat.eqb_eq in E. lia.
    + rewrite app_nil_r. apply Hn. exact Hj.
Qed.

Lemma step_link_inv (cfg : Config) (w w' : World) (e : Event) :
  link_inv w -> Server.step cfg w e = Some w' -> link_inv w'.
Proof.
  intros Hinv Hstep.
  destruct e as [m | | | i | i m | i | i | k r now | k];
    cbn [Server.step] in Hstep.
  - injection Hstep as <-.
    destruct m as [sSid cSid params | payload now | | now | | ];
      cbn [Server.onTwilioMessage].
    + apply link_inv_handleTwilioStart, Hinv.
    + apply link_inv_handleTwilioMedia, Hinv.
    + apply (link_inv_degrade w); [exact Hinv | apply degrade_refl |].
      intros j. no_sends.
    + apply (link_inv_degrade w); [exact Hinv | apply degrade_onTwilioStop |].
      intros j. apply sent_on_onTwilioStop.
    + apply (link_inv_degrade w); [exact Hinv | apply degrade_refl |].
      intros j. no_sends.
    + apply (link_inv_degrade w); [exact Hinv | apply degrade_refl |].
      intros j. no_sends.
  - injection Hstep as <-. apply (link_inv_degrade w); [exact Hinv | |].
    + exact (degrade_cleanup (emit (Log "twilio_ws_connection_closed")
                                (set_twilioWs CLOSED w))).
    + intros j. unfold Server.onTwilioClose. rewrite sent_on_cleanup.
      no_sends.
  - injection Hstep as <-. apply (link_inv_degrade w); [exact Hinv | |].
    + exact (degrade_cleanup (emit (Log "twilio_ws_connection_error")
                                (set_twilioWs (Ws.errored (twilioWs w)) w))).
    + intros j. unfold Server.onTwilioError. rewrite sent_on_cleanup.
      no_sends.
  - destruct (sockets w !! i) as [[| | |]|] eqn:Hi; try discriminate Hstep.
    injection Hstep as <-. apply link_inv_onOpenaiOpen; assumption.
  - destruct (sockets w !! i); [|discriminate Hstep].
    injection Hstep as <-. apply (link_inv_degrade w); [exact Hinv | |].
    + rewrite sockets_onOpenaiMessage. apply degrade_refl.
    + intros j. apply sent_on_onOpenaiMessage.
  - destruct (sockets w !! i) as [s|] eqn:Hi; [|discriminate Hstep].
    injection Hstep as <-. apply (link_inv_degrade w); [exact Hinv | |].
    + right. exists i, s, CLOSED. auto.
    + intros j. unfold Server.onOpenaiClose. no_sends.
  - destruct (sockets w !! i) as [s|] eqn:Hi; [|discriminate Hstep].
    injection Hstep as <-. apply (link_inv_degrade w); [exact Hinv | |].
    + right. exists i, s, (Ws.errored s). split; [exact Hi|].
      split; [reflexivity|]. destruct s; cbn; auto.
    + intros j. unfold Server.onOpenaiError. no_sends.
  - destruct (pending w !! k) as [[t | | ]|]; try discriminate Hstep.
    injection Hstep as <-. apply (link_inv_degrade w); [exact Hinv | |].
    + unfold Server.resumeSummary.
      match goal with
      | |- context [Server.saveTail cfg ?t ?s ?n ?w0] =>
          exact (degrade_thenCleanup_saveTail cfg t s n w0)
      end.
    + intros j. unfold Server.resumeSummary.
      rewrite sent_on_thenCleanup_saveTail. no_sends.
  - destruct (pending w !! k) as [[t | | ]|]; try discriminate Hstep.
    injection Hstep as <-. apply (link_inv_degrade w); [exact Hinv | |].
    + exact (degrade_cleanup (Server.settle k w)).
    + intros j. unfold Server.resumeCallLog. rewrite sent_on_cleanup.
      no_sends.
Qed.

Lemma run_link_inv (cfg : Config) (evs : list Event) (w w' : World) :
  link_inv w -> Server.run cfg w evs = Some w' -> link_inv w'.
Proof.
  revert w. induction evs as [|e evs IH]; intros w Hinv Hrun.
  - cbn in Hrun. injection Hrun as <-. exact Hinv.
  - cbn [Server.run] in Hrun.
    destruct (Server.step cfg w e) as [w1|] eqn:Hstep; [|discriminate Hrun].
    exact (IH w1 (step_link_inv cfg w w1 e Hinv Hstep) Hrun).
Qed.

Lemma link_inv_init (connId : jsstring) : link_inv (Server.init connId).
Proof.
  split.
  - intros i s H. destruct i; discriminate H.
  - intros i _. reflexivity.
Qed.

(** C8.  On every realtime socket of a session the session
    configuration ([session.update]) is the first message sent, the
    initial directive ([response.create]) the second, and every later
    message is forwarded audio ([input_audio_buffer.append]): the
    ['open'] listener sends the two, in this order, on a socket on which
    nothing was sent before.  Audio that arrives while the session has
    no realtime socket or its ready flag is down is dropped: the handler
    returns the world unchanged, so nothing is queued for later. *)
Theorem config_precedes_audio (cfg : Config) (connId : jsstring)
    (evs : list Event) (w : World) :
  Server.run cfg (Server.init connId) evs = Some w ->
  (forall i, config_first (sent_on i (trace w)) = true)
  /\ (forall i,
        sockets w !! i = Some CONNECTING ->
        exists w' ins voice directive,
          Server.step cfg w (OpenaiOpen i) = Some w'
          /\ sent_on i (trace w)  = []
          /\ sent_on i (trace w')
             = [SessionUpdate ins voice; ResponseCreate directive])
  /\ (forall payload now,
        openaiWs (ctx w) = None \/ openaiReady (ctx w) = false ->
        Server.handleTwilioMedia cfg payload now w = w).
Proof.
  intros Hrun.
  pose proof (run_link_inv cfg evs _ _ (link_inv_init connId) Hrun)
    as [Hs Hn].
  split; [|split].
  - intros i. destruct (sockets w !! i) as [s|] eqn:Hi.
    + exact (socket_ok_config_first _ _ _ (Hs i s Hi)).
    + rewrite Hn; [reflexivity|]. apply lookup_ge_None. exact Hi.
  - intros i Hi.
    assert (Hlt : (i < length (sockets w))%nat)
      by (apply lookup_lt_is_Some; eauto).
    set (w1 := set_sockets (<[i := OPEN]> (sockets w)) w).
    assert (Hopen : sockets w1 !! i = Some OPEN)
      by (cbn; apply list_lookup_insert_eq; exact Hlt).
    destruct (onOpenaiOpen_sent cfg i w1 Hopen)
      as (_ & ins & voice & directive & Hsent).
    pose proof (Hs i CONNECTING Hi) as Hnil. cbn [socket_ok] in Hnil.
    exists (Server.onOpenaiOpen cfg i w1), ins, voice, directive.
    split; [cbn [Server.step]; rewrite Hi; reflexivity|].
    split; [exact Hnil|].
    rewrite Hsent. cbn [w1 trace set_sockets]. rewrite Hnil, Nat.eqb_refl.
    reflexivity.
  - intros payload now Hnot. unfold Server.handleTwilioMedia.
    destruct payload as [p|]; [|reflexivity].
    destruct (Str.truthy p); cbn [negb]; [|reflexivity].
    destruct (openaiWs (ctx w)) as [i|]; [|reflexivity].
    destruct Hnot as [Hnot | Hnot]; [discriminate Hnot|].
    rewrite Hnot. reflexivity.
Qed.

Lemma config_precedes_audio_witness :
  config_first (sent_on 0 (trace sample_session)) = true.
Proof.
  exact (proj1 (config_precedes_audio sample_cfg (lit "conn")
                  [sample_start; OpenaiOpen 0; sample_caller_line]
                  sample_session ltac:(vm_compute; reflexivity)) 0%nat).
Defined.

(** A second [start] replaces the realtime socket while the ready flag
    of the first is still up: audio for the new socket is not sent until
    that socket has opened and has been configured. *)
Example restart_keeps_order :
  option_map
    (fun w => (map is_append (sent_on 0 (trace w)),
               map is_append (sent_on 1 (trace w))))
    (Server.run sample_cfg (Server.init (lit "conn"))
       [sample_start; OpenaiOpen 0;
        TwilioMessage (TwMedia (Some (lit "ab")) 10);
        sample_start;
        TwilioMessage (TwMedia (Some (lit "cd")) 20);
        OpenaiOpen 1;
        TwilioMessage (TwMedia (Some (lit "ef")) 30)])
  = Some ([false; false; true], [false; false; true]).
Proof. vm_compute. reflexivity. Qed.


(* ================================================================== *)
(** * Further properties of the codec *)

(** The decoder is odd in the top bit of the byte: setting it negates
    the sample.  Bytes below [0x80] decode to the non-positive samples,
    no sample exceeds 32124 in magnitude, and among bytes with the same
    top bit a larger byte decodes to a sample of strictly smaller
    magnitude. *)
Theorem mulaw_sign_and_range (u : Z) :
  0 <= u < 128 ->
  Codec.mulawToLinearSample (u + 128) = - Codec.mulawToLinearSample u
  /\ -32124 <= Codec.mulawToLinearSample u <= 0
  /\ (u < 127 ->
      Codec.mulawToLinearSample u < Codec.mulawToLinearSample (u + 1)).
Proof.
  intros Hu.
  pose proof (byte_values_ind
    (fun u => if u <? 128 then
                (Codec.mulawToLinearSample (u + 128)
                 =? - Codec.mulawToLinearSample u)
                && (-32124 <=? Codec.mulawToLinearSample u)
                && (Codec.mulawToLinearSample u <=? 0)
                && ((127 <=? u)
                    || (Codec.mulawToLinearSample u
                        <? Codec.mulawToLinearSample (u + 1)))
              else true)
    ltac:(vm_compute; reflexivity) u ltac:(lia)) as H.
  cbv beta in H.
  replace (u <? 128) with true in H by (symmetry; apply Z.ltb_lt; lia).
  apply andb_true_iff in H as [H H4].
  apply andb_true_iff in H as [H H3].
  apply andb_true_iff in H as [H1 H2].
  apply Z.eqb_eq in H1. apply Z.leb_le in H2, H3.
  split; [exact H1|]. split; [lia|].
  intros Hlt. apply orb_true_iff in H4 as [H4 | H4].
  - apply Z.leb_le in H4. lia.
  - apply Z.ltb_lt in H4. exact H4.
Qed.

Lemma mulaw_sign_and_range_witness :
  Codec.mulawToLinearSample (5 + 128) = - Codec.mulawToLinearSample 5
  /\ -32124 <= Codec.mulawToLinearSample 5 <= 0
  /\ (5 < 127 ->
      Codec.mulawToLinearSample 5 < Codec.mulawToLinearSample (5 + 1)).
Proof. apply (mulaw_sign_and_range 5). lia. Defined.

(** [decodeMulawToPcm16] writes two bytes for each input byte: read back
    as little-endian 16-bit samples they are the expansions of the input
    bytes, in order.  The store into the [Int16Array] never truncates. *)
Theorem decodeMulawToPcm16_samples (mulawBuf : Buffer) :
  length (Codec.decodeMulawToPcm16 mulawBuf) = (2 * length mulawBuf)%nat
  /\ pcm_samples (Codec.decodeMulawToPcm16 mulawBuf)
     = map (fun b => Codec.mulawToLinearSample (Z_of_byte b)) mulawBuf.
Proof.
  rewrite decodeMulawToPcm16_bytes. split.
  - rewrite length_int16_bytes. unfold decoded_samples.
    rewrite length_map. reflexivity.
  - apply pcm_samples_int16_bytes, decoded_samples_int16.
Qed.

Lemma upsample_loop_read_fails (n i j : nat) (pcm8k out : Buffer) :
  (i <= j < i + n)%nat ->
  readInt16LE pcm8k (2 * j) = None ->
  Codec.upsample_loop n i pcm8k out = None.
Proof.
  revert i out. induction n as [|n IH]; intros i out Hj Hread; [lia|].
  cbn [Codec.upsample_loop].
  destruct (decide (j = i)) as [-> | Hne].
  - rewrite Hread. reflexivity.
  - destruct (readInt16LE pcm8k (2 * i)) as [sample|]; [|reflexivity].
    cbn [mbind option_bind].
    destruct (writeInt16LE out sample (2 * (2 * i))) as [out1|];
      [|reflexivity].
    cbn [mbind option_bind].
    destruct (writeInt16LE out1 sample (2 * (2 * i + 1))) as [out2|];
      [|reflexivity].
    cbn [mbind option_bind]. apply IH; [lia | exact Hread].
Qed.

(** [upsample8kTo16k] throws exactly on the buffers of odd length (the
    last read runs past the end); on every buffer of whole samples it
    returns twice the bytes. *)
Theorem upsample8kTo16k_throws_iff_odd (pcm8k : Buffer) :
  (Codec.upsample8kTo16k pcm8k = None <-> Nat.odd (length pcm8k) = true)
  /\ (forall out,
        Codec.upsample8kTo16k pcm8k = Some out ->
        length out = (2 * length pcm8k)%nat
        /\ pcm_samples out = Codec.duplicate_samples (pcm_samples pcm8k)).
Proof.
  destruct (Nat.odd (length pcm8k)) eqn:Hodd.
  - assert (Hnone : Codec.upsample8kTo16k pcm8k = None).
    { apply Nat.odd_spec in Hodd. destruct Hodd as [k Hk].
      unfold Codec.upsample8kTo16k.
      apply (upsample_loop_read_fails _ 0 k).
      - rewrite Hk. replace (S (2 * k + 1)) with (2 * S k)%nat by lia.
        rewrite Nat.div2_double. lia.
      - unfold readInt16LE.
        rewrite (proj2 (lookup_ge_None pcm8k (S (2 * k)))) by lia.
        destruct (pcm8k !! (2 * k)%nat); reflexivity. }
    split; [split; auto|]. intros out Hout. congruence.
  - assert (Heven : exists n, length pcm8k = (2 * n)%nat).
    { destruct (Nat.Even_or_Odd (length pcm8k)) as [[n Hn] | Ho].
      - exists n. exact Hn.
      - apply Nat.odd_spec in Ho. congruence. }
    destruct Heven as [n Hn].
    destruct (upsample8kTo16k_even n pcm8k Hn) as (out & Hout & Hlen & Hs).
    split.
    + split; intros H; [congruence | discriminate H].
    + intros out' Hout'. rewrite Hout in Hout'. injection Hout' as <-. auto.
Qed.

(* ================================================================== *)
(** * Further properties of the call logger *)

(** [getInternalSecret] returns a secret exactly when the primary
    variable holds a non-empty one, or the primary variable is unset and
    the fallback holds a non-empty one.  A primary variable that is set
    but empty is not replaced by the fallback: the function throws. *)
Theorem getInternalSecret_precedence (cfg : Config) (s : jsstring) :
  (CallLogger.getInternalSecret cfg = Some s
   <-> s <> []
       /\ (ATLAS_VOICE_INTERNAL_SECRET cfg = Some s
           \/ (ATLAS_VOICE_INTERNAL_SECRET cfg = None
               /\ VOICE_SERVER_WEBHOOK_SECRET cfg = Some s)))
  /\ (ATLAS_VOICE_INTERNAL_SECRET cfg = Some [] ->
      CallLogger.getInternalSecret cfg = None).
Proof.
  unfold CallLogger.getInternalSecret. split.
  - destruct (ATLAS_VOICE_INTERNAL_SECRET cfg) as [[|c a]|];
      [| |destruct (VOICE_SERVER_WEBHOOK_SECRET cfg) as [[|c b]|]];
      cbn [Str.truthy]; split;
      try (intros H; discriminate H);
      try (intros H; injection H as <-; split; [discriminate | auto]);
      intros (Hs & [H | [H1 H2]]); congruence.
  - intros ->. reflexivity.
Qed.

Lemma stripTrailingSlash_slash (u : jsstring) :
  Str.stripTrailingSlash (u ++ [47%N]) = u.
Proof.
  unfold Str.stripTrailingSlash. rewrite rev_app_distr. cbn.
  apply rev_involutive.
Qed.

Lemma stripTrailingSlash_other (u : jsstring) :
  last u <> Some 47%N -> Str.stripTrailingSlash u = u.
Proof.
  unfold Str.stripTrailingSlash. intros Hl.
  destruct (rev u) as [|c r] eqn:E; [reflexivity|].
  destruct (c =? 47)%N eqn:Ec; [|reflexivity].
  apply N.eqb_eq in Ec. subst c. exfalso. apply Hl.
  rewrite <- (rev_involutive u), E. cbn. apply last_snoc.
Qed.

(** [getSalesCallLogUrl] throws exactly when [SUPABASE_URL] is unset or
    empty.  Otherwise it appends the function path to the base URL after
    removing one trailing slash, so a base written with or without the
    final slash gives the same endpoint. *)
Theorem getSalesCallLogUrl_normalizes (cfg : Config) :
  (CallLogger.getSalesCallLogUrl cfg = None
   <-> SUPABASE_URL cfg = None \/ SUPABASE_URL cfg = Some [])
  /\ (forall u,
        SUPABASE_URL cfg = Some (u ++ [47%N]) ->
        CallLogger.getSalesCallLogUrl cfg
        = Some (u ++ lit "/functions/v1/sales-call-log"))
  /\ (forall u,
        SUPABASE_URL cfg = Some u -> u <> [] -> last u <> Some 47%N ->
        CallLogger.getSalesCallLogUrl cfg
        = Some (u ++ lit "/functions/v1/sales-call-log")).
Proof.
  unfold CallLogger.getSalesCallLogUrl. split; [|split].
  - destruct (SUPABASE_URL cfg) as [[|c u]|]; cbn [Str.truthy]; split;
      intros H; try discriminate H; auto;
      destruct H as [H | H]; discriminate H.
  - intros u ->. rewrite stripTrailingSlash_slash.
    destruct u; reflexivity.
  - intros u -> Hne Hl. rewrite stripTrailingSlash_other by exact Hl.
    destruct u; [contradiction | reflexivity].
Qed.

(** [logCallToSupabase] throws before any request exactly when the call
    id is missing or empty, or the endpoint URL, the anon key or the
    shared secret cannot be read.  Otherwise it posts to that URL with
    the bearer key and the secret header, and a body in which an absent
    status is ["COMPLETED"], an absent direction is [OUTBOUND], and every
    other field is the payload's. *)
Theorem logCallToSupabase_request (cfg : Config)
    (payload : CallLogger.CallLogPayload) :
  (CallLogger.logCallToSupabase cfg payload = None
   <-> Str.otruthy (CallLogger.callSid payload) = false
       \/ CallLogger.getSalesCallLogUrl cfg = None
       \/ CallLogger.getSupabaseAnonKey cfg = None
       \/ CallLogger.getInternalSecret cfg = None)
  /\ (forall req,
        CallLogger.logCallToSupabase cfg payload = Some req ->
        Some (CallLogger.url req) = CallLogger.getSalesCallLogUrl cfg
        /\ (exists anonKey,
              CallLogger.getSupabaseAnonKey cfg = Some anonKey
              /\ CallLogger.authorization req = lit "Bearer " ++ anonKey)
        /\ Some (CallLogger.x_atlas_voice_secret req)
           = CallLogger.getInternalSecret cfg
        /\ Some (CallLogger.twilio_call_sid (CallLogger.body req))
           = CallLogger.callSid payload
        /\ CallLogger.status_ (CallLogger.body req)
           = default (lit "COMPLETED") (CallLogger.status payload)
        /\ CallLogger.direction_ (CallLogger.body req)
           = default OUTBOUND (CallLogger.direction payload)
        /\ CallLogger.transcript_ (CallLogger.body req)
           = CallLogger.transcript payload
        /\ CallLogger.ai_summary (CallLogger.body req)
           = CallLogger.aiSummary payload
        /\ CallLogger.ended_at (CallLogger.body req)
           = CallLogger.endedAt payload
        /\ CallLogger.model (CallLogger.body req)
           = CallLogger.modelUsed payload
        /\ CallLogger.org_id (CallLogger.body req)
           = CallLogger.orgId payload).
Proof.
  unfold CallLogger.logCallToSupabase.
  destruct (CallLogger.callSid payload) as [sid|]; cbn [Str.otruthy].
  2:{ split; [split; auto|]. intros req H. discriminate H. }
  destruct (Str.truthy sid); cbn [negb].
  2:{ split; [split; auto|]. intros req H. discriminate H. }
  destruct (CallLogger.getSalesCallLogUrl cfg) as [u|];
    cbn [mbind option_bind].
  2:{ split; [split; auto|]. intros req H. discriminate H. }
  destruct (CallLogger.getSupabaseAnonKey cfg) as [k|];
    cbn [mbind option_bind].
  2:{ split; [split; auto|]. intros req H. discriminate H. }
  destruct (CallLogger.getInternalSecret cfg) as [s|];
    cbn [mbind option_bind].
  2:{ split; [split; auto|]. intros req H. discriminate H. }
  split.
  - split; [intros H; discriminate H|].
    intros [H | [H | [H | H]]]; discriminate H.
  - intros req H. injection H as <-. cbn.
    repeat split; try reflexivity. exists k. split; reflexivity.
Qed.

(* ================================================================== *)
(** * Further properties of the session *)

(* ------------------------------------------------------------------ *)
(** ** What each handler leaves alone *)

Lemma frame_cleanup (w : World) :
  metadata (ctx (Server.cleanup w)) = metadata (ctx w)
  /\ vad_state (ctx (Server.cleanup w)) = vad_state (ctx w).
Proof. rewrite cleanup_ctx. split; reflexivity. Qed.

Lemma frame_thenCleanup_saveTail (cfg : Config) (t : jsstring)
    (s : option jsstring) (now : jsstring) (w : World) :
  metadata (ctx (Server.thenCleanup (Server.saveTail cfg t s now w)))
  = metadata (ctx w)
  /\ vad_state (ctx (Server.thenCleanup (Server.saveTail cfg t s now w)))
     = vad_state (ctx w).
Proof.
  unfold Server.saveTail.
  destruct (CallLogger.logCallToSupabase cfg _); cbn [Server.thenCleanup];
    rewrite ?cleanup_ctx; split; reflexivity.
Qed.

Lemma frame_onTwilioStop (cfg : Config) (now : jsstring) (w : World) :
  metadata (ctx (Server.onTwilioStop cfg now w)) = metadata (ctx w)
  /\ vad_state (ctx (Server.onTwilioStop cfg now w)) = vad_state (ctx w).
Proof.
  unfold Server.onTwilioStop, Server.saveTranscriptAndSummary,
    Server.generateSummaryFromTranscript.
  repeat case_match; cbn [Server.thenCleanup];
    rewrite ?cleanup_ctx;
    try (split; reflexivity).
  match goal with
  | |- context [Server.saveTail cfg ?t ?s ?n ?w0] =>
      destruct (frame_thenCleanup_saveTail cfg t s n w0) as [-> ->]
  end.
  split; reflexivity.
Qed.

Lemma frame_onOpenaiOpen (cfg : Config) (i : nat) (w : World) :
  metadata (ctx (Server.onOpenaiOpen cfg i w)) = metadata (ctx w)
  /\ vad_state (ctx (Server.onOpenaiOpen cfg i w)) = vad_state (ctx w).
Proof.
  unfold Server.onOpenaiOpen, Ws.openai_send.
  repeat case_match; simplify_eq; split; reflexivity.
Qed.

Lemma metadata_vad_update (b : bool) (now : Z) (c : TwilioStreamContext) :
  metadata (Server.vad_update b now c) = metadata c.
Proof. unfold Server.vad_update. repeat case_match; reflexivity. Qed.

(** The context after [handleTwilioMedia]: untouched when the frame is
    ignored, and otherwise changed by the turn-taking update only. *)
Lemma ctx_handleTwilioMedia_cases (cfg : Config) payload now (w : World) :
  ctx (Server.handleTwilioMedia cfg payload now w) = ctx w
  \/ exists b,
       ctx (Server.handleTwilioMedia cfg payload now w)
       = Server.vad_update b now (ctx w).
Proof.
  unfold Server.handleTwilioMedia, Server.media_error, Ws.openai_send.
  repeat case_match; simplify_eq; cbn [ctx with_ctx emit]; eauto.
Qed.

Lemma metadata_handleTwilioMedia (cfg : Config) payload now (w : World) :
  metadata (ctx (Server.handleTwilioMedia cfg payload now w))
  = metadata (ctx w).
Proof.
  destruct (ctx_handleTwilioMedia_cases cfg payload now w) as [-> | [b ->]];
    [reflexivity | apply metadata_vad_update].
Qed.

Lemma metadata_onOpenaiMessage (m : RealtimeMsg) (w : World) :
  metadata (ctx (Server.onOpenaiMessage m w)) = metadata (ctx w).
Proof.
  unfold Server.onOpenaiMessage, Ws.twilio_send.
  repeat case_match; simplify_eq; reflexivity.
Qed.

(** Only a [start] frame changes the identifiers and metadata. *)
Lemma step_metadata (cfg : Config) (w w' : World) (e : Event) :
  Server.step cfg w e = Some w' -> is_start e = false ->
  metadata (ctx w') = metadata (ctx w).
Proof.
  intros Hstep Hns.
  destruct e as [m | | | i | i m | i | i | k r now | k];
    cbn [Server.step] in Hstep.
  - injection Hstep as <-.
    destruct m as [sSid cSid params | payload now | | now | | ];
      cbn [Server.onTwilioMessage]; try reflexivity.
    + discriminate Hns.
    + apply metadata_handleTwilioMedia.
    + apply frame_onTwilioStop.
  - injection Hstep as <-. unfold Server.onTwilioClose.
    rewrite cleanup_ctx. reflexivity.
  - injection Hstep as <-. unfold Server.onTwilioError.
    rewrite cleanup_ctx. reflexivity.
  - destruct (sockets w !! i) as [[| | |]|]; try discriminate Hstep.
    injection Hstep as <-. exact (proj1 (frame_onOpenaiOpen cfg i _)).
  - destruct (sockets w !! i); [|discriminate Hstep].
    injection Hstep as <-. apply metadata_onOpenaiMessage.
  - destruct (sockets w !! i); [|discriminate Hstep].
    injection Hstep as <-. reflexivity.
  - destruct (sockets w !! i); [|discriminate Hstep].
    injection Hstep as <-. reflexivity.
  - destruct (pending w !! k) as [[t | | ]|]; try discriminate Hstep.
    injection Hstep as <-. unfold Server.resumeSummary.
    match goal with
    | |- context [Server.saveTail cfg ?t ?s ?n ?w0] =>
        destruct (frame_thenCleanup_saveTail cfg t s n w0) as [-> _]
    end.
    reflexivity.
  - destruct (pending w !! k) as [[t | | ]|]; try discriminate Hstep.
    injection Hstep as <-. unfold Server.resumeCallLog.
    rewrite cleanup_ctx. reflexivity.
Qed.

(** How one turn changes the turn-taking state: not at all, or by a
    speech event of the realtime peer, or by the energy estimate of a
    media frame. *)
Lemma step_vad (cfg : Config) (w w' : World) (e : Event) :
  Server.step cfg w e = Some w' ->
  vad_state (ctx w') = vad_state (ctx w)
  \/ (exists i now,
        e = OpenaiMessage i (SpeechStarted now)
        /\ vad_state (ctx w') = (true, Some now))
  \/ (exists i,
        e = OpenaiMessage i SpeechStopped
        /\ vad_state (ctx w') = (false, lastHumanSpeechAt (ctx w)))
  \/ (exists payload now b,
        e = TwilioMessage (TwMedia payload now)
        /\ vad_state (ctx w') = vad_state (Server.vad_update b now (ctx w))).
Proof.
  intros Hstep.
  destruct e as [m | | | i | i m | i | i | k r now | k];
    cbn [Server.step] in Hstep.
  - injection Hstep as <-.
    destruct m as [sSid cSid params | payload now | | now | | ];
      cbn [Server.onTwilioMessage]; try (left; reflexivity).
    + destruct (ctx_handleTwilioMedia_cases cfg payload now w)
        as [-> | [b ->]]; [left; reflexivity|].
      right. right. right. exists payload, now, b. auto.
    + left. apply frame_onTwilioStop.
  - injection Hstep as <-. left. unfold Server.onTwilioClose.
    rewrite cleanup_ctx. reflexivity.
  - injection Hstep as <-. left. unfold Server.onTwilioError.
    rewrite cleanup_ctx. reflexivity.
  - destruct (sockets w !! i) as [[| | |]|]; try discriminate Hstep.
    injection Hstep as <-. left. exact (proj2 (frame_onOpenaiOpen cfg i _)).
  - destruct (sockets w !! i); [|discriminate Hstep].
    injection Hstep as <-.
    destruct m as [now | | delta | delta | | callerText | | | ].
    + right. left. exists i, now. split; reflexivity.
    + right. right. left. exists i. split; reflexivity.
    + left. unfold Server.onOpenaiMessage, Ws.twilio_send.
      repeat case_match; simplify_eq; reflexivity.
    + left. unfold Server.onOpenaiMessage.
      repeat case_match; simplify_eq; reflexivity.
    + left. unfold Server.onOpenaiMessage.
      repeat case_match; simplify_eq; reflexivity.
    + left. unfold Server.onOpenaiMessage.
      repeat case_match; simplify_eq; reflexivity.
    + left. reflexivity.
    + left. reflexivity.
    + left. reflexivity.
  - destruct (sockets w !! i); [|discriminate Hstep].
    injection Hstep as <-. left. reflexivity.
  - destruct (sockets w !! i); [|discriminate Hstep].
    injection Hstep as <-. left. reflexivity.
  - destruct (pending w !! k) as [[t | | ]|]; try discriminate Hstep.
    injection Hstep as <-. left. unfold Server.resumeSummary.
    match goal with
    | |- context [Server.saveTail cfg ?t ?s ?n ?w0] =>
        destruct (frame_thenCleanup_saveTail cfg t s n w0) as [_ ->]
    end.
    reflexivity.
  - destruct (pending w !! k) as [[t | | ]|]; try discriminate Hstep.
    injection Hstep as <-. left. unfold Server.resumeCallLog.
    rewrite cleanup_ctx. reflexivity.
Qed.

(* ------------------------------------------------------------------ *)
(** ** Identifiers *)

Lemma correlation_ok_metadata (c c' : TwilioStreamContext) :
  metadata c' = metadata c -> correlation_ok c -> correlation_ok c'.
Proof.
  unfold metadata, correlation_ok. intros H.
  injection H as -> -> -> -> _ _ _ _. auto.
Qed.

Lemma correlation_ok_start sSid cSid params (w : World) :
  correlation_ok (ctx (Server.handleTwilioStart sSid cSid params w))
  /\ correlationId (ctx (Server.handleTwilioStart sSid cSid params w)) <> None
  /\ connectionId (ctx (Server.handleTwilioStart sSid cSid params w))
     = connectionId (ctx w).
Proof.
  unfold Server.handleTwilioStart, correlation_ok.
  cbn [ctx with_ctx emit set_sockets Ctx.set_start Ctx.set_openaiWs
       correlationId callSid streamSid connectionId].
  destruct cSid as [[|c cs]|], sSid as [[|d ds]|]; cbn;
    repeat split; congruence.
Qed.

Lemma run_correlation (cfg : Config) (evs : list Event) (n : nat)
    (w w' : World) :
  correlation_ok (ctx w) ->
  (n = 0%nat <-> correlationId (ctx w) = None) ->
  Server.run cfg w evs = Some w' ->
  correlation_ok (ctx w')
  /\ connectionId (ctx w') = connectionId (ctx w)
  /\ ((n + count_starts evs = 0)%nat <-> correlationId (ctx w') = None).
Proof.
  revert n w. induction evs as [|e evs IH]; intros n w Hok Hn Hrun.
  - cbn in Hrun. injection Hrun as <-. unfold count_starts. cbn.
    rewrite Nat.add_0_r. auto.
  - cbn [Server.run] in Hrun.
    destruct (Server.step cfg w e) as [w1|] eqn:Hstep; [|discriminate Hrun].
    destruct (is_start e) eqn:Hs.
    + destruct e as [[sSid cSid params | | | | | ] | | | | | | | | ];
        try discriminate Hs.
      cbn in Hstep. injection Hstep as <-.
      destruct (correlation_ok_start sSid cSid params w) as (H1 & H2 & H3).
      destruct (IH (S n) _ H1 ltac:(split; [lia | contradiction]) Hrun)
        as (Ha & Hb & Hc).
      split; [exact Ha|]. split; [congruence|].
      unfold count_starts in *. cbn [List.filter is_start length].
      rewrite <- Hc. lia.
    + pose proof (step_metadata cfg w w1 e Hstep Hs) as Hm.
      assert (Hok1 : correlation_ok (ctx w1))
        by exact (correlation_ok_metadata _ _ Hm Hok).
      assert (Hcorr : correlationId (ctx w1) = correlationId (ctx w))
        by (unfold metadata in Hm; congruence).
      assert (Hconn : connectionId (ctx w1) = connectionId (ctx w))
        by (unfold metadata in Hm; congruence).
      destruct (IH n _ Hok1 ltac:(rewrite Hcorr; exact Hn) Hrun)
        as (Ha & Hb & Hc).
      split; [exact Ha|]. split; [congruence|].
      unfold count_starts in *. cbn [List.filter]. rewrite Hs. exact Hc.
Qed.

(** Over any sequence of events the correlation id is unset until the
    first [start] frame and set ever after; once set it is the call id
    when the session has one, else the stream id when it has one, else
    the connection id.  Neither id is ever the empty string, and the
    connection id never changes. *)
Theorem correlation_id_invariant (cfg : Config) (connId : jsstring)
    (evs : list Event) (w : World) :
  Server.run cfg (Server.init connId) evs = Some w ->
  correlation_ok (ctx w)
  /\ connectionId (ctx w) = connId
  /\ (count_starts evs = 0%nat <-> correlationId (ctx w) = None).
Proof.
  intros Hrun.
  assert (H0 : correlation_ok (ctx (Server.init connId)))
    by (unfold correlation_ok; cbn; repeat split; congruence).
  destruct (run_correlation cfg evs 0 _ _ H0 ltac:(cbn; tauto) Hrun)
    as (Ha & Hb & Hc).
  auto.
Qed.

Lemma correlation_id_invariant_witness :
  correlation_ok (ctx sample_session)
  /\ connectionId (ctx sample_session) = lit "conn"
  /\ (count_starts [sample_start; OpenaiOpen 0; sample_caller_line] = 0%nat
      <-> correlationId (ctx sample_session) = None).
Proof.
  exact (correlation_id_invariant sample_cfg (lit "conn")
           [sample_start; OpenaiOpen 0; sample_caller_line]
           sample_session ltac:(vm_compute; reflexivity)).
Defined.

(** Identifiers and call metadata (direction, call type, notes of the
    last call) change on a [start] frame only: every other turn of the
    event loop leaves them as they are. *)
Theorem metadata_changes_on_start_only (cfg : Config) (w w' : World)
    (e : Event) :
  Server.step cfg w e = Some w' ->
  is_start e = false ->
  metadata (ctx w') = metadata (ctx w).
Proof. exact (step_metadata cfg w w' e). Qed.

Lemma metadata_changes_on_start_only_witness :
  metadata (ctx (Server.onTwilioStop sample_cfg (lit "now") sample_session))
  = metadata (ctx sample_session).
Proof.
  exact (metadata_changes_on_start_only sample_cfg sample_session
           (Server.onTwilioStop sample_cfg (lit "now") sample_session)
           (TwilioMessage (TwStop (lit "now"))) eq_refl eq_refl).
Defined.

(* ------------------------------------------------------------------ *)
(** ** Turn taking *)

Lemma vad_ok_update (b : bool) (now : Z) (c : TwilioStreamContext) :
  vad_ok c -> vad_ok (Server.vad_update b now c).
Proof.
  unfold vad_ok, Server.vad_update. intros Hok.
  repeat case_match; cbn; intros Hsp; try discriminate; auto.
Qed.

Lemma vad_ok_state (c c' : TwilioStreamContext) :
  vad_state c' = vad_state c -> vad_ok c -> vad_ok c'.
Proof.
  unfold vad_state, vad_ok. intros H. injection H as -> ->. auto.
Qed.

Lemma step_vad_ok (cfg : Config) (w w' : World) (e : Event) :
  vad_ok (ctx w) -> Server.step cfg w e = Some w' -> vad_ok (ctx w').
Proof.
  intros Hok Hstep.
  destruct (step_vad cfg w w' e Hstep)
    as [H | [(i & now & _ & H) | [(i & _ & H) | (p & now & b & _ & H)]]].
  - exact (vad_ok_state _ _ H Hok).
  - unfold vad_state in H. injection H as H1 H2.
    unfold vad_ok. rewrite H2. discriminate.
  - unfold vad_state in H. injection H as H1 H2.
    unfold vad_ok. rewrite H1. discriminate.
  - exact (vad_ok_state _ _ H (vad_ok_update b now _ Hok)).
Qed.

(** Over any sequence of events, whenever the caller is marked as
    speaking the time of the last speech is set: every path that raises
    the flag stamps the time, and no path clears the time. *)
Theorem speaking_has_timestamp (cfg : Config) (connId : jsstring)
    (evs : list Event) (w : World) :
  Server.run cfg (Server.init connId) evs = Some w ->
  humanSpeaking (ctx w) = true -> lastHumanSpeechAt (ctx w) <> None.
Proof.
  intros Hrun.
  assert (H0 : vad_ok (ctx (Server.init connId)))
    by (unfold vad_ok; cbn; discriminate).
  revert Hrun H0. generalize (Server.init connId). revert w.
  induction evs as [|e evs IH]; intros w w0 Hrun H0.
  - cbn in Hrun. injection Hrun as <-. exact H0.
  - cbn [Server.run] in Hrun.
    destruct (Server.step cfg w0 e) as [w1|] eqn:Hstep; [|discriminate Hrun].
    exact (IH w w1 Hrun (step_vad_ok cfg w0 w1 e H0 Hstep)).
Qed.

Lemma speaking_has_timestamp_witness :
  exists w,
    Server.run sample_cfg (Server.init (lit "conn"))
      [sample_start; OpenaiOpen 0; OpenaiMessage 0 (SpeechStarted 42)]
    = Some w
    /\ humanSpeaking (ctx w) = true
    /\ lastHumanSpeechAt (ctx w) <> None.
Proof.
  eexists. split; [vm_compute; reflexivity|]. split; [reflexivity|].
  apply (speaking_has_timestamp sample_cfg (lit "conn")
           [sample_start; OpenaiOpen 0; OpenaiMessage 0 (SpeechStarted 42)]);
    reflexivity.
Defined.

Lemma vad_update_clears (b : bool) (now : Z) (c : TwilioStreamContext) :
  humanSpeaking c = true ->
  humanSpeaking (Server.vad_update b now c) = false ->
  b = false /\ exists t, lastHumanSpeechAt c = Some t /\ 600 < now - t.
Proof.
  unfold Server.vad_update. intros Hs. rewrite Hs.
  destruct b; cbn; [discriminate|].
  destruct (lastHumanSpeechAt c) as [t|]; cbn.
  - destruct (600 <? now - t) eqn:E; cbn; intros H; [|congruence].
    split; [reflexivity|]. exists t. split; [reflexivity|].
    apply Z.ltb_lt. exact E.
  - congruence.
Qed.

(** Once the caller is marked as speaking, only two things clear the
    mark: a speech-stopped event of the realtime peer, or a media frame
    handled more than 600 ms after the last detected speech.  No other
    event (stop, close, errors, agent audio or text) clears it. *)
Theorem speaking_cleared_only_by (cfg : Config) (w w' : World) (e : Event) :
  Server.step cfg w e = Some w' ->
  humanSpeaking (ctx w) = true ->
  humanSpeaking (ctx w') = false ->
  (exists i, e = OpenaiMessage i SpeechStopped)
  \/ (exists payload now t,
        e = TwilioMessage (TwMedia payload now)
        /\ lastHumanSpeechAt (ctx w) = Some t
        /\ 600 < now - t).
Proof.
  intros Hstep Hs Hc.
  destruct (step_vad cfg w w' e Hstep)
    as [H | [(i & now & _ & H) | [(i & -> & _) | (p & now & b & -> & H)]]].
  - unfold vad_state in H. congruence.
  - unfold vad_state in H. congruence.
  - left. eauto.
  - right. unfold vad_state in H. injection H as H1 _.
    rewrite H1 in Hc.
    destruct (vad_update_clears b now _ Hs Hc) as (_ & t & Ht & Hlt).
    exists p, now, t. auto.
Qed.

Lemma speaking_cleared_only_by_witness :
  (exists i,
     OpenaiMessage 0 SpeechStopped = OpenaiMessage i SpeechStopped)
  \/ (exists payload now t,
        OpenaiMessage 0 SpeechStopped = TwilioMessage (TwMedia payload now)
        /\ lastHumanSpeechAt
             (ctx (Server.onOpenaiMessage (SpeechStarted 42) sample_session))
           = Some t
        /\ 600 < now - t).
Proof.
  apply (speaking_cleared_only_by sample_cfg
           (Server.onOpenaiMessage (SpeechStarted 42) sample_session)
           (Server.onOpenaiMessage SpeechStopped
              (Server.onOpenaiMessage (SpeechStarted 42) sample_session))
           (OpenaiMessage 0 SpeechStopped)).
  - vm_compute. reflexivity.
  - reflexivity.
  - reflexivity.
Defined.

Lemma energy_loop_sum (post pre : list Z) (acc : Z) :
  Forall int16 (pre ++ post) ->
  Server.energy_loop (length post) (length pre)
    (int16_bytes (pre ++ post)) acc
  = Some (acc + sum_abs post).
Proof.
  revert pre acc. induction post as [|s post IH]; intros pre acc Hall.
  - cbn. f_equal. lia.
  - assert (Hs : int16 s).
    { apply Forall_app in Hall as [_ Hp]. apply Forall_cons in Hp as [Hs _].
      exact Hs. }
    cbn [Server.energy_loop length].
    rewrite readInt16LE_int16_bytes by exact Hs.
    cbn [mbind option_bind].
    assert (E1 : (pre ++ [s]) ++ post = pre ++ s :: post)
      by (rewrite <- app_assoc; reflexivity).
    assert (E2 : length (pre ++ [s]) = S (length pre))
      by (rewrite length_app; cbn; lia).
    specialize (IH (pre ++ [s]) (acc + Z.abs s)).
    rewrite E1, E2 in IH. rewrite IH by exact Hall.
    f_equal. cbn [sum_abs fold_right]. fold (sum_abs post). lia.
Qed.

Lemma sum_abs_nonneg (ss : list Z) : 0 <= sum_abs ss.
Proof.
  induction ss as [|s ss IH]; cbn; [lia|]. fold (sum_abs ss). lia.
Qed.

(** Once the realtime link is ready, every media frame with a payload
    runs the energy estimate, whether or not the frame can then be
    forwarded: the caller is marked as speaking exactly when the mean
    absolute value of the decoded samples exceeds 500, and otherwise the
    mark is cleared only after 600 ms without speech.  An empty frame is
    never loud.  Nothing else of the context changes. *)
Theorem media_energy_decision (cfg : Config) (w : World)
    (payloadBase64 : jsstring) (now : Z) (i : nat) :
  Str.truthy payloadBase64 = true ->
  openaiWs (ctx w) = Some i ->
  openaiReady (ctx w) = true ->
  let samples := decoded_samples (base64Decode cfg payloadBase64) in
  ctx (Server.handleTwilioMedia cfg (Some payloadBase64) now w)
  = Server.vad_update
      (Server.ENERGY_THRESHOLD * Z.of_nat (length samples) <? sum_abs samples)
      now (ctx w).
Proof.
  intros Hp Hi Hr. cbv zeta. unfold Server.handleTwilioMedia.
  rewrite Hp, Hi, Hr. cbn [negb].
  set (mulawBuf := base64Decode cfg payloadBase64).
  assert (Hen : Server.energy_loop
                  (Nat.div2 (S (length (Codec.decodeMulawToPcm16 mulawBuf)))) 0
                  (Codec.decodeMulawToPcm16 mulawBuf) 0
                = Some (sum_abs (decoded_samples mulawBuf))).
  { rewrite decodeMulawToPcm16_bytes, length_int16_bytes.
    rewrite Nat.div2_succ_double.
    exact (energy_loop_sum (decoded_samples mulawBuf) [] 0
             (decoded_samples_int16 mulawBuf)). }
  rewrite Hen, decode_upsample.
  assert (Hloud : Server.loud (Codec.decodeMulawToPcm16 mulawBuf)
                    (sum_abs (decoded_samples mulawBuf))
                  = (Server.ENERGY_THRESHOLD
                     * Z.of_nat (length (decoded_samples mulawBuf))
                     <? sum_abs (decoded_samples mulawBuf))).
  { unfold Server.loud, Server.ENERGY_THRESHOLD.
    rewrite decodeMulawToPcm16_bytes, length_int16_bytes.
    pose proof (sum_abs_nonneg (decoded_samples mulawBuf)) as Hnn.
    destruct (decoded_samples mulawBuf) as [|s ss] eqn:E.
    - reflexivity.
    - set (n := length (s :: ss)).
      assert (Hn : (0 < n)%nat) by (unfold n; cbn; lia).
      replace (0 <? Z.of_nat (2 * n)) with true
        by (symmetry; apply Z.ltb_lt; lia).
      cbn [andb].
      destruct (Z.ltb_spec (500 * Z.of_nat (2 * n)) (2 * sum_abs (s :: ss)));
        destruct (Z.ltb_spec (500 * Z.of_nat n) (sum_abs (s :: ss)));
        try reflexivity; lia. }
  rewrite Hloud. unfold Ws.openai_send, Server.media_error.
  cbn [sockets with_ctx].
  destruct (sockets w !! i) as [[| | |]|]; reflexivity.
Qed.

Lemma media_energy_decision_witness :
  ctx (Server.handleTwilioMedia sample_cfg (Some (lit "ab")) 10 sample_session)
  = Server.vad_update
      (Server.ENERGY_THRESHOLD
       * Z.of_nat (length (decoded_samples (base64Decode sample_cfg (lit "ab"))))
       <? sum_abs (decoded_samples (base64Decode sample_cfg (lit "ab"))))
      10 (ctx sample_session).
Proof.
  apply (media_energy_decision sample_cfg sample_session (lit "ab") 10 0%nat);
    reflexivity.
Defined.

(* ------------------------------------------------------------------ *)
(** ** Lifecycle *)

Lemma cleanup_fixed (w : World) :
  openaiWs (ctx w) = None -> openaiReady (ctx w) = false ->
  twilioWs w <> OPEN ->
  Server.cleanup w = w.
Proof.
  destruct w as [c t s p tr]. destruct c. cbn. intros -> -> Ht.
  unfold Server.cleanup. cbn.
  rewrite bool_decide_eq_false_2 by exact Ht. reflexivity.
Qed.

(** [cleanup] is idempotent: run again on a session it has cleaned, it
    changes nothing and calls [close] on no socket. *)
Theorem cleanup_idempotent (w : World) :
  Server.cleanup (Server.cleanup w) = Server.cleanup w.
Proof.
  apply cleanup_fixed.
  - rewrite cleanup_ctx. reflexivity.
  - rewrite cleanup_ctx. reflexivity.
  - apply cleanup_twilio_not_open.
Qed.

Lemma quiet_not_http e : quiet e = true -> is_http e = false.
Proof.
  unfold quiet. intros H. apply negb_true_iff, orb_false_iff in H. tauto.
Qed.

(** The call-log step either issues its post and waits, touching no
    socket, or issues nothing and cleans up. *)
Lemma saveTail_cases (cfg : Config) (t : jsstring) (s : option jsstring)
    (now : jsstring) (w : World) :
  (exists req,
     CallLogger.logCallToSupabase cfg
       (Server.callLogPayload cfg t s now (ctx w)) = Some req
     /\ Server.thenCleanup (Server.saveTail cfg t s now w)
        = Server.add_pending AwaitCallLog (emit (HttpCallLog req) w))
  \/ (CallLogger.logCallToSupabase cfg
        (Server.callLogPayload cfg t s now (ctx w)) = None
      /\ Server.thenCleanup (Server.saveTail cfg t s now w)
         = Server.cleanup (emit (Log "calllog_unexpected_error") w)).
Proof.
  unfold Server.saveTail.
  destruct (CallLogger.logCallToSupabase cfg _) as [req|];
    cbn [Server.thenCleanup]; eauto.
Qed.

(** A turn of the event loop that issues an HTTP request closes no
    socket: the socket table, the telephony socket's state, the realtime
    handle and the ready flag are as before and [close] is not called.
    The sockets of a finalization are closed in a later turn, when the
    answer to its call-log post arrives. *)
Theorem request_turn_closes_nothing (cfg : Config) (w w' : World) (e : Event) :
  Server.step cfg w e = Some w' ->
  (count is_http (trace w) < count is_http (trace w'))%nat ->
  sockets w' = sockets w
  /\ twilioWs w' = twilioWs w
  /\ openaiWs (ctx w') = openaiWs (ctx w)
  /\ openaiReady (ctx w') = openaiReady (ctx w)
  /\ count is_close_call (trace w') = count is_close_call (trace w)
  /\ length (pending w') = S (length (pending w)).
Proof.
  intros Hstep Hhttp.
  assert (Hquiet : (forall p, (forall e, quiet e = true -> p e = false) ->
                      count p (trace w') = count p (trace w)) -> False).
  { intros Hc. rewrite (Hc _ quiet_not_http) in Hhttp. lia. }
  assert (Htail : forall t s now w0,
            sockets w0 = sockets w -> twilioWs w0 = twilioWs w ->
            openaiWs (ctx w0) = openaiWs (ctx w) ->
            openaiReady (ctx w0) = openaiReady (ctx w) ->
            count is_close_call (trace w0) = count is_close_call (trace w) ->
            count is_http (trace w0) = count is_http (trace w) ->
            length (pending w0) = length (pending w) ->
            w' = Server.thenCleanup (Server.saveTail cfg t s now w0) ->
            sockets w' = sockets w
            /\ twilioWs w' = twilioWs w
            /\ openaiWs (ctx w') = openaiWs (ctx w)
            /\ openaiReady (ctx w') = openaiReady (ctx w)
            /\ count is_close_call (trace w') = count is_close_call (trace w)
            /\ length (pending w') = S (length (pending w))).
  { intros t s now w0 H1 H2 H3 H4 H5 H6 H7 Hw'.
    destruct (saveTail_cases cfg t s now w0) as [(req & _ & Heq) | (_ & Heq)];
      rewrite Heq in Hw'; subst w'.
    - cbn [Server.add_pending set_pending emit sockets twilioWs ctx trace
           pending].
      rewrite count_app, length_app. cbn. repeat split; try assumption; lia.
    - exfalso. rewrite count_cleanup in Hhttp by (intros; reflexivity).
      rewrite count_emit in Hhttp. cbn in Hhttp. lia. }
  destruct e as [m | | | i | i m | i | i | k r now | k];
    cbn [Server.step] in Hstep.
  - injection Hstep as Hw'.
    destruct m as [sSid cSid params | payload now | | now | | ];
      cbn [Server.onTwilioMessage] in Hw'.
    + exfalso. apply Hquiet. intros p Hq. subst w'.
      apply quiet_handleTwilioStart; exact Hq.
    + exfalso. apply Hquiet. intros p Hq. subst w'.
      apply quiet_handleTwilioMedia; exact Hq.
    + exfalso. apply Hquiet. intros p Hq. subst w'.
      rewrite count_emit, Hq by reflexivity. lia.
    + unfold Server.onTwilioStop, Server.saveTranscriptAndSummary,
        Server.generateSummaryFromTranscript in Hw'.
      cbn [ctx emit] in Hw'.
      destruct (Str.otruthy (callSid (ctx w))); cbn [negb] in Hw'.
      2:{ exfalso. subst w'. cbn [Server.thenCleanup] in Hhttp.
          rewrite count_cleanup in Hhttp by (intros; reflexivity).
          rewrite !count_emit in Hhttp. cbn in Hhttp. lia. }
      destruct (Str.truthy (Str.trim (transcript (ctx w)))); cbn [negb] in Hw'.
      2:{ exfalso. subst w'. cbn [Server.thenCleanup] in Hhttp.
          rewrite count_cleanup in Hhttp by (intros; reflexivity).
          rewrite !count_emit in Hhttp. cbn in Hhttp. lia. }
      destruct (40 <=? length (Str.trim (transcript (ctx w))))%nat.
      * subst w'.
        cbn [Server.thenCleanup Server.add_pending set_pending emit sockets
             twilioWs ctx trace pending].
        rewrite !count_app, length_app. cbn. repeat split; lia.
      * symmetry in Hw'. eapply Htail; [..|exact Hw']; try reflexivity;
          cbn [emit trace]; rewrite !count_app; cbn; lia.
    + exfalso. apply Hquiet. intros p Hq. subst w'.
      rewrite count_emit, Hq by reflexivity. lia.
    + exfalso. apply Hquiet. intros p Hq. subst w'.
      rewrite count_emit, Hq by reflexivity. lia.
  - exfalso. injection Hstep as <-. apply Hquiet. intros p Hq.
    rewrite quiet_onTwilioClose by exact Hq. reflexivity.
  - exfalso. injection Hstep as <-. apply Hquiet. intros p Hq.
    rewrite quiet_onTwilioError by exact Hq. reflexivity.
  - exfalso. destruct (sockets w !! i) as [[| | |]|]; try discriminate Hstep.
    injection Hstep as <-. apply Hquiet. intros p Hq.
    rewrite quiet_onOpenaiOpen by exact Hq. reflexivity.
  - exfalso. destruct (sockets w !! i); [|discriminate Hstep].
    injection Hstep as <-. apply Hquiet. intros p Hq.
    apply quiet_onOpenaiMessage; exact Hq.
  - exfalso. destruct (sockets w !! i); [|discriminate Hstep].
    injection Hstep as <-. apply Hquiet. intros p Hq.
    rewrite quiet_onOpenaiClose by exact Hq. reflexivity.
  - exfalso. destruct (sockets w !! i); [|discriminate Hstep].
    injection Hstep as <-. apply Hquiet. intros p Hq.
    rewrite quiet_onOpenaiError by exact Hq. reflexivity.
  - destruct (pending w !! k) as [[t | | ]|] eqn:Hk; try discriminate Hstep.
    injection Hstep as Hw'. unfold Server.resumeSummary in Hw'.
    symmetry in Hw'. eapply Htail; [..|exact Hw']; try reflexivity.
    + cbn [emit trace Server.settle set_pending]. rewrite count_app.
      cbn. lia.
    + cbn [emit trace Server.settle set_pending]. rewrite count_app.
      cbn. lia.
    + cbn [emit pending Server.settle set_pending].
      apply length_insert.
  - exfalso.
    destruct (pending w !! k) as [[t | | ]|] eqn:Hk; try discriminate Hstep.
    injection Hstep as <-. unfold Server.resumeCallLog in Hhttp.
    rewrite count_cleanup in Hhttp by (intros; reflexivity).
    cbn in Hhttp. lia.
Qed.

Lemma request_turn_closes_nothing_witness :
  sockets (Server.onTwilioStop sample_cfg (lit "now") sample_session)
  = sockets sample_session
  /\ twilioWs (Server.onTwilioStop sample_cfg (lit "now") sample_session)
     = twilioWs sample_session.
Proof.
  assert (H : (count is_http (trace sample_session)
               < count is_http
                   (trace (Server.onTwilioStop sample_cfg (lit "now")
                             sample_session)))%nat)
    by (vm_compute; lia).
  destruct (request_turn_closes_nothing sample_cfg sample_session
              (Server.onTwilioStop sample_cfg (lit "now") sample_session)
              (TwilioMessage (TwStop (lit "now"))) eq_refl H)
    as (H1 & H2 & _).
  split; assumption.
Defined.

(** When a realtime socket of the session closes or errors, the session
    is not finalized and the telephony side is left alone: no finalizer
    entry, no HTTP request, no [close] call, transcript and pending
    requests unchanged.  The ready flag goes down, so every later media
    frame is dropped without a trace until a new [start]; this holds
    also when the socket that closed is an older one than the session's
    current socket. *)
Theorem realtime_close_stops_forwarding (cfg : Config) (w w' : World)
    (i : nat) :
  Server.step cfg w (OpenaiClosed i) = Some w'
  \/ Server.step cfg w (OpenaiErrored i) = Some w' ->
  (forall payload now, Server.handleTwilioMedia cfg payload now w' = w')
  /\ openaiReady (ctx w') = false
  /\ count is_finalizer_entry (trace w') = count is_finalizer_entry (trace w)
  /\ count is_http (trace w') = count is_http (trace w)
  /\ count is_close_call (trace w') = count is_close_call (trace w)
  /\ twilioWs w' = twilioWs w
  /\ transcript (ctx w') = transcript (ctx w)
  /\ pending w' = pending w.
Proof.
  intros Hstep.
  assert (Hdrop : forall v : World,
            openaiReady (ctx v) = false ->
            forall payload now, Server.handleTwilioMedia cfg payload now v = v).
  { intros v Hr payload now. unfold Server.handleTwilioMedia.
    destruct payload as [p|]; [|reflexivity].
    destruct (Str.truthy p); cbn [negb]; [|reflexivity].
    destruct (openaiWs (ctx v)); [|reflexivity].
    rewrite Hr. reflexivity. }
  destruct Hstep as [Hstep | Hstep]; cbn [Server.step] in Hstep;
    destruct (sockets w !! i); try discriminate Hstep;
    injection Hstep as <-;
    (split; [intros payload now; apply Hdrop; reflexivity|]);
    unfold Server.onOpenaiClose, Server.onOpenaiError;
    cbn [trace with_ctx emit set_sockets twilioWs pending ctx
         Ctx.set_openaiWs Ctx.set_openaiReady openaiReady transcript];
    rewrite !count_app; cbn; repeat split; lia.
Qed.

Lemma realtime_close_stops_forwarding_witness :
  Server.handleTwilioMedia sample_cfg (Some (lit "AAAA")) 7
    (Server.onOpenaiClose
       (set_sockets (<[0%nat := CLOSED]> (sockets sample_session))
          sample_session))
  = Server.onOpenaiClose
      (set_sockets (<[0%nat := CLOSED]> (sockets sample_session))
         sample_session).
Proof.
  assert (Hstep : Server.step sample_cfg sample_session (OpenaiClosed 0)
                  = Some (Server.onOpenaiClose
                            (set_sockets
                               (<[0%nat := CLOSED]> (sockets sample_session))
                               sample_session)))
    by (vm_compute; reflexivity).
  exact (proj1 (realtime_close_stops_forwarding sample_cfg sample_session
                  _ 0%nat (or_introl Hstep)) (Some (lit "AAAA")) 7).
Defined.

(** When the summary request of a finalization succeeds with non-blank
    content, the finalization logs it and posts the call log with the
    trimmed content as [ai_summary] and, as transcript, the text that was
    trimmed when the [stop] arrived: whatever was transcribed while the
    summary was awaited is not in the post.  The call id and the
    direction are read when the post is built. *)
Theorem summary_success_is_posted (cfg : Config) (w : World) (k : nat)
    (t c now : jsstring) (req : CallLogger.Request) :
  pending w !! k = Some (AwaitSummary t) ->
  Str.trim c <> [] ->
  CallLogger.logCallToSupabase cfg
    (Server.callLogPayload cfg t (Some (Str.trim c)) now (ctx w)) = Some req ->
  Server.step cfg w (SummaryResponse k (SummaryContent (Some c)) now)
  = Some (Server.add_pending AwaitCallLog
            (emit (HttpCallLog req)
               (emit (Log "summary_response_ok") (Server.settle k w))))
  /\ CallLogger.ai_summary (CallLogger.body req) = Some (Str.trim c)
  /\ CallLogger.transcript_ (CallLogger.body req) = Some t
  /\ Some (CallLogger.twilio_call_sid (CallLogger.body req)) = callSid (ctx w)
  /\ CallLogger.direction_ (CallLogger.body req) = direction (ctx w)
  /\ CallLogger.ended_at (CallLogger.body req) = Some now
  /\ CallLogger.model (CallLogger.body req) = Some (OPENAI_SUMMARY_MODEL cfg).
Proof.
  intros Hk Hc Hreq.
  assert (Htr : Str.truthy (Str.trim c) = true).
  { destruct (Str.truthy _) eqn:E; [reflexivity|].
    apply truthy_false_nil in E. contradiction. }
  assert (Hcn : Str.truthy c = true).
  { destruct c; [contradiction Hc; reflexivity | reflexivity]. }
  split.
  - cbn [Server.step]. rewrite Hk. unfold Server.resumeSummary.
    cbn [Server.summary_of_result]. rewrite Htr, Hcn. cbn [andb fst snd].
    unfold Server.saveTail. cbn [ctx emit Server.settle set_pending].
    rewrite Hreq. reflexivity.
  - unfold CallLogger.logCallToSupabase in Hreq.
    cbn [Server.callLogPayload CallLogger.callSid] in Hreq.
    destruct (callSid (ctx w)) as [sid|]; [|discriminate Hreq].
    destruct (Str.truthy sid); cbn [negb] in Hreq; [|discriminate Hreq].
    destruct (CallLogger.getSalesCallLogUrl cfg); [|discriminate Hreq].
    destruct (CallLogger.getSupabaseAnonKey cfg); [|discriminate Hreq].
    destruct (CallLogger.getInternalSecret cfg); [|discriminate Hreq].
    cbn in Hreq. injection Hreq as <-. cbn. repeat split; reflexivity.
Qed.

Lemma summary_success_is_posted_witness :
  exists req,
    Server.step sample_cfg
      (Server.onTwilioStop sample_cfg (lit "t0") sample_session)
      (SummaryResponse 0 (SummaryContent (Some (lit " Good call. "))) (lit "t1"))
    = Some (Server.add_pending AwaitCallLog
              (emit (HttpCallLog req)
                 (emit (Log "summary_response_ok")
                    (Server.settle 0
                       (Server.onTwilioStop sample_cfg (lit "t0")
                          sample_session)))))
    /\ CallLogger.ai_summary (CallLogger.body req) = Some (lit "Good call.").
Proof.
  eexists.
  refine (let H := summary_success_is_posted sample_cfg
                     (Server.onTwilioStop sample_cfg (lit "t0") sample_session)
                     0%nat _ (lit " Good call. ") (lit "t1") _ _ _ _
          in conj (proj1 H) (proj1 (proj2 H))).
  - vm_compute. reflexivity.
  - vm_compute. discriminate.
  - vm_compute. reflexivity.
Defined.

Lemma run_transcript_prefix (cfg : Config) (evs : list Event) (w w' : World) :
  Server.run cfg w evs = Some w' ->
  exists rest, transcript (ctx w') = transcript (ctx w) ++ rest.
Proof.
  revert w. induction evs as [|e evs IH]; intros w Hrun.
  - cbn in Hrun. injection Hrun as <-. exists []. rewrite app_nil_r.
    reflexivity.
  - cbn [Server.run] in Hrun.
    destruct (Server.step cfg w e) as [w1|] eqn:Hstep; [|discriminate Hrun].
    destruct (IH w1 Hrun) as [rest Hrest].
    destruct (step_transcript cfg w w1 e Hstep)
      as [H | [(i & t & _ & _ & H) | (i & _ & _ & H & _)]];
      rewrite H in Hrest; rewrite Hrest.
    + eauto.
    + rewrite <- app_assoc. eauto.
    + rewrite <- app_assoc. eauto.
Qed.

(** The transcript is append-only: from any state and over any sequence
    of events, including new [start] frames, stops and socket failures,
    the transcript afterwards begins with the transcript before. *)
Theorem transcript_append_only (cfg : Config) (evs : list Event)
    (w w' : World) :
  Server.run cfg w evs = Some w' ->
  exists rest, transcript (ctx w') = transcript (ctx w) ++ rest.
Proof. exact (run_transcript_prefix cfg evs w w'). Qed.

Lemma transcript_append_only_witness :
  exists rest,
    transcript (ctx (Server.onTwilioStop sample_cfg (lit "now") sample_session))
    = transcript (ctx sample_session) ++ rest.
Proof.
  exact (transcript_append_only sample_cfg
           [TwilioMessage (TwStop (lit "now"))] sample_session
           (Server.onTwilioStop sample_cfg (lit "now") sample_session)
           eq_refl).
Defined.

(* ------------------------------------------------------------------ *)
(** ** Realtime connections *)

Lemma degrade_length (l l' : list ReadyState) :
  degrade l l' -> length l' = length l.
Proof.
  intros [-> | (i & s & s' & _ & -> & _)]; [reflexivity|].
  apply length_insert.
Qed.

(** The socket table after one turn: a [start] frame appends one
    connecting socket, every other turn keeps the table's length. *)
Lemma step_sockets (cfg : Config) (w w' : World) (e : Event) :
  Server.step cfg w e = Some w' ->
  if is_start e then sockets w' = sockets w ++ [CONNECTING]
  else length (sockets w') = length (sockets w).
Proof.
  intros Hstep.
  destruct e as [m | | | i | i m | i | i | k r now | k];
    cbn [Server.step] in Hstep; cbn [is_start].
  - injection Hstep as <-.
    destruct m as [sSid cSid params | payload now | | now | | ];
      cbn [Server.onTwilioMessage]; try reflexivity.
    + rewrite sockets_handleTwilioMedia. reflexivity.
    + apply degrade_length, degrade_onTwilioStop.
  - injection Hstep as <-.
    exact (degrade_length _ _
             (degrade_cleanup (emit (Log "twilio_ws_connection_closed")
                                 (set_twilioWs CLOSED w)))).
  - injection Hstep as <-.
    exact (degrade_length _ _
             (degrade_cleanup (emit (Log "twilio_ws_connection_error")
                                 (set_twilioWs (Ws.errored (twilioWs w)) w)))).
  - destruct (sockets w !! i) as [[| | |]|] eqn:Hi; try discriminate Hstep.
    injection Hstep as <-.
    assert (Hlt : (i < length (sockets w))%nat)
      by (apply lookup_lt_is_Some; eauto).
    rewrite (proj1 (onOpenaiOpen_sent cfg i
                      (set_sockets (<[i := OPEN]> (sockets w)) w)
                      ltac:(cbn; apply list_lookup_insert_eq; exact Hlt))).
    cbn. apply length_insert.
  - destruct (sockets w !! i); [|discriminate Hstep].
    injection Hstep as <-. rewrite sockets_onOpenaiMessage. reflexivity.
  - destruct (sockets w !! i); [|discriminate Hstep].
    injection Hstep as <-. cbn. apply length_insert.
  - destruct (sockets w !! i); [|discriminate Hstep].
    injection Hstep as <-. cbn. apply length_insert.
  - destruct (pending w !! k) as [[t | | ]|]; try discriminate Hstep.
    injection Hstep as <-. unfold Server.resumeSummary.
    match goal with
    | |- context [Server.saveTail cfg ?t ?s ?n ?w0] =>
        exact (degrade_length _ _ (degrade_thenCleanup_saveTail cfg t s n w0))
    end.
  - destruct (pending w !! k) as [[t | | ]|]; try discriminate Hstep.
    injection Hstep as <-.
    exact (degrade_length _ _ (degrade_cleanup (Server.settle k w))).
Qed.

Lemma handle_thenCleanup_saveTail (cfg : Config) (t : jsstring)
    (s : option jsstring) (now : jsstring) (w : World) :
  openaiWs (ctx (Server.thenCleanup (Server.saveTail cfg t s now w))) = None
  \/ openaiWs (ctx (Server.thenCleanup (Server.saveTail cfg t s now w)))
     = openaiWs (ctx w).
Proof.
  destruct (saveTail_cases cfg t s now w) as [(req & _ & ->) | (_ & ->)].
  - right. reflexivity.
  - left. rewrite cleanup_ctx. reflexivity.
Qed.

(** The realtime handle after one turn: the index of the new socket on
    a [start] frame; otherwise cleared or as before. *)
Lemma step_handle (cfg : Config) (w w' : World) (e : Event) :
  Server.step cfg w e = Some w' ->
  if is_start e then openaiWs (ctx w') = Some (length (sockets w))
  else openaiWs (ctx w') = None \/ openaiWs (ctx w') = openaiWs (ctx w).
Proof.
  intros Hstep.
  destruct e as [m | | | i | i m | i | i | k r now | k];
    cbn [Server.step] in Hstep; cbn [is_start].
  - injection Hstep as <-.
    destruct m as [sSid cSid params | payload now | | now | | ];
      cbn [Server.onTwilioMessage]; try (right; reflexivity).
    + reflexivity.
    + right.
      destruct (ctx_handleTwilioMedia_cases cfg payload now w)
        as [-> | [b ->]]; [reflexivity|].
      unfold Server.vad_update. repeat case_match; reflexivity.
    + unfold Server.onTwilioStop, Server.saveTranscriptAndSummary,
        Server.generateSummaryFromTranscript.
      repeat case_match; cbn [Server.thenCleanup];
        try (left; rewrite cleanup_ctx; reflexivity);
        try (right; reflexivity).
      match goal with
      | |- context [Server.saveTail cfg ?t ?s ?n ?w0] =>
          exact (handle_thenCleanup_saveTail cfg t s n w0)
      end.
  - injection Hstep as <-. left. unfold Server.onTwilioClose.
    rewrite cleanup_ctx. reflexivity.
  - injection Hstep as <-. left. unfold Server.onTwilioError.
    rewrite cleanup_ctx. reflexivity.
  - destruct (sockets w !! i) as [[| | |]|]; try discriminate Hstep.
    injection Hstep as <-. right.
    unfold Server.onOpenaiOpen, Ws.openai_send.
    repeat case_match; simplify_eq; reflexivity.
  - destruct (sockets w !! i); [|discriminate Hstep].
    injection Hstep as <-. right.
    unfold Server.onOpenaiMessage, Ws.twilio_send.
    repeat case_match; simplify_eq; reflexivity.
  - destruct (sockets w !! i); [|discriminate Hstep].
    injection Hstep as <-. left. reflexivity.
  - destruct (sockets w !! i); [|discriminate Hstep].
    injection Hstep as <-. right. reflexivity.
  - destruct (pending w !! k) as [[t | | ]|]; try discriminate Hstep.
    injection Hstep as <-. unfold Server.resumeSummary.
    match goal with
    | |- context [Server.saveTail cfg ?t ?s ?n ?w0] =>
        exact (handle_thenCleanup_saveTail cfg t s n w0)
    end.
  - destruct (pending w !! k) as [[t | | ]|]; try discriminate Hstep.
    injection Hstep as <-. left. unfold Server.resumeCallLog.
    rewrite cleanup_ctx. reflexivity.
Qed.

Lemma run_connections (cfg : Config) (evs : list Event) (w w' : World) :
  (forall i, openaiWs (ctx w) = Some i -> (i < length (sockets w))%nat) ->
  Server.run cfg w evs = Some w' ->
  length (sockets w') = (length (sockets w) + count_starts evs)%nat
  /\ (forall i, openaiWs (ctx w') = Some i -> (i < length (sockets w'))%nat).
Proof.
  revert w. induction evs as [|e evs IH]; intros w Hh Hrun.
  - cbn in Hrun. injection Hrun as <-. unfold count_starts. cbn.
    split; [lia | exact Hh].
  - cbn [Server.run] in Hrun.
    destruct (Server.step cfg w e) as [w1|] eqn:Hstep; [|discriminate Hrun].
    pose proof (step_sockets cfg w w1 e Hstep) as Hs.
    pose proof (step_handle cfg w w1 e Hstep) as Ho.
    unfold count_starts. cbn [List.filter].
    destruct (is_start e).
    + destruct (IH w1) as [H1 H2]; [|exact Hrun|].
      * intros i Hi. rewrite Ho in Hi. injection Hi as <-.
        rewrite Hs, length_app. cbn. lia.
      * split; [|exact H2]. rewrite H1, Hs, length_app.
        unfold count_starts. cbn. lia.
    + destruct (IH w1) as [H1 H2]; [|exact Hrun|].
      * intros i Hi. rewrite Hs.
        destruct Ho as [Ho | Ho]; rewrite Ho in Hi;
          [discriminate Hi | exact (Hh i Hi)].
      * split; [|exact H2]. rewrite H1, Hs. reflexivity.
Qed.

(** Every [start] frame opens exactly one new realtime connection and
    nothing else opens or removes one: after any sequence of events the
    session has created as many realtime sockets as it has received
    [start] frames, and its realtime handle, when set, names one of
    them.  A further [start] appends a connecting socket and points the
    handle to it; it calls [close] on nothing, so the socket of the
    earlier [start] stays as it is. *)
Theorem one_connection_per_start (cfg : Config) (connId : jsstring)
    (evs : list Event) (w : World) :
  Server.run cfg (Server.init connId) evs = Some w ->
  length (sockets w) = count_starts evs
  /\ (forall i, openaiWs (ctx w) = Some i -> (i < length (sockets w))%nat)
  /\ (forall sSid cSid params,
        sockets (Server.handleTwilioStart sSid cSid params w)
        = sockets w ++ [CONNECTING]
        /\ openaiWs (ctx (Server.handleTwilioStart sSid cSid params w))
           = Some (length (sockets w))
        /\ count is_close_call
             (trace (Server.handleTwilioStart sSid cSid params w))
           = count is_close_call (trace w)).
Proof.
  intros Hrun.
  destruct (run_connections cfg evs (Server.init connId) w
              ltac:(intros i Hi; cbn in Hi; discriminate Hi) Hrun) as [H1 H2].
  split; [exact H1|]. split; [exact H2|].
  intros sSid cSid params. split; [reflexivity|]. split; [reflexivity|].
  unfold Server.handleTwilioStart. cbn [trace emit with_ctx set_sockets].
  rewrite !count_app. cbn. lia.
Qed.

Lemma one_connection_per_start_witness :
  length (sockets sample_session)
  = count_starts [sample_start; OpenaiOpen 0; sample_caller_line].
Proof.
  exact (proj1 (one_connection_per_start sample_cfg (lit "conn")
                  [sample_start; OpenaiOpen 0; sample_caller_line]
                  sample_session ltac:(vm_compute; reflexivity))).
Defined.

Lemma traffic_cleanup (w : World) :
  count is_traffic (trace (Server.cleanup w)) = count is_traffic (trace w).
Proof. apply count_cleanup; intros; reflexivity. Qed.

Lemma traffic_thenCleanup_saveTail (cfg : Config) (t : jsstring)
    (s : option jsstring) (now : jsstring) (w : World) :
  count is_traffic (trace (Server.thenCleanup (Server.saveTail cfg t s now w)))
  = count is_traffic (trace w).
Proof. apply count_thenCleanup_saveTail; intros; reflexivity. Qed.

Lemma traffic_onTwilioStop (cfg : Config) (now : jsstring) (w : World) :
  count is_traffic (trace (Server.onTwilioStop cfg now w))
  = count is_traffic (trace w).
Proof.
  unfold Server.onTwilioStop, Server.saveTranscriptAndSummary,
    Server.generateSummaryFromTranscript.
  repeat case_match; cbn [Server.thenCleanup];
    rewrite ?traffic_cleanup, ?traffic_thenCleanup_saveTail;
    cbn [trace emit Server.add_pending set_pending];
    rewrite ?count_app; cbn; lia.
Qed.

Lemma idle_sockets (w w' : World) :
  idle w -> length (sockets w') = length (sockets w) -> sockets w' = [].
Proof.
  intros (Hs & _) Hl. rewrite Hs in Hl. destruct (sockets w'); [reflexivity|].
  discriminate Hl.
Qed.

Lemma step_idle (cfg : Config) (w w' : World) (e : Event) :
  idle w -> is_start e = false -> Server.step cfg w e = Some w' -> idle w'.
Proof.
  intros Hidle Hns Hstep.
  pose proof (step_sockets cfg w w' e Hstep) as Hsock.
  pose proof (step_handle cfg w w' e Hstep) as Hh.
  pose proof (step_metadata cfg w w' e Hstep Hns) as Hm.
  rewrite Hns in Hsock, Hh.
  destruct Hidle as (Hs & Ho & Hsid & Ht).
  split; [exact (idle_sockets w w' (conj Hs (conj Ho (conj Hsid Ht))) Hsock)|].
  split; [destruct Hh as [Hh | Hh]; congruence|].
  split; [unfold metadata in Hm; congruence|].
  rewrite <- Ht.
  destruct e as [m | | | i | i m | i | i | k r now | k];
    cbn [Server.step] in Hstep.
  - injection Hstep as <-.
    destruct m as [sSid cSid params | payload now | | now | | ];
      cbn [Server.onTwilioMessage]; try discriminate Hns;
      try (rewrite count_emit; cbn; lia).
    + unfold Server.handleTwilioMedia.
      destruct payload as [p|]; [|reflexivity].
      destruct (Str.truthy p); cbn [negb]; [|reflexivity].
      rewrite Ho. reflexivity.
    + apply traffic_onTwilioStop.
  - injection Hstep as <-. unfold Server.onTwilioClose.
    rewrite traffic_cleanup, count_emit. cbn. lia.
  - injection Hstep as <-. unfold Server.onTwilioError.
    rewrite traffic_cleanup, count_emit. cbn. lia.
  - rewrite Hs in Hstep. discriminate Hstep.
  - rewrite Hs in Hstep. discriminate Hstep.
  - rewrite Hs in Hstep. discriminate Hstep.
  - rewrite Hs in Hstep. discriminate Hstep.
  - destruct (pending w !! k) as [[t | | ]|]; try discriminate Hstep.
    injection Hstep as <-. unfold Server.resumeSummary.
    rewrite traffic_thenCleanup_saveTail, count_emit. cbn.
    destruct (Server.summary_of_result r). cbn. lia.
  - destruct (pending w !! k) as [[t | | ]|]; try discriminate Hstep.
    injection Hstep as <-. unfold Server.resumeCallLog.
    rewrite traffic_cleanup. reflexivity.
Qed.

(** Before the first [start] frame the bridge talks to no one: over any
    sequence of events without a [start], no realtime connection is
    opened and nothing is sent on either socket, and a media frame leaves
    the session exactly as it was, without an error event. *)
Theorem nothing_before_start (cfg : Config) (connId : jsstring)
    (evs : list Event) (w : World) :
  Server.run cfg (Server.init connId) evs = Some w ->
  count_starts evs = 0%nat ->
  sockets w = []
  /\ count is_traffic (trace w) = 0%nat
  /\ (forall payload now, Server.handleTwilioMedia cfg payload now w = w).
Proof.
  intros Hrun Hns.
  assert (Hidle : idle w).
  { assert (H0 : idle (Server.init connId)) by (repeat split; reflexivity).
    revert Hrun Hns H0. generalize (Server.init connId).
    induction evs as [|e evs IH]; intros w0 Hrun Hns H0.
    - cbn in Hrun. injection Hrun as <-. exact H0.
    - cbn [Server.run] in Hrun.
      destruct (Server.step cfg w0 e) as [w1|] eqn:Hstep;
        [|discriminate Hrun].
      unfold count_starts in Hns. cbn [List.filter] in Hns.
      destruct (is_start e) eqn:Hs; [discriminate Hns|].
      exact (IH w1 Hrun Hns (step_idle cfg w0 w1 e H0 Hs Hstep)). }
  destruct Hidle as (Hs & Ho & _ & Ht).
  split; [exact Hs|]. split; [exact Ht|].
  intros payload now. unfold Server.handleTwilioMedia.
  destruct payload as [p|]; [|reflexivity].
  destruct (Str.truthy p); cbn [negb]; [|reflexivity].
  rewrite Ho. reflexivity.
Qed.

Lemma nothing_before_start_witness :
  count is_traffic
    (trace (Server.handleTwilioMedia sample_cfg (Some (lit "ab")) 5
              (Server.init (lit "conn"))))
  = 0%nat.
Proof.
  exact (proj1 (proj2 (nothing_before_start sample_cfg (lit "conn")
                         [TwilioMessage (TwMedia (Some (lit "ab")) 5)]
                         (Server.handleTwilioMedia sample_cfg
                            (Some (lit "ab")) 5 (Server.init (lit "conn")))
                         eq_refl eq_refl))).
Defined.

(* ------------------------------------------------------------------ *)
(** ** Closing sockets *)

Lemma close_ok_le (n : nat) (s : ReadyState) : close_ok n s -> (n <= 1)%nat.
Proof. destruct s; cbn; lia. Qed.

Lemma close_ok_weaken (n : nat) (s s' : ReadyState) :
  close_ok n s -> s' = CLOSING \/ s' = CLOSED -> close_ok n s'.
Proof. intros H [-> | ->]; cbn; exact (close_ok_le n s H). Qed.

(** A turn that calls [close] on nothing, lets at most one realtime
    socket start closing or close and lets the telephony socket at most
    do the same keeps the invariant. *)
Lemma close_inv_degrade (w w' : World) :
  close_inv w ->
  degrade (sockets w) (sockets w') ->
  twilioWs w' = twilioWs w \/ twilioWs w' = CLOSING \/ twilioWs w' = CLOSED ->
  (forall p, (forall e, is_close_call e = false -> p e = false) ->
             count p (trace w') = count p (trace w)) ->
  close_inv w'.
Proof.
  intros (Ht & Hs & Hn) Hd Htw Hc.
  assert (Hct : count is_twilio_close (trace w')
                = count is_twilio_close (trace w))
    by (apply Hc; intros [ | | | | | | | ]; cbn; congruence).
  assert (Hco : forall i, count (is_openai_close i) (trace w')
                          = count (is_openai_close i) (trace w))
    by (intros i; apply Hc; intros [ | | | | | | | ]; cbn; congruence).
  split; [|split].
  - rewrite Hct. destruct Htw as [-> | Htw]; [exact Ht|].
    exact (close_ok_weaken _ _ _ Ht Htw).
  - intros j s' Hj. rewrite Hco.
    destruct Hd as [Heq | (i & s & s1 & Hi & Heq & Hs1)]; rewrite Heq in Hj.
    + exact (Hs j s' Hj).
    + destruct (decide (i = j)) as [<- | Hne].
      * rewrite list_lookup_insert_eq in Hj
          by (apply lookup_lt_is_Some; eauto).
        injection Hj as <-. exact (close_ok_weaken _ _ _ (Hs i s Hi) Hs1).
      * rewrite list_lookup_insert_ne in Hj by exact Hne. exact (Hs j s' Hj).
  - intros j Hj. rewrite Hco. apply Hn.
    rewrite (degrade_length _ _ Hd) in Hj. exact Hj.
Qed.

Lemma close_inv_emit (e : Effect) (w : World) :
  is_close_call e = false -> close_inv w -> close_inv (emit e w).
Proof.
  intros He Hinv.
  apply (close_inv_degrade w); [exact Hinv | left; reflexivity | auto |].
  intros p Hp. rewrite count_emit, (Hp e He). lia.
Qed.

Lemma close_inv_with_ctx f (w : World) :
  close_inv w -> close_inv (with_ctx f w).
Proof. intros H. exact H. Qed.

Lemma close_inv_set_pending l (w : World) :
  close_inv w -> close_inv (set_pending l w).
Proof. intros H. exact H. Qed.

Lemma close_inv_twilio_state (s : ReadyState) (w : World) :
  s = CLOSING \/ s = CLOSED -> close_inv w -> close_inv (set_twilioWs s w).
Proof.
  intros Hs Hinv.
  apply (close_inv_degrade w); [exact Hinv | left; reflexivity | | auto].
  cbn. tauto.
Qed.

Lemma close_inv_socket_state (i : nat) (s s' : ReadyState) (w : World) :
  sockets w !! i = Some s -> s' = CLOSING \/ s' = CLOSED ->
  close_inv w -> close_inv (set_sockets (<[i := s']> (sockets w)) w).
Proof.
  intros Hi Hs Hinv.
  apply (close_inv_degrade w); [exact Hinv | | left; reflexivity | auto].
  right. exists i, s, s'. auto.
Qed.

Lemma count_openai_close_emit (i j : nat) (w : World) :
  count (is_openai_close j) (trace (emit (OpenaiCloseCall i) w))
  = (count (is_openai_close j) (trace w) + if (i =? j)%nat then 1 else 0)%nat.
Proof. rewrite count_emit. reflexivity. Qed.

Lemma close_inv_openai_close (i : nat) (w : World) :
  sockets w !! i = Some OPEN -> close_inv w ->
  close_inv (Ws.openai_close i w).
Proof.
  intros Hi (Ht & Hs & Hn).
  assert (Hlt : (i < length (sockets w))%nat)
    by (apply lookup_lt_is_Some; eauto).
  unfold Ws.openai_close. split; [|split].
  - rewrite count_emit. cbn. rewrite Nat.add_0_r. exact Ht.
  - intros j s Hj. rewrite count_openai_close_emit.
    cbn [sockets emit set_sockets trace] in *.
    destruct (i =? j)%nat eqn:E.
    + apply Nat.eqb_eq in E. subst j.
      rewrite list_lookup_insert_eq in Hj by exact Hlt.
      injection Hj as <-. pose proof (Hs i OPEN Hi) as H0. cbn in H0.
      rewrite H0. cbn. lia.
    + apply Nat.eqb_neq in E.
      rewrite list_lookup_insert_ne in Hj by exact E.
      rewrite Nat.add_0_r. exact (Hs j s Hj).
  - intros j Hj. rewrite count_openai_close_emit.
    cbn [sockets emit set_sockets trace] in *.
    rewrite length_insert in Hj.
    destruct (i =? j)%nat eqn:E; [apply Nat.eqb_eq in E; lia|].
    rewrite Nat.add_0_r. apply Hn. exact Hj.
Qed.

Lemma close_inv_twilio_close (w : World) :
  twilioWs w = OPEN -> close_inv w -> close_inv (Ws.twilio_close w).
Proof.
  intros Ho (Ht & Hs & Hn). rewrite Ho in Ht. cbn in Ht.
  unfold Ws.twilio_close. split; [|split].
  - rewrite count_emit. cbn [trace set_twilioWs twilioWs emit]. rewrite Ht.
    cbn. lia.
  - intros j s Hj. rewrite count_emit. cbn. rewrite Nat.add_0_r.
    exact (Hs j s Hj).
  - intros j Hj. rewrite count_emit. cbn. rewrite Nat.add_0_r.
    exact (Hn j Hj).
Qed.

Lemma close_inv_cleanup (w : World) :
  close_inv w -> close_inv (Server.cleanup w).
Proof.
  intros Hinv. unfold Server.cleanup.
  set (w1 := match openaiWs (ctx w) with
             | Some i =>
                 if bool_decide (sockets w !! i = Some OPEN)
                 then Ws.openai_close i w else w
             | None => w
             end).
  assert (H1 : close_inv w1).
  { unfold w1. destruct (openaiWs (ctx w)) as [i|]; [|exact Hinv].
    destruct (bool_decide (sockets w !! i = Some OPEN)) eqn:E; [|exact Hinv].
    apply bool_decide_eq_true in E. apply close_inv_openai_close; assumption. }
  destruct (bool_decide (twilioWs (with_ctx _ w1) = OPEN)) eqn:E.
  - apply bool_decide_eq_true in E.
    apply close_inv_twilio_close; [exact E | exact H1].
  - exact H1.
Qed.

Lemma close_inv_thenCleanup_saveTail (cfg : Config) (t : jsstring)
    (s : option jsstring) (now : jsstring) (w : World) :
  close_inv w ->
  close_inv (Server.thenCleanup (Server.saveTail cfg t s now w)).
Proof.
  intros Hinv.
  destruct (saveTail_cases cfg t s now w) as [(req & _ & ->) | (_ & ->)].
  - apply close_inv_set_pending, close_inv_emit; [reflexivity | exact Hinv].
  - apply close_inv_cleanup, close_inv_emit; [reflexivity | exact Hinv].
Qed.

Ltac close_prims :=
  repeat first
    [ assumption
    | apply close_inv_cleanup
    | apply close_inv_thenCleanup_saveTail
    | apply close_inv_emit; [reflexivity|]
    | apply close_inv_with_ctx
    | apply close_inv_set_pending ].

Lemma close_inv_onTwilioStop (cfg : Config) (now : jsstring) (w : World) :
  close_inv w -> close_inv (Server.onTwilioStop cfg now w).
Proof.
  intros Hinv.
  unfold Server.onTwilioStop, Server.saveTranscriptAndSummary,
    Server.generateSummaryFromTranscript, Server.add_pending.
  repeat case_match; cbn [Server.thenCleanup]; close_prims.
Qed.

Lemma close_inv_handleTwilioStart sSid cSid params (w : World) :
  close_inv w -> close_inv (Server.handleTwilioStart sSid cSid params w).
Proof.
  intros (Ht & Hs & Hn).
  assert (Hc : forall p, (forall e, is_close_call e = false -> p e = false) ->
            count p (trace (Server.handleTwilioStart sSid cSid params w))
            = count p (trace w)).
  { intros p Hp. unfold Server.handleTwilioStart.
    cbn [trace emit with_ctx set_sockets]. rewrite !count_app. cbn [count].
    rewrite !Hp by reflexivity. lia. }
  split; [|split].
  - rewrite Hc by (intros [ | | | | | | | ]; cbn; congruence). exact Ht.
  - intros j s Hj.
    rewrite Hc by (intros [ | | | | | | | ]; cbn; congruence).
    change (sockets (Server.handleTwilioStart sSid cSid params w))
      with (sockets w ++ [CONNECTING]) in Hj.
    destruct (decide (j < length (sockets w))%nat) as [Hlt | Hge].
    + rewrite lookup_app_l in Hj by exact Hlt. exact (Hs j s Hj).
    + rewrite lookup_app_r in Hj by lia.
      destruct (j - length (sockets w))%nat; cbn in Hj; [|discriminate Hj].
      injection Hj as <-. cbn. apply Hn. lia.
  - intros j Hj.
    rewrite Hc by (intros [ | | | | | | | ]; cbn; congruence).
    change (sockets (Server.handleTwilioStart sSid cSid params w))
      with (sockets w ++ [CONNECTING]) in Hj.
    rewrite length_app in Hj. cbn in Hj. apply Hn. lia.
Qed.

Lemma close_inv_handleTwilioMedia (cfg : Config) payload now (w : World) :
  close_inv w -> close_inv (Server.handleTwilioMedia cfg payload now w).
Proof.
  intros Hinv.
  unfold Server.handleTwilioMedia, Server.media_error, Ws.openai_send.
  repeat case_match; simplify_eq; close_prims.
Qed.

Lemma close_inv_onOpenaiMessage (m : RealtimeMsg) (w : World) :
  close_inv w -> close_inv (Server.onOpenaiMessage m w).
Proof.
  intros Hinv. unfold Server.onOpenaiMessage, Ws.twilio_send.
  repeat case_match; simplify_eq; close_prims.
Qed.

Lemma close_inv_open (cfg : Config) (i : nat) (w : World) :
  sockets w !! i = Some CONNECTING -> close_inv w ->
  close_inv (Server.onOpenaiOpen cfg i
               (set_sockets (<[i := OPEN]> (sockets w)) w)).
Proof.
  intros Hi (Ht & Hs & Hn).
  assert (Hlt : (i < length (sockets w))%nat)
    by (apply lookup_lt_is_Some; eauto).
  assert (H1 : close_inv (set_sockets (<[i := OPEN]> (sockets w)) w)).
  { split; [exact Ht|]. split.
    - intros j s Hj. cbn [sockets set_sockets trace] in *.
      destruct (decide (i = j)) as [<- | Hne].
      + rewrite list_lookup_insert_eq in Hj by exact Hlt.
        injection Hj as <-. exact (Hs i CONNECTING Hi).
      + rewrite list_lookup_insert_ne in Hj by exact Hne. exact (Hs j s Hj).
    - intros j Hj. cbn [sockets set_sockets trace] in *.
      rewrite length_insert in Hj. exact (Hn j Hj). }
  unfold Server.onOpenaiOpen, Ws.openai_send.
  repeat case_match; simplify_eq; close_prims.
Qed.

Lemma step_close_inv (cfg : Config) (w w' : World) (e : Event) :
  close_inv w -> Server.step cfg w e = Some w' -> close_inv w'.
Proof.
  intros Hinv Hstep.
  destruct e as [m | | | i | i m | i | i | k r now | k];
    cbn [Server.step] in Hstep.
  - injection Hstep as <-.
    destruct m as [sSid cSid params | payload now | | now | | ];
      cbn [Server.onTwilioMessage].
    + apply close_inv_handleTwilioStart, Hinv.
    + apply close_inv_handleTwilioMedia, Hinv.
    + close_prims.
    + apply close_inv_onTwilioStop, Hinv.
    + close_prims.
    + close_prims.
  - injection Hstep as <-. unfold Server.onTwilioClose.
    apply close_inv_cleanup, close_inv_emit; [reflexivity|].
    apply close_inv_twilio_state; auto.
  - injection Hstep as <-. unfold Server.onTwilioError.
    apply close_inv_cleanup, close_inv_emit; [reflexivity|].
    apply close_inv_twilio_state; [|exact Hinv].
    destruct (twilioWs w); cbn; auto.
  - destruct (sockets w !! i) as [[| | |]|] eqn:Hi; try discriminate Hstep.
    injection Hstep as <-. apply close_inv_open; assumption.
  - destruct (sockets w !! i); [|discriminate Hstep].
    injection Hstep as <-. apply close_inv_onOpenaiMessage, Hinv.
  - destruct (sockets w !! i) as [s|] eqn:Hi; [|discriminate Hstep].
    injection Hstep as <-. unfold Server.onOpenaiClose.
    apply close_inv_with_ctx, close_inv_emit; [reflexivity|].
    apply (close_inv_socket_state i s); auto.
  - destruct (sockets w !! i) as [s|] eqn:Hi; [|discriminate Hstep].
    injection Hstep as <-. unfold Server.onOpenaiError.
    apply close_inv_with_ctx, close_inv_emit; [reflexivity|].
    apply (close_inv_socket_state i s); [exact Hi | | exact Hinv].
    destruct s; cbn; auto.
  - destruct (pending w !! k) as [[t | | ]|]; try discriminate Hstep.
    injection Hstep as <-. unfold Server.resumeSummary, Server.settle.
    close_prims.
  - destruct (pending w !! k) as [[t | | ]|]; try discriminate Hstep.
    injection Hstep as <-. unfold Server.resumeCallLog, Server.settle.
    close_prims.
Qed.

(** The session never calls [close] twice on the same socket, whatever
    the order of stops, closes and errors: over any sequence of events
    [close] has been called at most once on the telephony socket and at
    most once on each realtime socket.  It has not been called on a
    socket that is still open, nor on a realtime socket that is still
    connecting: [cleanup] drops the handle of such a socket without
    closing it. *)
Theorem close_called_at_most_once (cfg : Config) (connId : jsstring)
    (evs : list Event) (w : World) :
  Server.run cfg (Server.init connId) evs = Some w ->
  (count is_twilio_close (trace w) <= 1)%nat
  /\ (twilioWs w = OPEN -> count is_twilio_close (trace w) = 0%nat)
  /\ (forall i, (count (is_openai_close i) (trace w) <= 1)%nat)
  /\ (forall i, sockets w !! i = Some CONNECTING \/ sockets w !! i = Some OPEN ->
                count (is_openai_close i) (trace w) = 0%nat).
Proof.
  intros Hrun.
  assert (Hinv : close_inv w).
  { assert (H0 : close_inv (Server.init connId)).
    { split; [reflexivity|]. split.
      - intros i s H. destruct i; discriminate H.
      - intros i _. reflexivity. }
    revert Hrun H0. generalize (Server.init connId).
    induction evs as [|e evs IH]; intros w0 Hrun H0.
    - cbn in Hrun. injection Hrun as <-. exact H0.
    - cbn [Server.run] in Hrun.
      destruct (Server.step cfg w0 e) as [w1|] eqn:Hstep;
        [|discriminate Hrun].
      exact (IH w1 Hrun (step_close_inv cfg w0 w1 e H0 Hstep)). }
  destruct Hinv as (Ht & Hs & Hn).
  split; [exact (close_ok_le _ _ Ht)|].
  split; [intros Ho; rewrite Ho in Ht; exact Ht|].
  split.
  - intros i. destruct (sockets w !! i) as [s|] eqn:Hi.
    + exact (close_ok_le _ _ (Hs i s Hi)).
    + rewrite Hn; [lia|]. apply lookup_ge_None. exact Hi.
  - intros i [Hi | Hi]; exact (Hs i _ Hi).
Qed.

Lemma close_called_at_most_once_witness :
  exists w,
    Server.run sample_cfg (Server.init (lit "conn"))
      [sample_start; OpenaiOpen 0;
       TwilioMessage (TwStop (lit "now")); TwilioClosed] = Some w
    /\ (count is_twilio_close (trace w) <= 1)%nat
    /\ (count (is_openai_close 0) (trace w) <= 1)%nat.
Proof.
  eexists. split; [vm_compute; reflexivity|].
  refine (let H := close_called_at_most_once sample_cfg (lit "conn")
                     [sample_start; OpenaiOpen 0;
                      TwilioMessage (TwStop (lit "now")); TwilioClosed] _ _
          in conj (proj1 H) (proj1 (proj2 (proj2 H)) 0%nat)).
  vm_compute. reflexivity.
Defined.

(* ------------------------------------------------------------------ *)
(** ** Session instructions *)

Lemma trimStart_app (a r : jsstring) :
  Str.trimStart a <> [] -> Str.trimStart (a ++ r) = Str.trimStart a ++ r.
Proof.
  induction a as [|c a IH]; cbn; [congruence|].
  destruct (Str.isWhiteSpace c); [exact IH | reflexivity].
Qed.

Lemma trimEnd_app (l b : jsstring) :
  Str.trimEnd b <> [] -> Str.trimEnd (l ++ b) = l ++ Str.trimEnd b.
Proof.
  unfold Str.trimEnd. intros Hb.
  rewrite rev_app_distr, trimStart_app.
  - rewrite rev_app_distr, rev_involutive. reflexivity.
  - intros E. apply Hb. rewrite E. reflexivity.
Qed.

Lemma trimStart_nil_all (s : jsstring) :
  Str.trimStart s = [] <-> forallb Str.isWhiteSpace s = true.
Proof.
  induction s as [|c s IH]; cbn; [tauto|].
  destruct (Str.isWhiteSpace c); cbn; [exact IH|].
  split; intros H; discriminate H.
Qed.

Lemma nonblank_trimStart (s : jsstring) :
  Str.trim s <> [] -> Str.trimStart s <> [].
Proof. unfold Str.trim. intros H E. apply H. rewrite E. reflexivity. Qed.

Lemma nonblank_trimEnd (s : jsstring) :
  Str.trim s <> [] -> Str.trimEnd s <> [].
Proof.
  intros H E. apply H. unfold Str.trim, Str.trimEnd in *.
  assert (Hr : Str.trimStart (rev s) = []).
  { rewrite <- (rev_involutive (Str.trimStart (rev s))), E. reflexivity. }
  apply trimStart_nil_all in Hr.
  assert (Hs : Str.trimStart s = []).
  { apply trimStart_nil_all. rewrite forallb_forall in *.
    intros x Hx. apply Hr. apply in_rev. rewrite rev_involutive. exact Hx. }
  rewrite Hs. reflexivity.
Qed.

(** Trimming a text between a non-blank head and a non-blank tail trims
    the head and the tail and leaves the text between them whole. *)
Lemma trim_between (h r t : jsstring) :
  Str.trim h <> [] -> Str.trim t <> [] ->
  Str.trim (h ++ r ++ t) = Str.trimStart h ++ r ++ Str.trimEnd t.
Proof.
  intros Hh Ht. unfold Str.trim at 1.
  rewrite trimStart_app by exact (nonblank_trimStart h Hh).
  rewrite (app_assoc (Str.trimStart h) r t).
  rewrite trimEnd_app by exact (nonblank_trimEnd t Ht).
  rewrite <- app_assoc. reflexivity.
Qed.

Lemma trim_starts_clean (s : jsstring) : starts_clean (Str.trim s).
Proof. apply trimEnd_starts_clean, trimStart_starts_clean. Qed.

Lemma trim_ends_clean (s : jsstring) : ends_clean (Str.trim s).
Proof.
  unfold ends_clean, Str.trim, Str.trimEnd. rewrite rev_involutive.
  apply trimStart_starts_clean.
Qed.

Lemma trimEnd_id (s : jsstring) : ends_clean s -> Str.trimEnd s = s.
Proof.
  unfold ends_clean, Str.trimEnd. intros H.
  rewrite trimStart_id by exact H. apply rev_involutive.
Qed.

Lemma trimStart_keeps_suffix (p f : jsstring) :
  starts_clean f -> exists a, Str.trimStart (p ++ f) = a ++ f.
Proof.
  intros Hf. induction p as [|c p IH]; cbn [app].
  - exists []. apply trimStart_id, Hf.
  - cbn [Str.trimStart]. destruct (Str.isWhiteSpace c); [exact IH|].
    exists (c :: p). reflexivity.
Qed.

(** A trimmed, non-empty text at the end of a string survives the
    trimming of the string. *)
Lemma trim_keeps_suffix (p f : jsstring) :
  starts_clean f -> ends_clean f -> f <> [] ->
  exists a, Str.trim (p ++ f) = a ++ f.
Proof.
  intros Hs He Hne. destruct (trimStart_keeps_suffix p f Hs) as [a Ha].
  exists a. unfold Str.trim. rewrite Ha.
  rewrite trimEnd_app by (rewrite trimEnd_id by exact He; exact Hne).
  rewrite trimEnd_id by exact He. reflexivity.
Qed.

Lemma fullInstructions_followup (cfg : Config) (c : TwilioStreamContext) :
  callType c = FOLLOWUP ->
  Str.trim (followupHead cfg) <> [] ->
  Str.trim (followupTail cfg) <> [] ->
  exists a b,
    Server.fullInstructions cfg c
    = a ++ (default (lit "(No prior AI summary was provided.)")
                    (lastSummary c)
            ++ followupMiddle cfg
            ++ default (lit "(No prior transcript snippet was provided.)")
                       (lastTranscript c))
        ++ b.
Proof.
  intros Hct Hh Ht. unfold Server.fullInstructions. cbv zeta. rewrite Hct.
  set (X := default (lit "(No prior AI summary was provided.)")
                    (lastSummary c)).
  set (Y := default (lit "(No prior transcript snippet was provided.)")
                    (lastTranscript c)).
  match goal with
  | |- context [Str.trim (Str.trim ?base ++ _)] => set (B := Str.trim base)
  end.
  replace (followupHead cfg ++ X ++ followupMiddle cfg ++ Y ++ followupTail cfg)
    with (followupHead cfg ++ (X ++ followupMiddle cfg ++ Y) ++ followupTail cfg)
    by (rewrite <- !app_assoc; reflexivity).
  set (F := Str.trim (followupHead cfg ++ (X ++ followupMiddle cfg ++ Y)
                      ++ followupTail cfg)).
  assert (HF : F = Str.trimStart (followupHead cfg)
                   ++ (X ++ followupMiddle cfg ++ Y)
                   ++ Str.trimEnd (followupTail cfg))
    by (apply trim_between; assumption).
  assert (Hne : F <> []).
  { rewrite HF. pose proof (nonblank_trimStart _ Hh) as Hn.
    destruct (Str.trimStart (followupHead cfg)); [contradiction|].
    discriminate. }
  destruct (trim_keeps_suffix (B ++ Server.newline ++ Server.newline) F
              (trim_starts_clean _) (trim_ends_clean _) Hne) as [a Ha].
  rewrite <- !app_assoc in Ha. rewrite Ha, HF.
  exists (a ++ Str.trimStart (followupHead cfg)),
         (Str.trimEnd (followupTail cfg)).
  rewrite <- !app_assoc. reflexivity.
Qed.

(** On a follow-up call the instructions of the session configuration
    contain, verbatim, the summary and the transcript excerpt of the
    last call that came with the [start] frame (a fixed placeholder for
    each one that is absent or empty), provided the fixed texts before
    and after them are not blank, as they are in the source; and the
    ['open'] listener sends the instructions of the session as it then
    is. *)
Theorem followup_instructions_carry_context (cfg : Config) (w : World)
    (sSid cSid : option jsstring) (params : StartParams) :
  Str.trim (followupHead cfg) <> [] ->
  Str.trim (followupTail cfg) <> [] ->
  p_call_type params = Some (lit "FOLLOWUP") ->
  let c := ctx (Server.handleTwilioStart sSid cSid params w) in
  contains (default (lit "(No prior AI summary was provided.)")
                    (Str.or_null (p_last_summary params)))
           (Server.fullInstructions cfg c)
  /\ contains (default (lit "(No prior transcript snippet was provided.)")
                       (Str.or_null (p_last_transcript params)))
              (Server.fullInstructions cfg c)
  /\ (forall (v : World) (i : nat),
        sockets v !! i = Some OPEN ->
        In (OpenaiSend i (SessionUpdate (Server.fullInstructions cfg (ctx v))
                            (OPENAI_VOICE_STYLE cfg)))
           (trace (Server.onOpenaiOpen cfg i v))).
Proof.
  intros Hh Ht Hct. cbv zeta.
  set (c := ctx (Server.handleTwilioStart sSid cSid params w)).
  assert (Hc : callType c = FOLLOWUP
               /\ lastSummary c = Str.or_null (p_last_summary params)
               /\ lastTranscript c = Str.or_null (p_last_transcript params)).
  { unfold c, Server.handleTwilioStart.
    cbn [ctx with_ctx emit set_sockets Ctx.set_start Ctx.set_openaiWs
         callType lastSummary lastTranscript].
    rewrite Hct. split; [|split; reflexivity]. reflexivity. }
  destruct Hc as (Hc1 & Hc2 & Hc3).
  destruct (fullInstructions_followup cfg c Hc1 Hh Ht) as (a & b & Hfull).
  rewrite Hc2, Hc3 in Hfull.
  split; [|split].
  - rewrite Hfull. eexists a, _. rewrite <- !app_assoc. reflexivity.
  - rewrite Hfull.
    eexists (a ++ default _ (Str.or_null (p_last_summary params))
               ++ followupMiddle cfg), b.
    rewrite <- !app_assoc. reflexivity.
  - intros v i Hopen. unfold Server.onOpenaiOpen, Ws.openai_send.
    cbn [sockets emit with_ctx]. rewrite Hopen.
    cbn [sockets emit with_ctx]. rewrite Hopen.
    cbn [trace emit with_ctx]. rewrite !in_app_iff. cbn. tauto.
Qed.

Lemma followup_instructions_carry_context_witness :
  contains (lit "prior notes")
    (Server.fullInstructions sample_cfg
       (ctx (Server.handleTwilioStart (Some (lit "MZ2")) (Some (lit "CA2"))
               {| p_direction := Some (lit "INBOUND");
                  p_call_type := Some (lit "FOLLOWUP");
                  p_last_summary := Some (lit "prior notes");
                  p_last_transcript := Some (lit "prior excerpt") |}
               (Server.init (lit "conn"))))).
Proof.
  exact (proj1 (followup_instructions_carry_context sample_cfg
                  (Server.init (lit "conn"))
                  (Some (lit "MZ2")) (Some (lit "CA2"))
                  {| p_direction := Some (lit "INBOUND");
                     p_call_type := Some (lit "FOLLOWUP");
                     p_last_summary := Some (lit "prior notes");
                     p_last_transcript := Some (lit "prior excerpt") |}
                  ltac:(vm_compute; discriminate)
                  ltac:(vm_compute; discriminate) eq_refl)).
Defined.

Lemma run_metadata (cfg : Config) (evs : list Event) (w w' : World) :
  Server.run cfg w evs = Some w' ->
  count_starts evs = 0%nat ->
  metadata (ctx w') = metadata (ctx w).
Proof.
  revert w. induction evs as [|e evs IH]; intros w Hrun Hc; cbn in Hrun.
  - injection Hrun as <-. reflexivity.
  - destruct (Server.step cfg w e) as [w1|] eqn:Hstep; [|discriminate Hrun].
    unfold count_starts in Hc. cbn [List.filter] in Hc.
    destruct (is_start e) eqn:He; [discriminate Hc|].
    rewrite (IH w1 Hrun Hc). exact (step_metadata cfg w w1 e Hstep He).
Qed.

(** The two messages of the ['open'] listener are determined by the call
    metadata. *)
Lemma metadata_instructions (cfg : Config) (c1 c2 : TwilioStreamContext) :
  metadata c1 = metadata c2 ->
  Server.fullInstructions cfg c1 = Server.fullInstructions cfg c2
  /\ Server.initialDirective cfg c1 = Server.initialDirective cfg c2.
Proof.
  unfold metadata. intros H. injection H as _ _ _ _ Hd Ht Hs Hl.
  unfold Server.fullInstructions, Server.initialDirective.
  rewrite Hd, Ht, Hs, Hl. split; reflexivity.
Qed.

(** What the ['open'] listener emits on a socket that has just opened. *)
Lemma onOpenaiOpen_trace (cfg : Config) (w : World) (i : nat) :
  sockets w !! i = Some CONNECTING ->
  exists w2,
    Server.step cfg w (OpenaiOpen i) = Some w2
    /\ openaiReady (ctx w2) = true
    /\ trace w2
       = trace w
         ++ [Log "openai_realtime_connected";
             OpenaiSend i (SessionUpdate (Server.fullInstructions cfg (ctx w))
                             (OPENAI_VOICE_STYLE cfg));
             Log "openai_session_update_sent";
             OpenaiSend i (ResponseCreate (Server.initialDirective cfg (ctx w)));
             Log "openai_initial_response_create_sent"].
Proof.
  intros Hi.
  assert (Hlt : (i < length (sockets w))%nat)
    by (apply lookup_lt_is_Some; eauto).
  eexists. cbn [Server.step]. rewrite Hi. split; [reflexivity|].
  unfold Server.onOpenaiOpen, Ws.openai_send.
  cbn [sockets emit with_ctx set_sockets].
  rewrite list_lookup_insert_eq by exact Hlt.
  cbn [sockets emit with_ctx set_sockets].
  rewrite list_lookup_insert_eq by exact Hlt.
  split; [reflexivity|].
  cbn [trace emit with_ctx set_sockets]. rewrite <- !app_assoc. reflexivity.
Qed.

(** The first messages on a realtime connection follow the last [start]
    frame received before the socket opens, whichever [start] created
    the socket.  When a connecting realtime socket of the session opens
    and no further [start] has arrived since the frame with parameters
    [params], the listener sends exactly [session.update], with the
    instructions as that frame set them, and then [response.create],
    with the opening directive chosen by that frame's parameters.  The
    inbound variants are used only for the direction ["INBOUND"] and the
    follow-up variants only for the call type ["FOLLOWUP"]; every other
    or missing value gives the outbound, first-call variant. *)
Theorem initial_messages_follow_last_start (cfg : Config) (w0 w : World)
    (sSid cSid : option jsstring) (params : StartParams)
    (evs : list Event) (i : nat) :
  let w1 := Server.handleTwilioStart sSid cSid params w0 in
  let directive :=
    if Str.equals (p_direction params) (lit "INBOUND") then
      if Str.equals (p_call_type params) (lit "FOLLOWUP")
      then inboundFollowupIntro cfg else inboundFirstIntro cfg
    else
      if Str.equals (p_call_type params) (lit "FOLLOWUP")
      then outboundFollowupIntro cfg else outboundFirstIntro cfg in
  Server.run cfg w1 evs = Some w ->
  count_starts evs = 0%nat ->
  sockets w !! i = Some CONNECTING ->
  exists w2,
    Server.step cfg w (OpenaiOpen i) = Some w2
    /\ openaiReady (ctx w2) = true
    /\ trace w2
       = trace w
         ++ [Log "openai_realtime_connected";
             OpenaiSend i (SessionUpdate (Server.fullInstructions cfg (ctx w1))
                             (OPENAI_VOICE_STYLE cfg));
             Log "openai_session_update_sent";
             OpenaiSend i (ResponseCreate directive);
             Log "openai_initial_response_create_sent"].
Proof.
  cbv zeta. intros Hrun Hns Hi.
  destruct (onOpenaiOpen_trace cfg w i Hi) as (w2 & Hstep & Hready & Htrace).
  exists w2. split; [exact Hstep|]. split; [exact Hready|].
  rewrite Htrace.
  destruct (metadata_instructions cfg _ _ (run_metadata cfg evs _ w Hrun Hns))
    as [Hfull Hdir].
  rewrite Hfull, Hdir. do 4 f_equal.
  unfold Server.initialDirective, Server.handleTwilioStart.
  cbn [ctx with_ctx emit set_sockets Ctx.set_start Ctx.set_openaiWs
       Ctx.set_openaiReady direction callType].
  assert (Hct : bool_decide
                  (match Str.or_null (p_call_type params) with
                   | Some s => s
                   | None => lit "FIRST"
                   end = lit "FOLLOWUP")
                = Str.equals (p_call_type params) (lit "FOLLOWUP")).
  { destruct (p_call_type params) as [[|c s]|]; cbn [Str.or_null Str.otruthy
      Str.truthy Str.equals]; reflexivity. }
  rewrite Hct.
  destruct (Str.equals (p_direction params) (lit "INBOUND")),
    (Str.equals (p_call_type params) (lit "FOLLOWUP")); reflexivity.
Qed.

(** Two [start] frames before the first socket opens: the socket of the
    first frame is greeted with the directive of the second. *)
Lemma initial_messages_follow_last_start_witness :
  exists w2,
    Server.step sample_cfg
      (Server.handleTwilioStart (Some (lit "MZ2")) (Some (lit "CA2"))
         {| p_direction := Some (lit "INBOUND");
            p_call_type := Some (lit "FOLLOWUP");
            p_last_summary := Some (lit "prior notes");
            p_last_transcript := Some (lit "prior excerpt") |}
         (Server.handleTwilioStart (Some (lit "MZ1")) (Some (lit "CA1"))
            sample_params (Server.init (lit "conn"))))
      (OpenaiOpen 0) = Some w2
    /\ In (OpenaiSend 0 (ResponseCreate (inboundFollowupIntro sample_cfg)))
          (trace w2).
Proof.
  destruct (initial_messages_follow_last_start sample_cfg
              (Server.handleTwilioStart (Some (lit "MZ1")) (Some (lit "CA1"))
                 sample_params (Server.init (lit "conn")))
              _ (Some (lit "MZ2")) (Some (lit "CA2"))
              {| p_direction := Some (lit "INBOUND");
                 p_call_type := Some (lit "FOLLOWUP");
                 p_last_summary := Some (lit "prior notes");
                 p_last_transcript := Some (lit "prior excerpt") |}
              [] 0%nat eq_refl eq_refl eq_refl)
    as (w2 & Hstep & _ & Htrace).
  exists w2. split; [exact Hstep|].
  rewrite Htrace. apply in_or_app. right.
  right. right. right. left. reflexivity.
Defined.

(** A loud media frame gates the agent's audio: once the realtime link
    is ready, after a media frame whose decoded samples have a mean
    absolute value above 500 the caller is marked as speaking, and a
    [response.audio.delta] with a payload that is handled next sends
    nothing to telephony and logs the drop event. *)
Theorem loud_frame_gates_agent_audio (cfg : Config) (w : World)
    (payloadBase64 deltaBase64 : jsstring) (now : Z) (i : nat) :
  Str.truthy payloadBase64 = true ->
  openaiWs (ctx w) = Some i ->
  openaiReady (ctx w) = true ->
  Str.truthy deltaBase64 = true ->
  let samples := decoded_samples (base64Decode cfg payloadBase64) in
  Server.ENERGY_THRESHOLD * Z.of_nat (length samples) < sum_abs samples ->
  let w1 := Server.handleTwilioMedia cfg (Some payloadBase64) now w in
  humanSpeaking (ctx w1) = true
  /\ lastHumanSpeechAt (ctx w1) = Some now
  /\ Server.onOpenaiMessage (AudioDelta (Some deltaBase64)) w1
     = emit (Log "bridge_dropped_outbound_audio_human_speaking") w1.
Proof.
  intros Hp Hi Hr Hd. cbv zeta. intros Hloud.
  assert (Hctx : ctx (Server.handleTwilioMedia cfg (Some payloadBase64) now w)
                 = Server.vad_update true now (ctx w)).
  { pose proof (ctx_handleTwilioMedia_cases cfg (Some payloadBase64) now w)
      as _.
    unfold Server.handleTwilioMedia. rewrite Hp, Hi, Hr. cbn [negb].
    set (mulawBuf := base64Decode cfg payloadBase64) in *.
    assert (Hen : Server.energy_loop
                    (Nat.div2 (S (length (Codec.decodeMulawToPcm16 mulawBuf))))
                    0 (Codec.decodeMulawToPcm16 mulawBuf) 0
                  = Some (sum_abs (decoded_samples mulawBuf))).
    { rewrite decodeMulawToPcm16_bytes, length_int16_bytes.
      rewrite Nat.div2_succ_double.
      exact (energy_loop_sum (decoded_samples mulawBuf) [] 0
               (decoded_samples_int16 mulawBuf)). }
    rewrite Hen, decode_upsample.
    assert (Hl : Server.loud (Codec.decodeMulawToPcm16 mulawBuf)
                   (sum_abs (decoded_samples mulawBuf)) = true).
    { unfold Server.loud, Server.ENERGY_THRESHOLD in *.
      rewrite decodeMulawToPcm16_bytes, length_int16_bytes.
      pose proof (sum_abs_nonneg (decoded_samples mulawBuf)).
      apply andb_true_iff. split; apply Z.ltb_lt.
      - destruct (decoded_samples mulawBuf); cbn in *; lia.
      - lia. }
    rewrite Hl. unfold Ws.openai_send, Server.media_error.
    cbn [sockets with_ctx].
    destruct (sockets w !! i) as [[| | |]|]; reflexivity. }
  split; [rewrite Hctx; reflexivity|].
  split; [rewrite Hctx; reflexivity|].
  unfold Server.onOpenaiMessage. rewrite Hd. cbn [negb].
  rewrite Hctx. reflexivity.
Qed.

Lemma loud_frame_gates_agent_audio_witness :
  humanSpeaking
    (ctx (Server.handleTwilioMedia sample_cfg (Some [0%N; 0%N]) 7
            sample_session))
  = true.
Proof.
  refine (proj1 (loud_frame_gates_agent_audio sample_cfg sample_session
                   [0%N; 0%N] (lit "AAAA") 7 0%nat eq_refl eq_refl eq_refl
                   eq_refl _)).
  vm_compute. reflexivity.
Defined.

(** When the logger cannot build its request at the moment the post is
    due (the call id has been cleared by a later [start] without one, or
    the endpoint URL, the anon key or the shared secret is missing), the
    finalization posts nothing: it logs [calllog_unexpected_error] and
    goes on to [cleanup].  This holds also after a summary has been
    requested and received, which is then lost. *)
Theorem post_skipped_when_logger_throws (cfg : Config) (w : World) (k : nat)
    (t now : jsstring) (r : SummaryResult) :
  pending w !! k = Some (AwaitSummary t) ->
  Str.otruthy (callSid (ctx w)) = false
  \/ CallLogger.getSalesCallLogUrl cfg = None
  \/ CallLogger.getSupabaseAnonKey cfg = None
  \/ CallLogger.getInternalSecret cfg = None ->
  Server.step cfg w (SummaryResponse k r now)
  = Some (Server.cleanup
            (emit (Log "calllog_unexpected_error")
               (emit (Log (fst (Server.summary_of_result r)))
                  (Server.settle k w))))
  /\ forall w',
       Server.step cfg w (SummaryResponse k r now) = Some w' ->
       count is_call_log_post (trace w') = count is_call_log_post (trace w)
       /\ awaiting (pending w') = Nat.pred (awaiting (pending w))
       /\ openaiWs (ctx w') = None
       /\ twilioWs w' <> OPEN.
Proof.
  intros Hk Hfail.
  assert (Hnone : forall s,
            CallLogger.logCallToSupabase cfg
              (Server.callLogPayload cfg t s now
                 (ctx (emit (Log (fst (Server.summary_of_result r)))
                         (Server.settle k w)))) = None).
  { intros s. unfold CallLogger.logCallToSupabase.
    cbn [Server.callLogPayload CallLogger.callSid ctx emit Server.settle
         set_pending].
    destruct (callSid (ctx w)) as [sid|]; [|reflexivity].
    cbn [Str.otruthy] in Hfail.
    destruct (Str.truthy sid); cbn [negb]; [|reflexivity].
    destruct Hfail as [H | [H | [H | H]]]; [discriminate H | | |].
    - rewrite H. reflexivity.
    - rewrite H. destruct (CallLogger.getSalesCallLogUrl cfg); reflexivity.
    - rewrite H. destruct (CallLogger.getSalesCallLogUrl cfg);
        [destruct (CallLogger.getSupabaseAnonKey cfg)|]; reflexivity. }
  assert (Hstep : Server.step cfg w (SummaryResponse k r now)
                  = Some (Server.cleanup
                            (emit (Log "calllog_unexpected_error")
                               (emit (Log (fst (Server.summary_of_result r)))
                                  (Server.settle k w))))).
  { cbn [Server.step]. rewrite Hk. unfold Server.resumeSummary.
    unfold Server.saveTail. rewrite Hnone. reflexivity. }
  split; [exact Hstep|].
  intros w' Hw'. rewrite Hstep in Hw'. injection Hw' as <-.
  split.
  { rewrite count_cleanup by (intros; reflexivity).
    rewrite !count_emit. cbn. lia. }
  split.
  { rewrite cleanup_pending. cbn [pending emit Server.settle set_pending].
    rewrite (awaiting_settle_summary _ _ _ Hk). reflexivity. }
  split; [rewrite cleanup_ctx; reflexivity|].
  apply cleanup_twilio_not_open.
Qed.

Lemma post_skipped_when_logger_throws_witness :
  exists w,
    Server.step sample_cfg
      (Server.handleTwilioStart None None sample_params
         (Server.onTwilioStop sample_cfg (lit "t0") sample_session))
      (SummaryResponse 0 SummaryBadJson (lit "t1")) = Some w
    /\ count is_call_log_post (trace w) = 0%nat.
Proof.
  assert (Hk : exists t,
             pending
               (Server.handleTwilioStart None None sample_params
                  (Server.onTwilioStop sample_cfg (lit "t0") sample_session))
             !! 0%nat = Some (AwaitSummary t))
    by (vm_compute; eexists; reflexivity).
  destruct Hk as [t Hk].
  destruct (post_skipped_when_logger_throws sample_cfg _ 0%nat t (lit "t1")
              SummaryBadJson Hk (or_introl eq_refl)) as [H1 H2].
  eexists. split; [exact H1|].
  destruct (H2 _ H1) as [H3 _]. rewrite H3. vm_compute. reflexivity.
Defined.
